(** * AI interviewer backend: session store, adaptive interview engine,
      keyword retrieval engine and report generator.

    Shallow embedding of
      - services/rag_engine.py
      - services/memory_manager.py
      - services/interview_engine.py
      - services/evaluation_engine.py (overall feedback only)
      - routes/resume_routes.py, routes/interview_routes.py,
        routes/report_routes.py
    followed by the properties of the specification that concern them. *)

From Stdlib Require Import ZArith List Lia Bool String Ascii.
From Stdlib Require Import Floats.PrimFloat Numbers.Cyclic.Int63.Uint63.
From stdpp Require Import base option list gmap strings.

Local Open Scope Z_scope.

(** ** Python strings as the retrieval engine sees them *)

(** A document is a Python [str]: a sequence of Unicode code points.  The
    retrieval engine inspects characters (whitespace, letters), so document
    text is kept as a list of code points. *)
Abbreviation text := (list N).

(** Code points of an ASCII literal. *)
Definition u (s : string) : text :=
  List.map N_of_ascii (list_ascii_of_string s).

Module Py.

(** [str.isspace] on one code point: the characters [str.split()] and
    [str.strip()] treat as whitespace. *)
Definition is_space (c : N) : bool :=
  ((9 <=? c) && (c <=? 13) || (28 <=? c) && (c <=? 32)
   || (c =? 133) || (c =? 160) || (c =? 5760)
   || (8192 <=? c) && (c <=? 8202)
   || (c =? 8232) || (c =? 8233) || (c =? 8239) || (c =? 8287)
   || (c =? 12288))%N.

Definition space : text := [32%N].
Definition newline : text := [10%N].

(** Truth value of a string or list: non-empty. *)
Definition truthy {A} (l : list A) : bool :=
  match l with [] => false | _ => true end.

Definition emit (cur : text) : list text :=
  if truthy cur then [cur] else [].

(** [s.split()]: maximal runs of non-whitespace characters.  [cur] is the
    run being read. *)
Fixpoint split_from (cur s : text) : list text :=
  match s with
  | [] => emit cur
  | c :: s' =>
      if is_space c then emit cur ++ split_from [] s'
      else split_from (cur ++ [c]) s'
  end.

Definition split (s : text) : list text := split_from [] s.

(** What [split] returns: non-empty runs free of whitespace. *)
Definition word (w : text) : Prop :=
  w <> [] /\ Forall (fun c => is_space c = false) w.

Fixpoint lstrip (s : text) : text :=
  match s with
  | [] => []
  | c :: s' => if is_space c then lstrip s' else s
  end.

(** [s.strip()] *)
Definition strip (s : text) : text := rev (lstrip (rev (lstrip s))).

(** [sep.join(l)] *)
Fixpoint join (sep : text) (l : list text) : text :=
  match l with
  | [] => []
  | x :: l' =>
      match l' with
      | [] => x
      | _ => x ++ sep ++ join sep l'
      end
  end.

(** [l[i:j]] for [0 <= i <= j] *)
Definition slice {A} (l : list A) (i j : nat) : list A :=
  take (j - i) (drop i l).

(** [range(start, stop, step)] for a positive step: at most [stop]
    values lie below [stop], which bounds the recursion. *)
Fixpoint range_from (fuel i stop step : nat) : list nat :=
  match fuel with
  | O => []
  | S fuel' =>
      if (i <? stop)%nat then i :: range_from fuel' (i + step) stop step
      else []
  end.

Definition range (start stop step : nat) : list nat :=
  range_from stop start stop step.

(** [s.lower()], as far as ASCII letters are concerned: besides A-Z only
    U+0130 and U+212A have a lower case containing an ASCII letter; every
    other character is mapped to itself, which leaves its membership in
    [a-zA-Z] unchanged. *)
Definition lower_char (c : N) : text :=
  (if (65 <=? c) && (c <=? 90) then [c + 32]
   else if c =? 304 then [105; 775]
   else if c =? 8490 then [107]
   else [c])%N.

Definition lower (s : text) : text := concat (List.map lower_char s).

Definition is_alpha (c : N) : bool :=
  ((65 <=? c) && (c <=? 90) || (97 <=? c) && (c <=? 122))%N.

(** [re.findall(r'[a-zA-Z]+', s)] *)
Fixpoint findall_alpha_from (cur s : text) : list text :=
  match s with
  | [] => emit cur
  | c :: s' =>
      if is_alpha c then findall_alpha_from (cur ++ [c]) s'
      else emit cur ++ findall_alpha_from [] s'
  end.

Definition findall_alpha (s : text) : list text := findall_alpha_from [] s.

(** [collections.Counter(l)] *)
Definition Counter (l : list text) : gmap text Z :=
  foldl (fun m t => <[t := default 0 (m !! t) + 1]> m) ∅ l.

(** [float(n)] for a non-negative [n] below [2^63] (exact below [2^53]). *)
Definition float_of_int (n : Z) : float := PrimFloat.of_uint63 (Uint63.of_Z n).

End Py.

(** ** services/rag_engine.py *)

Module Rag.

(** [_store]: session id -> list of text chunks. *)
Abbreviation store := (gmap string (list text)).

Definition _tokenize (t : text) : list text :=
  Py.findall_alpha (Py.lower t).

Definition sum_Z (l : list Z) : Z := foldr Z.add 0 l.

Definition _compute_similarity (query_tokens doc_tokens : list text) : float :=
  if negb (Py.truthy query_tokens) || negb (Py.truthy doc_tokens) then 0%float
  else
    let query_counts := Py.Counter query_tokens in
    let doc_counts := Py.Counter doc_tokens in
    let all_tokens : gset text := dom query_counts ∪ dom doc_counts in
    let dot_product :=
      sum_Z (List.map (fun t => default 0 (query_counts !! t)
                                * default 0 (doc_counts !! t))
                      (elements all_tokens)) in
    let q_norm :=
      PrimFloat.sqrt (Py.float_of_int
        (sum_Z (List.map (fun kv => snd kv ^ 2) (map_to_list query_counts)))) in
    let d_norm :=
      PrimFloat.sqrt (Py.float_of_int
        (sum_Z (List.map (fun kv => snd kv ^ 2) (map_to_list doc_counts)))) in
    if PrimFloat.eqb q_norm 0%float || PrimFloat.eqb d_norm 0%float then 0%float
    else PrimFloat.div (Py.float_of_int dot_product) (PrimFloat.mul q_norm d_norm).

(** The loop body of [store_resume_chunks]. *)
Definition add_chunk (words : list text) (step : nat)
    (chunks : list text) (i : nat) : list text :=
  let chunk := Py.join Py.space (Py.slice words i (i + step)) in
  if Py.truthy (Py.strip chunk) then chunks ++ [chunk] else chunks.

Definition make_chunks (t : text) (chunk_size : Z) : list text :=
  let words := Py.split t in
  let step := Z.to_nat (Z.max chunk_size 1) in
  let chunks :=
    foldl (add_chunk words step) [] (Py.range 0 (length words) step) in
  if Py.truthy chunks then chunks else [t].

Definition store_resume_chunks (st : store) (session_id : string)
    (t : text) (chunk_size : Z) : store :=
  <[session_id := make_chunks t chunk_size]> st.

(** [scored.sort(key=lambda x: x[0], reverse=True)]: stable, so an element
    is placed before the first one whose score is strictly smaller. *)
Fixpoint insert_desc (x : float * text) (l : list (float * text))
    : list (float * text) :=
  match l with
  | [] => [x]
  | y :: l' =>
      if PrimFloat.ltb (fst x) (fst y) then y :: insert_desc x l'
      else x :: l
  end.

Definition sort_desc (l : list (float * text)) : list (float * text) :=
  foldr insert_desc [] l.

Definition retrieve_context (st : store) (session_id : string)
    (query : text) (n_results : nat) : text :=
  let chunks := default [] (st !! session_id) in
  if negb (Py.truthy chunks) then []
  else
    let query_tokens := _tokenize query in
    let scored :=
      List.map (fun chunk =>
                  (_compute_similarity query_tokens (_tokenize chunk), chunk))
               chunks in
    let top_chunks := List.map snd (take n_results (sort_desc scored)) in
    Py.join Py.newline top_chunks.

Definition cleanup_session (st : store) (session_id : string) : store :=
  delete session_id st.

Definition get_full_resume_text (st : store) (session_id : string) : text :=
  let chunks := default [] (st !! session_id) in
  Py.join Py.space chunks.

End Rag.

(** ** Binary64 arithmetic of the report, in exact integers *)

(** A binary64 value [mant * 2^expo].  The report divides two integers and
    rounds the quotient to one decimal; both steps are correctly rounded in
    CPython, so they are determined by exact integer arithmetic.  Quotients
    are assumed to lie in the normal range of binary64. *)
Module Binary64.

Record dyadic := mkDyadic { mant : Z; expo : Z }.

(** [x * 2^k] for [k >= 0], and [x] otherwise. *)
Definition scale (x k : Z) : Z := x * 2 ^ Z.max 0 k.

(** The integer nearest to [num / den], ties to even ([den > 0]). *)
Definition round_half_even (num den : Z) : Z :=
  let q := num / den in
  let r := num mod den in
  if 2 * r <? den then q
  else if den <? 2 * r then q + 1
  else if Z.even q then q else q + 1.

(** [floor(log2(a / b))] for [a, b > 0]. *)
Definition quotient_log2 (a b : Z) : Z :=
  let d := Z.log2 a - Z.log2 b in
  if scale b d <=? scale a (- d) then d else d - 1.

(** [a / b] on Python integers ([b > 0]): the binary64 value nearest to the
    quotient, with a 53-bit significand. *)
Definition true_div (a b : Z) : dyadic :=
  if a =? 0 then mkDyadic 0 0
  else
    let e := quotient_log2 (Z.abs a) b - 52 in
    mkDyadic (round_half_even (scale a (- e)) (scale b e)) e.

(** [round(x, 1)] and the [.1f] format: the decimal with one fractional
    digit nearest to [x], ties to even, given as a number of tenths. *)
Definition round1 (x : dyadic) : Z :=
  round_half_even (scale (10 * mant x) (expo x)) (scale 1 (- expo x)).

(** [x >= n] for an integer [n]. *)
Definition geb (x : dyadic) (n : Z) : bool :=
  scale n (- expo x) <=? scale (mant x) (expo x).

End Binary64.

(** ** services/memory_manager.py *)

Module Memory.

Record QuestionRecord := mkQuestion {
  question_number : Z;
  question : string;
  category : string;
  answer : option string;
  score : Z;
  feedback : string;
  skipped : bool
}.

(** One entry of [conversation_history]. *)
Record Message := mkMessage { role : string; content : string }.

(** [resume_summary]: of the keys of this dictionary the engine reads
    ["skills"] outside of prompts.  The dictionary has the shape
    [_fallback_analyze] gives it and the oracle is asked for: an object
    whose ["skills"], ["projects"] and ["experience"] are absent or lists of
    strings.  On a decoded reply of another shape the engine raises where it
    joins these lists or indexes the skills, outside its [try] blocks, and
    the route answers 500 with the updates made so far; such profiles are
    not covered. *)
Record ResumeData := mkResume { skills : option (list string) }.

(** [start_time] and [end_time] are readings of [time.time()], taken in whole
    seconds. *)
Record InterviewSession := mkSession {
  session_id : string;
  resume_text : text;
  resume_summary : ResumeData;
  questions : list QuestionRecord;
  current_question_index : nat;
  started : bool;
  finished : bool;
  start_time : Z;
  end_time : Z;
  conversation_history : list Message;
  current_topic : string;
  topic_question_count : Z;
  weak_streak : Z
}.

(** [InterviewSession(session_id=session_id)] *)
Definition new_session (sid : string) : InterviewSession :=
  mkSession sid [] (mkResume None) [] 0%nat false false 0 0 []
            "introduction" 0 0.

(** [_sessions] *)
Abbreviation sessions := (gmap string InterviewSession).

(** A keyword argument of [update_session]. *)
Inductive field :=
| resume_text_ (v : text)
| resume_summary_ (v : ResumeData)
| started_ (v : bool)
| finished_ (v : bool)
| start_time_ (v : Z)
| end_time_ (v : Z)
| current_topic_ (v : string)
| topic_question_count_ (v : Z)
| weak_streak_ (v : Z).

(** [setattr(session, key, value)] *)
Definition setattr (s : InterviewSession) (f : field) : InterviewSession :=
  let '(mkSession sid rt rs qs idx st fin t0 t1 hist topic tqc ws) := s in
  match f with
  | resume_text_ v => mkSession sid v rs qs idx st fin t0 t1 hist topic tqc ws
  | resume_summary_ v => mkSession sid rt v qs idx st fin t0 t1 hist topic tqc ws
  | started_ v => mkSession sid rt rs qs idx v fin t0 t1 hist topic tqc ws
  | finished_ v => mkSession sid rt rs qs idx st v t0 t1 hist topic tqc ws
  | start_time_ v => mkSession sid rt rs qs idx st fin v t1 hist topic tqc ws
  | end_time_ v => mkSession sid rt rs qs idx st fin t0 v hist topic tqc ws
  | current_topic_ v => mkSession sid rt rs qs idx st fin t0 t1 hist v tqc ws
  | topic_question_count_ v => mkSession sid rt rs qs idx st fin t0 t1 hist topic v ws
  | weak_streak_ v => mkSession sid rt rs qs idx st fin t0 t1 hist topic tqc v
  end.

Definition set_questions (qs : list QuestionRecord) (idx : nat)
    (s : InterviewSession) : InterviewSession :=
  let '(mkSession sid rt rs _ _ st fin t0 t1 hist topic tqc ws) := s in
  mkSession sid rt rs qs idx st fin t0 t1 hist topic tqc ws.

Definition set_history (hist : list Message)
    (s : InterviewSession) : InterviewSession :=
  let '(mkSession sid rt rs qs idx st fin t0 t1 _ topic tqc ws) := s in
  mkSession sid rt rs qs idx st fin t0 t1 hist topic tqc ws.

(** [fresh] is the identifier drawn from [uuid4]. *)
Definition create_session (m : sessions) (fresh : string) : string * sessions :=
  (fresh, <[fresh := new_session fresh]> m).

Definition get_session (m : sessions) (sid : string) : option InterviewSession :=
  m !! sid.

(** Every [field] is an attribute of the session, so the [hasattr] test of
    the source holds for each keyword. *)
Definition update_session (m : sessions) (sid : string) (kwargs : list field)
    : sessions :=
  match m !! sid with
  | Some session => <[sid := foldl setattr session kwargs]> m
  | None => m
  end.

Definition add_question (m : sessions) (sid : string) (q c : string)
    : Z * sessions :=
  match m !! sid with
  | Some session =>
      let q_num := Z.of_nat (length (questions session)) + 1 in
      let record := mkQuestion q_num q c None 0 "" false in
      (q_num,
       <[sid := set_questions (questions session ++ [record])
                  (current_question_index session) session]> m)
  | None => (0, m)
  end.

Definition answer_record (a : string) (sc : Z) (fb : string)
    (q : QuestionRecord) : QuestionRecord :=
  mkQuestion (question_number q) (question q) (category q)
             (Some a) sc fb (skipped q).

Definition skip_record (q : QuestionRecord) : QuestionRecord :=
  mkQuestion (question_number q) (question q) (category q)
             (answer q) (score q) (feedback q) true.

Definition record_answer (m : sessions) (sid : string) (a : string)
    (sc : Z) (fb : string) : sessions :=
  match m !! sid with
  | Some session =>
      if Py.truthy (questions session) then
        let idx := current_question_index session in
        if (idx <? length (questions session))%nat then
          <[sid := set_questions
                     (alter (answer_record a sc fb) idx (questions session))
                     (idx + 1)%nat session]> m
        else m
      else m
  | None => m
  end.

Definition record_skip (m : sessions) (sid : string) : sessions :=
  match m !! sid with
  | Some session =>
      if Py.truthy (questions session) then
        let idx := current_question_index session in
        if (idx <? length (questions session))%nat then
          <[sid := set_questions
                     (alter skip_record idx (questions session))
                     (idx + 1)%nat session]> m
        else m
      else m
  | None => m
  end.

Definition add_to_history (m : sessions) (sid : string) (r c : string)
    : sessions :=
  match m !! sid with
  | Some session =>
      <[sid := set_history (conversation_history session ++ [mkMessage r c])
                 session]> m
  | None => m
  end.

(** [q.answer] as a condition: present and non-empty. *)
Definition has_answer (q : QuestionRecord) : bool :=
  match answer q with
  | Some a => negb (String.eqb a "")
  | None => false
  end.

Definition is_answered (q : QuestionRecord) : bool :=
  negb (skipped q) && has_answer q.

(** [q.category in ("technical", "skill", "project") and q.score >= 6] *)
Definition is_technical (q : QuestionRecord) : bool :=
  (String.eqb (category q) "technical" || String.eqb (category q) "skill"
   || String.eqb (category q) "project")
  && (6 <=? score q).

(** [max(l, key=lambda q: q.score)] keeps the first of several maxima. *)
Fixpoint max_from (best : QuestionRecord) (l : list QuestionRecord)
    : QuestionRecord :=
  match l with
  | [] => best
  | q :: l' => max_from (if score best <? score q then q else best) l'
  end.

(** [min(l, key=lambda q: q.score)] keeps the first of several minima. *)
Fixpoint min_from (best : QuestionRecord) (l : list QuestionRecord)
    : QuestionRecord :=
  match l with
  | [] => best
  | q :: l' => min_from (if score q <? score best then q else best) l'
  end.

Definition sum_scores (l : list QuestionRecord) : Z :=
  foldr (fun q acc => score q + acc) 0 l.

(** The report dictionary.  [average_score] is a float with one decimal,
    given as a number of tenths. *)
Record Report := mkReport {
  rep_session_id : string;
  total_questions : nat;
  answered : nat;
  rep_skipped : nat;
  average_score : Z;
  best_answer : option QuestionRecord;
  worst_answer : option QuestionRecord;
  results : list QuestionRecord;
  duration_seconds : Z
}.

Definition get_session_report (m : sessions) (sid : string) : option Report :=
  match m !! sid with
  | None => None
  | Some session =>
      let answered := filter (fun q => is_answered q = true) (questions session) in
      let skipped := filter (fun q => skipped q = true) (questions session) in
      let technical_answered := filter (fun q => is_technical q = true) answered in
      let best_answer :=
        match technical_answered with
        | q :: l => Some (max_from q l)
        | [] => None
        end in
      let worst_answer :=
        match answered with
        | q :: l => Some (min_from q l)
        | [] => None
        end in
      let average :=
        if Py.truthy answered then
          Binary64.round1
            (Binary64.true_div (sum_scores answered) (Z.of_nat (length answered)))
        else 0 in
      let duration :=
        if end_time session =? 0 then 0
        else end_time session - start_time session in
      Some (mkReport sid (length (questions session)) (length answered)
                     (length skipped) average best_answer worst_answer
                     (questions session) duration)
  end.

End Memory.

(** ** The text-generation oracle *)

Module Oracle.

(** What [int(result["score"])] does with the value found under ["score"]. *)
Inductive score_value :=
| ScoreInt (n : Z)
| ScoreError.

(** The JSON object decoded from the oracle's text: the keys the engine
    reads, each possibly absent.  [j_should_end] is the truth value of the
    entry.  The texts are strings: a reply with [null] or another value
    under one of these keys is not covered. *)
Record json := mkJson {
  j_analysis : option string;
  j_score : option score_value;
  j_next_question : option string;
  j_question : option string;
  j_category : option string;
  j_topic : option string;
  j_should_end : option bool;
  j_end_reason : option string
}.

(** One request to the service: it raises, or returns a text; [decoded] is
    the result of [json.loads(_clean_json(text))], [None] when decoding
    raises or yields something that is not an object. *)
Inductive reply :=
| Raises
| Text (t : string) (decoded : option json).

(** [has_client]: [get_client()] returns a client (an API key is
    configured).  [answer]: what the service does with the next request. *)
Record oracle := mkOracle { has_client : bool; answer : reply }.

(** Computations that may send requests to the service; the state counts
    the requests sent, one for each call of
    [client.chat.completions.create] (what the client library does inside
    such a call, re-sending included, is not counted). *)
Definition Gen (A : Type) : Type := nat -> A * nat.

Definition ret {A} (a : A) : Gen A := fun calls => (a, calls).

Definition bind {A B} (c : Gen A) (k : A -> Gen B) : Gen B :=
  fun calls => let '(a, calls') := c calls in k a calls'.

(** [_generate(prompt)]: without a client the empty text, which does not
    decode. *)
Definition _generate (o : oracle) : Gen reply :=
  fun calls =>
    if has_client o then (answer o, S calls) else (Text "" None, calls).

End Oracle.

#[global] Instance gen_ret : MRet Oracle.Gen := @Oracle.ret.
#[global] Instance gen_bind : MBind Oracle.Gen :=
  fun A B k c => Oracle.bind c k.

(** ** services/interview_engine.py *)

Module Engine.
Import Memory Oracle.

(** The prompts are not modelled.  Building one joins the lists of the
    profile and the texts of the conversation, which succeeds for profiles
    and replies of the shapes given with [ResumeData] and [json]; on others
    these joins, which precede the [try] blocks, raise, and so does
    [_fallback_next] where it indexes the skills. *)

(** The dictionary returned by [generate_first_question]; with a decoded
    object, ["question"] and ["category"] may be absent. *)
Record first_question := mkFirst {
  fq_question : option string;
  fq_category : option string;
  fq_topic : string
}.

Definition fallback_first : first_question :=
  mkFirst (Some "Tell me about yourself and your background.")
          (Some "general") "introduction".

Definition generate_first_question (o : oracle) (resume_data : ResumeData)
    : Gen first_question :=
  if negb (has_client o) then mret fallback_first
  else
    r ← _generate o;
    match r with
    | Text _ (Some result) =>
        mret (mkFirst (j_question result) (j_category result)
                     (default "introduction" (j_topic result)))
    | _ => mret fallback_first
    end.

(** The dictionary returned by [analyze_and_next_question],
    [generate_after_skip] and [_fallback_next]; each of them sets every
    key. *)
Record decision := mkDecision {
  analysis : string;
  d_score : Z;
  next_question : string;
  d_category : string;
  topic : string;
  should_end : bool;
  end_reason : string
}.

(** An entry of the fallback pool. *)
Record pool_entry := mkEntry {
  e_next_question : string;
  e_category : string;
  e_topic : string
}.

Definition pool (s1 s2 : string) : list pool_entry :=
  [ mkEntry ("Can you tell me what " ++ s1 ++ " is and why you like using it?")
            "skill" s1;
    mkEntry "Tell me about a project you enjoyed working on. What did you build?"
            "project" "projects";
    mkEntry "When you find a bug in your code, what is the first thing you usually do?"
            "behavioral" "problem_solving";
    mkEntry ("What is " ++ s2 ++ " used for in simple terms?") "technical" s2;
    mkEntry "Tell me about something you learned recently that you found interesting."
            "behavioral" "learning";
    mkEntry "Have you used Git before? What basic commands do you use most often?"
            "technical" "git";
    mkEntry "How do you usually learn a new technology or tool?"
            "general" "learning";
    mkEntry "What is the difference between frontend and backend development?"
            "technical" "basics" ]%string.

(** The position [_fallback_next] reads in the pool. *)
Definition fallback_index (q_num : nat) (pool_size : nat) : nat :=
  Nat.min q_num (pool_size - 1).

Definition _fallback_next (resume_data : ResumeData) (q_num : nat)
    (topic_count : Z) (current_topic : string) : decision :=
  let skills := default ["programming"%string] (skills resume_data) in
  let s1 := default "programming"%string (skills !! 0%nat) in
  let s2 := default "your domain"%string (skills !! 1%nat) in
  let pool := pool s1 s2 in
  let idx := fallback_index q_num (length pool) in
  (* [idx] is a position of the pool, so the lookup succeeds *)
  let fallback := default (mkEntry "" "" "") (pool !! idx) in
  mkDecision "Fallback mode — LLM unavailable" 5
             (e_next_question fallback) (e_category fallback)
             (e_topic fallback) false "".

Definition analyze_and_next_question (o : oracle) (resume_data : ResumeData)
    (conversation_history : list Message) (current_topic : string)
    (topic_question_count : Z) (total_questions_asked : nat)
    (total_weak_streak : Z) : Gen decision :=
  let fallback :=
    _fallback_next resume_data total_questions_asked topic_question_count
                   current_topic in
  if negb (has_client o) then mret fallback
  else
    r ← _generate o;
    match r with
    | Text _ (Some result) =>
        match default (ScoreInt 5) (j_score result) with
        | ScoreInt n =>
            mret (mkDecision
                   (default "Answer analyzed." (j_analysis result))
                   (Z.min (Z.max n 1) 10)
                   (default "Can you tell me more about that?"
                            (j_next_question result))
                   (default "general" (j_category result))
                   (default current_topic (j_topic result))
                   (default false (j_should_end result))
                   (default "" (j_end_reason result)))
        | ScoreError => mret fallback
        end
    | _ => mret fallback
    end.

Definition forced_end : decision :=
  mkDecision "Candidate skipped again with too many weak responses." 0
             "Thank you for your time. That concludes our interview."
             "general" "closing" true
             "Too many consecutive skips and weak answers".

Definition generate_after_skip (o : oracle) (resume_data : ResumeData)
    (conversation_history : list Message) (total_questions_asked : nat)
    (total_weak_streak : Z) : Gen decision :=
  let client := has_client o in
  if (3 <=? total_weak_streak) && (5 <=? total_questions_asked)%nat
  then mret forced_end
  else
    let fallback := _fallback_next resume_data total_questions_asked 0 "new" in
    if negb client then mret fallback
    else
      r ← _generate o;
      match r with
      | Text _ (Some result) =>
          mret (mkDecision
                 "Candidate skipped — moving to different topic." 0
                 (default "Tell me about another project you worked on."
                          (j_next_question result))
                 (default "general" (j_category result))
                 (default "new_topic" (j_topic result))
                 false "")
      | _ => mret fallback
      end.

End Engine.

(** ** services/evaluation_engine.py: overall feedback *)

Module Evaluation.
Import Memory Oracle.

(** The feedback text: a fixed or generated text, or the sentence
    "Interview completed with an average score of X/10." with [X] the
    average printed with one decimal, given in tenths. *)
Inductive feedback_text :=
| Fixed (t : string)
| Completed (tenths : Z).

Definition generate_overall_feedback (o : oracle)
    (results : list QuestionRecord) : Gen feedback_text :=
  let client := has_client o in
  let answered := filter (fun r => skipped r = false) results in
  if negb (Py.truthy answered) then
    mret (Fixed "No questions were answered in this interview.")
  else
    let avg_score :=
      Binary64.true_div (sum_scores answered) (Z.of_nat (length answered)) in
    if negb client then
      if Binary64.geb avg_score 8 then
        mret (Fixed "Excellent performance! You demonstrated strong knowledge and communication skills.")
      else if Binary64.geb avg_score 6 then
        mret (Fixed "Good performance. You showed solid understanding with room for improvement in some areas.")
      else if Binary64.geb avg_score 4 then
        mret (Fixed "Average performance. Consider practicing more detailed and structured responses.")
      else
        mret (Fixed "Needs improvement. Focus on building deeper knowledge and practicing your responses.")
    else
      r ← _generate o;
      match r with
      | Text t _ =>
          if negb (String.eqb t "") then mret (Fixed t)
          else mret (Completed (Binary64.round1 avg_score))
      | Raises => mret (Completed (Binary64.round1 avg_score))
      end.

End Evaluation.

(** ** routes/*.py: the public operations *)

Module Routes.
Import Memory Oracle Engine Evaluation.

(** The two process-wide dictionaries. *)
Record world := mkWorld {
  _sessions : gmap string InterviewSession;
  _store : gmap string (list text)
}.

Definition initial : world := mkWorld ∅ ∅.

(** The outcome of a request: a body, or an error status. *)
Inductive http (A : Type) :=
| OK (body : A)
| HTTPException (status_code : Z) (detail : string).
Arguments OK {A} body.
Arguments HTTPException {A} status_code detail.

(** The dictionary answered by /start, /answer and /skip; a key that a
    path does not set is [None].  /start names the question ["question"]. *)
Record asked := mkAsked {
  r_analysis : option string;
  r_next_question : option string;
  r_question_number : nat;
  r_category : string;
  r_topic : option string;
  r_is_finished : bool;
  r_score : option Z;
  r_end_reason : option string
}.

(** Runs a computation of the engine; the routes do not look at the
    number of requests it sent. *)
Definition run {A} (g : Gen A) : A := fst (g 0%nat).

(** The object bound to [session] in a route, read after the memory
    manager has updated it in place. *)
Definition live (m : gmap string InterviewSession) (sid : string)
    (session : InterviewSession) : InterviewSession :=
  default session (m !! sid).

(** POST /resume.  [fresh] is the identifier [create_session] draws,
    [extracted] the text read from the uploaded PDF ([None] when saving or
    reading it raises), [resume_data] the result of [analyze_resume].  The
    checks of the file name precede every update and are left out. *)
Definition upload_resume (fresh : string) (extracted : option text)
    (resume_data : ResumeData) (w : world)
    : http (string * ResumeData) * world :=
  let '(session_id, m1) := create_session (_sessions w) fresh in
  match extracted with
  | None =>
      (HTTPException 500 "Error processing resume", mkWorld m1 (_store w))
  | Some resume_text =>
      if negb (Py.truthy (Py.strip resume_text)) then
        (HTTPException 400 "Could not extract text from PDF",
         mkWorld m1 (_store w))
      else
        let st := Rag.store_resume_chunks (_store w) session_id resume_text 100 in
        let m2 := update_session m1 session_id
                    [resume_text_ resume_text; resume_summary_ resume_data] in
        (OK (session_id, resume_data), mkWorld m2 st)
  end.

(** POST /api/interview/start *)
Definition start_interview (o : oracle) (now : Z) (sid : string) (w : world)
    : http asked * world :=
  let m := _sessions w in
  match get_session m sid with
  | None =>
      (HTTPException 404 "Session not found. Please upload resume first.", w)
  | Some session =>
      if started session then
        (HTTPException 400 "Interview already started", w)
      else
        let first_q := run (generate_first_question o (resume_summary session)) in
        match fq_question first_q, fq_category first_q with
        | Some q, Some c =>
            let m1 := snd (add_question m sid q c) in
            let m2 := update_session m1 sid
                        [started_ true; start_time_ now;
                         current_topic_ (fq_topic first_q);
                         topic_question_count_ 1; weak_streak_ 0] in
            let m3 := add_to_history m2 sid "interviewer" q in
            (OK (mkAsked (Some ""%string) (Some q) 1 c None false (Some 0) None),
             mkWorld m3 (_store w))
        | _, _ =>
            (* KeyError on first_q["question"] or first_q["category"] *)
            (HTTPException 500 "Internal Server Error", w)
        end
  end.

(** POST /api/interview/answer *)
Definition submit_answer (o : oracle) (now : Z) (sid : string)
    (answer : string) (w : world) : http asked * world :=
  let m := _sessions w in
  match get_session m sid with
  | None => (HTTPException 404 "Session not found", w)
  | Some session =>
      if negb (started session) then
        (HTTPException 400 "Interview not started", w)
      else if finished session then
        (HTTPException 400 "Interview already finished", w)
      else
        let current_idx := current_question_index session in
        if (length (questions session) <=? current_idx)%nat then
          let m1 := update_session m sid [finished_ true; end_time_ now] in
          (OK (mkAsked (Some "Interview complete!"%string) None current_idx ""
                       None true (Some 0) None),
           mkWorld m1 (_store w))
        else
          let m1 := add_to_history m sid "candidate" answer in
          let s1 := live m1 sid session in
          let result :=
            run (analyze_and_next_question o (resume_summary s1)
                   (conversation_history s1) (current_topic s1)
                   (topic_question_count s1) (length (questions s1))
                   (weak_streak s1)) in
          let score := d_score result in
          let analysis := analysis result in
          let m2 := record_answer m1 sid answer score analysis in
          let s2 := live m2 sid session in
          let new_weak_streak :=
            if score <=? 5 then weak_streak s2 + 1 else 0 in
          let new_topic := topic result in
          let new_topic_count :=
            if negb (String.eqb new_topic (current_topic s2)) then 1
            else topic_question_count s2 + 1 in
          let m3 := update_session m2 sid
                      [current_topic_ new_topic;
                       topic_question_count_ new_topic_count;
                       weak_streak_ new_weak_streak] in
          if should_end result then
            let m4 := update_session m3 sid [finished_ true; end_time_ now] in
            (OK (mkAsked (Some analysis) (Some (next_question result))
                         (length (questions (live m4 sid session)))
                         (d_category result) None true (Some score)
                         (Some (end_reason result))),
             mkWorld m4 (_store w))
          else
            let next_question := next_question result in
            let m4 := snd (add_question m3 sid next_question (d_category result)) in
            let m5 := add_to_history m4 sid "interviewer" next_question in
            (OK (mkAsked (Some analysis) (Some next_question)
                         (length (questions (live m5 sid session)))
                         (d_category result) (Some new_topic) false
                         (Some score) None),
             mkWorld m5 (_store w))
  end.

(** POST /api/interview/skip *)
Definition skip_question (o : oracle) (now : Z) (sid : string) (w : world)
    : http asked * world :=
  let m := _sessions w in
  match get_session m sid with
  | None => (HTTPException 404 "Session not found", w)
  | Some session =>
      if negb (started session) then
        (HTTPException 400 "Interview not started", w)
      else if finished session then
        (HTTPException 400 "Interview already finished", w)
      else
        let m1 := record_skip m sid in
        let s1 := live m1 sid session in
        let new_weak_streak := weak_streak s1 + 1 in
        let m2 := update_session m1 sid [weak_streak_ new_weak_streak] in
        let s2 := live m2 sid session in
        let result :=
          run (generate_after_skip o (resume_summary s2)
                 (conversation_history s2) (length (questions s2))
                 new_weak_streak) in
        if should_end result then
          let m3 := update_session m2 sid [finished_ true; end_time_ now] in
          (OK (mkAsked None (Some (next_question result))
                       (length (questions (live m3 sid session)))
                       "general" None true None (Some (end_reason result))),
           mkWorld m3 (_store w))
        else
          let next_question := next_question result in
          let new_topic := topic result in
          let m3 := snd (add_question m2 sid next_question (d_category result)) in
          let m4 := add_to_history m3 sid "interviewer" next_question in
          let m5 := update_session m4 sid
                      [current_topic_ new_topic; topic_question_count_ 1] in
          (OK (mkAsked None (Some next_question)
                       (length (questions (live m5 sid session)))
                       (d_category result) (Some new_topic) false None None),
           mkWorld m5 (_store w))
  end.

(** POST /api/interview/end *)
Definition end_interview (now : Z) (sid : string) (w : world)
    : http string * world :=
  let m := _sessions w in
  match get_session m sid with
  | None => (HTTPException 404 "Session not found", w)
  | Some session =>
      let m1 := update_session m sid [finished_ true; end_time_ now] in
      (OK sid, mkWorld m1 (_store w))
  end.

(** GET /api/report/{session_id} *)
Definition get_report (o : oracle) (sid : string) (w : world)
    : http (Report * feedback_text) * world :=
  match get_session_report (_sessions w) sid with
  | None => (HTTPException 404 "Session not found", w)
  | Some report =>
      let overall_feedback := run (generate_overall_feedback o (results report)) in
      (OK (report, overall_feedback), w)
  end.

(** A request to the service, with what the environment contributes to
    it. *)
Inductive request :=
| Upload (fresh : string) (extracted : option text) (resume_data : ResumeData)
| Start (sid : string)
| Answer (sid : string) (answer : string)
| Skip (sid : string)
| End (sid : string)
| GetReport (sid : string).

(** The world after a request served at time [now] with oracle [o]. *)
Definition serve (o : oracle) (now : Z) (r : request) (w : world) : world :=
  match r with
  | Upload fresh extracted resume_data =>
      snd (upload_resume fresh extracted resume_data w)
  | Start sid => snd (start_interview o now sid w)
  | Answer sid answer => snd (submit_answer o now sid answer w)
  | Skip sid => snd (skip_question o now sid w)
  | End sid => snd (end_interview now sid w)
  | GetReport sid => snd (get_report o sid w)
  end.

(** The worlds the service can be in. *)
Inductive reachable : world -> Prop :=
| reachable_initial : reachable initial
| reachable_serve o now r w :
    reachable w -> reachable (serve o now r w).

(** A sequence of requests, each with the oracle and the clock it meets,
    served from the initial world. *)
Definition replay (l : list (oracle * Z * request)) : world :=
  foldl (fun w '(o, now, r) => serve o now r w) initial l.

(** The state of the interview of a session. *)
Inductive phase := NOT_STARTED | IN_PROGRESS | FINISHED.

Definition phase_of (s : InterviewSession) : phase :=
  if finished s then FINISHED
  else if started s then IN_PROGRESS
  else NOT_STARTED.

(** Position [i] of the question sequence holds the ordinal [i + 1]. *)
Definition numbered (qs : list QuestionRecord) : Prop :=
  forall i q, qs !! i = Some q -> question_number q = Z.of_nat i + 1.

(** What the public operations maintain of a session. *)
Record session_inv (s : InterviewSession) : Prop := mkInv {
  inv_index : (current_question_index s <= length (questions s))%nat;
  inv_numbered : numbered (questions s);
  inv_not_started : started s = false -> questions s = [];
  inv_in_progress :
    started s = true -> finished s = false ->
    S (current_question_index s) = length (questions s);
  inv_weak_streak : 0 <= weak_streak s;
  inv_topic_count : started s = true -> 1 <= topic_question_count s
}.

Definition world_inv (w : world) : Prop :=
  forall sid s, _sessions w !! sid = Some s -> session_inv s.

(** The rule of the specification for the topic counter in a decision
    cycle from session [prior] to session [s'] that chose [new_topic]. *)
Definition topic_rule (prior s' : InterviewSession) (new_topic : string)
    : Prop :=
  current_topic s' = new_topic
  /\ topic_question_count s'
     = (if String.eqb new_topic (current_topic prior)
        then topic_question_count prior + 1 else 1).

(** The oracle is unreachable, or what it returns does not decode to an
    object. *)
Definition unavailable (o : oracle) : Prop :=
  has_client o = false
  \/ answer o = Raises
  \/ (exists t, answer o = Text t None).

End Routes.

(** ** The report, in the words of the specification *)

Module ReportSpec.
Import Memory.

(** A record that is not skipped and has an answer. *)
Definition Answered (q : QuestionRecord) : Prop :=
  skipped q = false /\ answer q <> None /\ answer q <> Some ""%string.

(** An answered record that may be the best answer. *)
Definition Qualifying (q : QuestionRecord) : Prop :=
  Answered q
  /\ (category q = "technical" \/ category q = "skill"
      \/ category q = "project")%string
  /\ 6 <= score q.

#[global] Instance Answered_dec q : Decision (Answered q).
Proof. unfold Answered. apply _. Defined.

#[global] Instance Qualifying_dec q : Decision (Qualifying q).
Proof. unfold Qualifying. apply _. Defined.

(** [t] tenths is a one-decimal rounding of [total / n]: no decimal with
    one fractional digit is nearer. *)
Definition nearest_tenth (total n t : Z) : Prop :=
  2 * Z.abs (10 * total - t * n) <= n.

End ReportSpec.

(** ** A concrete interview *)

Module Scenario.
Import Memory Oracle Engine Routes.

Definition no_client : oracle := mkOracle false Raises.

Definition resume : ResumeData := mkResume (Some ["Python"; "SQL"]%string).

(** The oracle grades the answer and asks to end the interview. *)
Definition ending : oracle :=
  mkOracle true
    (Text "(json)"
       (Some (mkJson (Some "Clear introduction.") (Some (ScoreInt 7))
                     (Some "Thank you so much for your time!") None
                     (Some "general") (Some "introduction") (Some true)
                     (Some "enough ground covered")))).

(** After a skip the oracle stays on the topic of the interview. *)
Definition same_topic : oracle :=
  mkOracle true
    (Text "(json)"
       (Some (mkJson None None (Some "How would you describe yourself?")
                     None (Some "general") (Some "introduction") None None))).

(** A resume is uploaded and the interview started, without an oracle. *)
Definition opened : list (oracle * Z * request) :=
  [ (no_client, 0, Upload "s1" (Some (u "python and sql developer")) resume);
    (no_client, 1, Start "s1") ].

(** The session of that interview: in progress, with the opening question
    asked. *)
Definition opened_session : InterviewSession :=
  default (new_session "") (_sessions (replay opened) !! "s1").

(** Four answered questions with scores 3, 7, 9, 5, the 9 on a project,
    and a skipped one. *)
Definition graded : InterviewSession :=
  mkSession "s2" [] resume
    [ mkQuestion 1 "q1" "general" (Some "a1"%string) 3 "" false;
      mkQuestion 2 "q2" "general" (Some "a2"%string) 7 "" false;
      mkQuestion 3 "q3" "project" (Some "a3"%string) 9 "" false;
      mkQuestion 4 "q4" "general" (Some "a4"%string) 5 "" false;
      mkQuestion 5 "q5" "technical" None 0 "" true ]
    5 true true 100 400 [] "projects" 1 1.

End Scenario.

(** ** Further interviews *)

Module Traces.
Import Memory Oracle Engine Routes.

(** Four answers given without an oracle after [Scenario.opened]: each is
    graded 5 by the fallback, so the session has 5 questions and a weak
    streak of 4. *)
Definition five_weak : list (oracle * Z * request) :=
  Scenario.opened
  ++ [ (Scenario.no_client, 2, Answer "s1" "I do not know.");
       (Scenario.no_client, 3, Answer "s1" "Not sure.");
       (Scenario.no_client, 4, Answer "s1" "I forgot.");
       (Scenario.no_client, 5, Answer "s1" "No idea.") ].

Definition five_weak_session : InterviewSession :=
  default (new_session "") (_sessions (replay five_weak) !! "s1").

(** The session after one more request. *)
Definition after (o : oracle) (now : Z) (r : request)
    (l : list (oracle * Z * request)) : InterviewSession :=
  default (new_session "") (_sessions (serve o now r (replay l)) !! "s1").

(** An oracle whose reply carries a score far out of range. *)
Definition overrating : oracle :=
  mkOracle true
    (Text "(json)"
       (Some (mkJson None (Some (ScoreInt 250)) None None None None None None))).

End Traces.

(** ** The interview as a state machine on sessions *)

Module Machine.
Import Memory Oracle Engine Routes.

Definition interviewer (q : string) : Message := mkMessage "interviewer" q.
Definition candidate (a : string) : Message := mkMessage "candidate" a.

(** The record [add_question] appends. *)
Definition fresh_record (n : nat) (q c : string) : QuestionRecord :=
  mkQuestion (Z.of_nat n + 1) q c None 0 "" false.

(** The questions after the open question was answered or skipped by [f]
    and, unless the decision ends the interview, the next one was added. *)
Definition next_questions (f : QuestionRecord -> QuestionRecord)
    (d : decision) (s : InterviewSession) : list QuestionRecord :=
  alter f (current_question_index s) (questions s)
  ++ (if should_end d then []
      else [fresh_record (length (questions s)) (next_question d)
                         (d_category d)]).

(** What one request can do to a session: start it, run a decision cycle
    on an answer or on a skip, or end it. *)
Inductive transition (s : InterviewSession) : InterviewSession -> Prop :=
| start_step (q c tp : string) (now : Z) :
    started s = false ->
    transition s
      (mkSession (session_id s) (resume_text s) (resume_summary s)
         (questions s ++ [fresh_record (length (questions s)) q c])
         (current_question_index s) true (finished s) now (end_time s)
         (conversation_history s ++ [interviewer q]) tp 1 0)
| answer_step (d : decision) (ans : string) (now : Z) :
    started s = true -> finished s = false ->
    (current_question_index s < length (questions s))%nat ->
    1 <= d_score d <= 10 ->
    transition s
      (mkSession (session_id s) (resume_text s) (resume_summary s)
         (next_questions (answer_record ans (d_score d) (analysis d)) d s)
         (S (current_question_index s)) true (should_end d) (start_time s)
         (if should_end d then now else end_time s)
         (conversation_history s ++ candidate ans
            :: (if should_end d then [] else [interviewer (next_question d)]))
         (topic d)
         (if String.eqb (topic d) (current_topic s)
          then topic_question_count s + 1 else 1)
         (if d_score d <=? 5 then weak_streak s + 1 else 0))
| skip_step (d : decision) (now : Z) :
    started s = true -> finished s = false ->
    (current_question_index s < length (questions s))%nat ->
    (should_end d = true ->
     (5 <= length (questions s))%nat /\ 3 <= weak_streak s + 1) ->
    transition s
      (mkSession (session_id s) (resume_text s) (resume_summary s)
         (next_questions skip_record d s)
         (S (current_question_index s)) true (should_end d) (start_time s)
         (if should_end d then now else end_time s)
         (conversation_history s
            ++ (if should_end d then [] else [interviewer (next_question d)]))
         (if should_end d then current_topic s else topic d)
         (if should_end d then topic_question_count s else 1)
         (weak_streak s + 1))
| end_step (now : Z) :
    transition s
      (mkSession (session_id s) (resume_text s) (resume_summary s)
         (questions s) (current_question_index s) (started s) true
         (start_time s) now (conversation_history s) (current_topic s)
         (topic_question_count s) (weak_streak s)).

(** The session an upload that draws the identifier [sid] leaves under
    it. *)
Definition uploaded (r : request) (sid : string) (s' : InterviewSession)
    : Prop :=
  exists extracted rd,
    r = Upload sid extracted rd
    /\ (s' = new_session sid
        \/ exists t, extracted = Some t
             /\ s' = mkSession sid t rd [] 0%nat false false 0 0 []
                                "introduction" 0 0).

(** The session a request is about. *)
Definition target (r : request) : string :=
  match r with
  | Upload fresh _ _ => fresh
  | Start sid | Answer sid _ | Skip sid | End sid | GetReport sid => sid
  end.

(** The status of the response to a request. *)
Definition status_of {A} (h : http A) : Z :=
  match h with
  | OK _ => 200
  | HTTPException code _ => code
  end.

Definition status (o : oracle) (now : Z) (r : request) (w : world) : Z :=
  match r with
  | Upload fresh extracted rd => status_of (fst (upload_resume fresh extracted rd w))
  | Start sid => status_of (fst (start_interview o now sid w))
  | Answer sid ans => status_of (fst (submit_answer o now sid ans w))
  | Skip sid => status_of (fst (skip_question o now sid w))
  | End sid => status_of (fst (end_interview now sid w))
  | GetReport sid => status_of (fst (get_report o sid w))
  end.

(** The body of the response to an answer or a skip, when there is one. *)
Definition asked_of (o : oracle) (now : Z) (r : request) (w : world)
    : option asked :=
  match r with
  | Answer sid ans =>
      match fst (submit_answer o now sid ans w) with
      | OK body => Some body
      | HTTPException _ _ => None
      end
  | Skip sid =>
      match fst (skip_question o now sid w) with
      | OK body => Some body
      | HTTPException _ _ => None
      end
  | _ => None
  end.

(** The ranks of the phases, in the order an interview passes them. *)
Definition rank (p : phase) : nat :=
  match p with NOT_STARTED => 0 | IN_PROGRESS => 1 | FINISHED => 2 end.

End Machine.

(** ** What the records of a session look like *)

Module Ledger.
Import Memory.

(** A record the candidate has skipped, or answered with a graded
    answer. *)
Definition processed (q : QuestionRecord) : Prop :=
  (skipped q = true /\ answer q = None /\ score q = 0)
  \/ (skipped q = false /\ answer q <> None /\ 1 <= score q <= 10).

(** A record as [add_question] creates it. *)
Definition pristine (q : QuestionRecord) : Prop :=
  answer q = None /\ score q = 0 /\ feedback q = ""%string
  /\ skipped q = false.

Definition from_interviewer (m : Message) : Prop :=
  role m = "interviewer"%string.

#[global] Instance from_interviewer_dec m : Decision (from_interviewer m).
Proof. unfold from_interviewer. apply _. Defined.

Record ledger_inv (s : InterviewSession) : Prop := mkLedger {
  led_processed :
    forall i q, questions s !! i = Some q ->
                (i < current_question_index s)%nat -> processed q;
  led_pristine :
    forall i q, questions s !! i = Some q ->
                (current_question_index s <= i)%nat -> pristine q;
  led_mirror :
    content <$> filter from_interviewer (conversation_history s)
    = question <$> questions s
}.

End Ledger.

(** ** services/interview_engine.py: cleaning a reply, reading a resume *)

Module Reading.
Import Py Memory.

(** [s.startswith(p)] *)
Fixpoint startswith (s p : text) {struct p} : bool :=
  match p, s with
  | [], _ => true
  | _ :: _, [] => false
  | a :: p', c :: s' => (c =? a)%N && startswith s' p'
  end.

(** [s.split(c, 1)[1]] for a character [c] that occurs in [s]: what
    follows its first occurrence. *)
Fixpoint after_first (c : N) (s : text) : text :=
  match s with
  | [] => []
  | x :: s' => if (x =? c)%N then s' else after_first c s'
  end.

(** What precedes the last occurrence of [sep] in [s], when there is
    one. *)
Fixpoint before_last (sep s : text) : option text :=
  match s with
  | [] => None
  | c :: s' =>
      match before_last sep s' with
      | Some h => Some (c :: h)
      | None => if startswith s sep then Some [] else None
      end
  end.

(** [s.rsplit(sep, 1)[0]] for a non-empty [sep] *)
Definition rsplit_head (sep s : text) : text :=
  default s (before_last sep s).

Definition fence : text := u "```".

Definition _clean_json (t : text) : text :=
  let t := strip t in
  let t :=
    if startswith t fence then
      let t := if existsb (N.eqb 10) t then after_first 10 t else drop 3 t in
      rsplit_head fence t
    else t in
  strip t.

(** [sub in s] *)
Fixpoint contains (s sub : text) : bool :=
  match s with
  | [] => startswith [] sub
  | _ :: s' => startswith s sub || contains s' sub
  end.

Definition is_lower_ascii (c : ascii) : bool :=
  ((97 <=? N_of_ascii c) && (N_of_ascii c <=? 122))%N.

Definition is_upper_ascii (c : ascii) : bool :=
  ((65 <=? N_of_ascii c) && (N_of_ascii c <=? 90))%N.

(** [s.title()] on an ASCII string: a letter that follows a letter is put
    in lower case, any other letter in upper case.  [prev] tells whether
    the character before was a letter. *)
Fixpoint title_from (prev : bool) (s : string) : string :=
  match s with
  | EmptyString => EmptyString
  | String c s' =>
      if is_lower_ascii c then
        String (if prev then c else ascii_of_N (N_of_ascii c - 32))
               (title_from true s')
      else if is_upper_ascii c then
        String (if prev then ascii_of_N (N_of_ascii c + 32) else c)
               (title_from true s')
      else String c (title_from false s')
  end.

Definition title (s : string) : string := title_from false s.

Definition common_skills : list string :=
  [ "python"; "javascript"; "react"; "node"; "java"; "c++"; "sql";
    "html"; "css"; "typescript"; "mongodb"; "docker"; "aws"; "git";
    "machine learning"; "deep learning"; "flask"; "django"; "fastapi";
    "angular"; "vue"; "express"; "postgresql"; "mysql"; "redis";
    "kubernetes"; "linux"; "rust"; "go"; "swift"; "kotlin" ]%string.

(** [[s.title() for s in common_skills if s in text.lower()]].  The
    entries are ASCII, and [lower] puts the same ASCII characters between
    the same others as [str.lower], so the same entries occur. *)
Definition found_skills (t : text) : list string :=
  List.map title
    (List.filter (fun s => contains (lower t) (u s)) common_skills).

(** Of the dictionary [_fallback_analyze] returns, the key ["skills"]. *)
Definition _fallback_analyze (t : text) : ResumeData :=
  let found_skills := found_skills t in
  mkResume (Some (if truthy found_skills then found_skills
                  else ["General Programming"%string])).

End Reading.

(** ** routes/resume_routes.py: the upload with its checks of the file name *)

Module Intake.
Import Py Memory Routes Reading.

(** [s.endswith(suffix)] *)
Definition endswith (s suffix : text) : bool :=
  startswith (rev s) (rev suffix).

(** POST /resume.  [filename] is [file.filename], which may be absent; the
    other arguments are those of [Routes.upload_resume], which is the body
    of the route after the two checks. *)
Definition upload_resume (filename : option text) (fresh : string)
    (extracted : option text) (resume_data : ResumeData) (w : world)
    : http (string * ResumeData) * world :=
  match filename with
  | None => (HTTPException 400 "No file provided", w)
  | Some name =>
      if negb (truthy name) then (HTTPException 400 "No file provided", w)
      else if negb (endswith (lower name) (u ".pdf")) then
        (HTTPException 400 "Only PDF files are supported", w)
      else Routes.upload_resume fresh extracted resume_data w
  end.

End Intake.

(** ** services/evaluation_engine.py: grading without the oracle *)

Module Grading.

(** The score and the feedback. *)
Definition _fallback_evaluate (answer : text) : Z * string :=
  let word_count := length (Py.split answer) in
  if (word_count <? 5)%nat then
    (3, "Answer was too brief. Try to elaborate more."%string)
  else if (word_count <? 20)%nat then
    (5, "Decent answer, but could use more detail."%string)
  else if (word_count <? 50)%nat then
    (7, "Good answer with reasonable detail."%string)
  else
    (8, "Detailed and comprehensive answer."%string).

End Grading.

(** * Properties *)

(** ** Retrieval engine *)

Section RagFacts.
Import Py Rag.

Abbreviation nonspace := (fun c : N => is_space c = false).

Lemma split_from_run cur w rest :
  Forall nonspace w -> split_from cur (w ++ rest) = split_from (cur ++ w) rest.
Proof.
  intros Hw. revert cur. induction Hw as [|c w Hc _ IH]; intros cur.
  - by rewrite app_nil_r.
  - cbn. rewrite Hc, IH. by rewrite <- app_assoc.
Qed.

Lemma emit_word cur : Forall nonspace cur -> Forall word (emit cur).
Proof.
  intros H. unfold emit. destruct cur; cbn; constructor; [|constructor].
  split; [discriminate | exact H].
Qed.

Lemma split_from_words cur s :
  Forall nonspace cur -> Forall word (split_from cur s).
Proof.
  revert cur. induction s as [|c s IH]; intros cur Hcur; cbn.
  - by apply emit_word.
  - destruct (is_space c) eqn:Hc.
    + apply Forall_app. split; [by apply emit_word | apply IH; constructor].
    + apply IH. apply Forall_app. split; [done | by repeat constructor].
Qed.

Lemma split_words s : Forall word (split s).
Proof. apply split_from_words. constructor. Qed.

Lemma join_cons sep x y l : join sep (x :: y :: l) = x ++ sep ++ join sep (y :: l).
Proof. reflexivity. Qed.

Lemma split_join ws : Forall word ws -> split (join space ws) = ws.
Proof.
  unfold split. induction 1 as [|w ws [Hne Hw] Hws IH]; [done|].
  destruct ws as [|w' ws].
  - cbn [join]. pose proof (split_from_run [] w [] Hw) as Hrun.
    rewrite app_nil_r in Hrun. rewrite Hrun.
    cbn. unfold emit. by destruct w.
  - rewrite join_cons, split_from_run by done. cbn [app space split_from].
    replace (is_space 32) with true by reflexivity.
    rewrite IH. unfold emit. by destruct w.
Qed.

Lemma join_app sep a b :
  a <> [] -> b <> [] -> join sep (a ++ b) = join sep a ++ sep ++ join sep b.
Proof.
  intros Ha Hb. induction a as [|x a IH]; [done|].
  destruct a as [|y a].
  - destruct b; [done|]. reflexivity.
  - rewrite <- !app_comm_cons, !join_cons, app_comm_cons, IH by done.
    by rewrite <- !app_assoc.
Qed.

Lemma join_join groups :
  Forall (fun g : list text => g <> []) groups ->
  join space (List.map (join space) groups) = join space (concat groups).
Proof.
  induction 1 as [|g groups Hg Hgs IH]; [done|].
  destruct groups as [|g' groups].
  - cbn. by rewrite app_nil_r.
  - cbn [List.map concat]. cbn [List.map] in IH. rewrite join_cons, IH.
    inversion Hgs; subst. rewrite join_app; [done..|].
    cbn [concat]. by destruct g'.
Qed.

Lemma lstrip_keeps s : Exists nonspace s -> Exists nonspace (lstrip s).
Proof.
  induction s as [|c s IH]; intros H; [done|]. cbn.
  destruct (is_space c) eqn:Hc.
  - apply IH. inversion H; subst; [congruence | done].
  - by constructor.
Qed.

Lemma strip_truthy s : Exists nonspace s -> truthy (strip s) = true.
Proof.
  intros H. unfold strip.
  assert (Exists nonspace (rev (lstrip (rev (lstrip s))))) as H'.
  { apply Exists_rev, lstrip_keeps, Exists_rev, lstrip_keeps, H. }
  by destruct H'.
Qed.

Lemma join_nonspace ws :
  ws <> [] -> Forall word ws -> Exists nonspace (join space ws).
Proof.
  intros Hne Hws. destruct Hws as [|w ws [Hw Hns] _]; [done|].
  destruct w as [|c w]; [done|]. inversion Hns; subst.
  destruct ws; cbn; by constructor.
Qed.

(** The values of [range]: position [j] holds [i + j * step] as long as
    this is below [stop]. *)
Lemma range_from_lookup fuel i stop step j :
  (1 <= step)%nat -> (stop <= i + fuel)%nat ->
  range_from fuel i stop step !! j =
    if (i + j * step <? stop)%nat then Some (i + j * step)%nat else None.
Proof.
  intros Hstep. revert i j. induction fuel as [|fuel IH]; intros i j Hfuel.
  - cbn [range_from]. rewrite lookup_nil.
    destruct (Nat.ltb_spec (i + j * step) stop); [lia | done].
  - cbn [range_from]. destruct (Nat.ltb_spec i stop) as [Hi|Hi].
    + destruct j as [|j].
      * replace (i + 0 * step)%nat with i by lia.
        by destruct (Nat.ltb_spec i stop); [|lia].
      * rewrite lookup_cons_ne_0 by done. cbn [Nat.pred]. rewrite IH by lia.
        by replace (i + step + j * step)%nat
          with (i + S j * step)%nat by lia.
    + rewrite lookup_nil.
      destruct (Nat.ltb_spec (i + j * step) stop); [lia | done].
Qed.

Lemma range_lookup stop step j :
  (1 <= step)%nat ->
  range 0 stop step !! j =
    if (j * step <? stop)%nat then Some (j * step)%nat else None.
Proof. intros H. unfold range. by rewrite range_from_lookup by lia. Qed.

Lemma range_length_100 stop :
  length (range 0 stop 100) = ((stop + 99) / 100)%nat.
Proof.
  set (L := length (range 0 stop 100)).
  assert (~ (L * 100 < stop)%nat) as Hend.
  { intros Hlt. pose proof (range_lookup stop 100 L ltac:(lia)) as H.
    rewrite (lookup_ge_None_2 _ L) in H by (unfold L; lia).
    destruct (Nat.ltb_spec (L * 100) stop); [done | lia]. }
  assert (forall n, L = S n -> (n * 100 < stop)%nat) as Hlast.
  { intros n Hn. pose proof (range_lookup stop 100 n ltac:(lia)) as H.
    destruct (Nat.ltb_spec (n * 100) stop); [done|].
    apply lookup_ge_None_1 in H. unfold L in *. lia. }
  destruct L as [|n] eqn:HL.
  - assert (stop = 0)%nat as -> by lia. reflexivity.
  - specialize (Hlast n eq_refl).
    apply (Nat.div_unique _ _ _ (stop + 99 - S n * 100)); lia.
Qed.

Lemma range_bound stop step i :
  (1 <= step)%nat -> i ∈ range 0 stop step -> (i < stop)%nat.
Proof.
  intros Hstep [j Hj]%list_elem_of_lookup. rewrite range_lookup in Hj by done.
  destruct (Nat.ltb_spec (j * step) stop); naive_solver.
Qed.

Lemma slice_nonempty {A} (l : list A) i step :
  (1 <= step)%nat -> (i < length l)%nat -> slice l i (i + step) <> [].
Proof.
  intros Hstep Hi Hnil. apply (f_equal length) in Hnil.
  unfold slice in Hnil. rewrite length_take, length_drop in Hnil. cbn in Hnil. lia.
Qed.

Lemma slice_words (l : list text) i j : Forall word l -> Forall word (slice l i j).
Proof. intros H. unfold slice. by apply Forall_take, Forall_drop. Qed.

(** Every window of words gives a chunk that is kept. *)
Lemma foldl_add_chunk words step idxs acc :
  (1 <= step)%nat -> Forall word words ->
  Forall (fun i => i < length words)%nat idxs ->
  foldl (add_chunk words step) acc idxs =
    acc ++ List.map (fun i => join space (slice words i (i + step))) idxs.
Proof.
  intros Hstep Hwords Hidx. revert acc.
  induction Hidx as [|i idxs Hi _ IH]; intros acc; cbn.
  - by rewrite app_nil_r.
  - rewrite IH. unfold add_chunk at 1.
    rewrite strip_truthy.
    + by rewrite <- app_assoc.
    + apply join_nonspace; [by apply slice_nonempty | by apply slice_words].
Qed.

Lemma range_windows (words : list text) fuel i step :
  (1 <= step)%nat -> (length words <= i + fuel)%nat ->
  concat (List.map (fun i => slice words i (i + step))
                   (range_from fuel i (length words) step)) = drop i words.
Proof.
  intros Hstep. revert i.
  induction fuel as [|fuel IH]; intros i Hfuel; cbn [range_from].
  - by rewrite drop_ge by lia.
  - destruct (Nat.ltb_spec i (length words)).
    + cbn [List.map concat]. rewrite IH by lia. unfold slice.
      replace (i + step - i)%nat with step by lia.
      rewrite <- (drop_drop words step i).
      apply take_drop.
    + by rewrite drop_ge by lia.
Qed.

Lemma make_chunks_windows t step :
  (1 <= step)%Z -> split t <> [] ->
  make_chunks t step =
    List.map (join space)
      (List.map (fun i => slice (split t) i (i + Z.to_nat step))
                (range 0 (length (split t)) (Z.to_nat step))).
Proof.
  intros Hstep Hne. rewrite List.map_map. unfold make_chunks.
  replace (Z.max step 1) with step by lia.
  rewrite foldl_add_chunk.
  - cbn [app]. unfold range.
    destruct (split t) as [|w ws] eqn:Hsplit; [done|]. reflexivity.
  - lia.
  - apply split_words.
  - apply Forall_forall. intros i Hi.
    apply (range_bound _ (Z.to_nat step)); [lia | done].
Qed.

End RagFacts.

Section RagTheorems.
Import Py Rag.

Lemma lookup_map {A B} (f : A -> B) (l : list A) (j : nat) :
  List.map f l !! j = f <$> (l !! j).
Proof. exact (list_lookup_fmap f l j). Qed.

Lemma cleanup_removes (st : gmap string (list text)) key :
  cleanup_session st key !! key = None.
Proof. apply lookup_delete_eq. Qed.

Lemma store_other (st : gmap string (list text)) key key' t n :
  key <> key' -> store_resume_chunks st key t n !! key' = st !! key'.
Proof. intros Hne. by apply lookup_insert_ne. Qed.

End RagTheorems.

(** C7: a document of [k >= 1] words ingested with chunk size 100 is stored,
    whatever was stored under the key before, as [ceil(k / 100)] chunks;
    chunk [j] is the space-joined window of the words [100 j .. 100 j + 99],
    every window but the last holds 100 words and the last between 1 and
    100; and the words of [get_full_resume_text] are the words of the
    document. *)
Theorem ingest_chunks_roundtrip
    (st : gmap string (list text)) (key : string) (t : text) :
  let words := Py.split t in
  let k := length words in
  let st' := Rag.store_resume_chunks st key t 100 in
  (1 <= k)%nat ->
  exists chunks : list text,
    st' !! key = Some chunks
    /\ length chunks = ((k + 99) / 100)%nat
    /\ (forall j, (j < length chunks)%nat ->
          let window := take 100 (drop (100 * j) words) in
          chunks !! j = Some (Py.join Py.space window)
          /\ (1 <= length window <= 100)%nat
          /\ ((S j < length chunks)%nat -> length window = 100%nat))
    /\ Py.split (Rag.get_full_resume_text st' key) = words.
Proof.
  intros words k st' Hk.
  assert (Py.split t <> []) as Hne.
  { intros Hnil. subst k words. rewrite Hnil in Hk. cbn in Hk. lia. }
  pose proof (make_chunks_windows t 100 ltac:(lia) Hne) as Hchunks.
  change (Z.to_nat 100) with 100%nat in Hchunks. fold words k in Hchunks.
  exists (Rag.make_chunks t 100).
  assert (length (Rag.make_chunks t 100) = ((k + 99) / 100)%nat) as Hlen.
  { rewrite Hchunks, !length_map. apply range_length_100. }
  split; [apply lookup_insert_eq|]. split; [exact Hlen|]. split.
  - intros j Hj window.
    assert (j * 100 < k)%nat as Hjk.
    { rewrite Hchunks, !length_map in Hj.
      apply lookup_lt_is_Some_2 in Hj as [i Hi].
      rewrite range_lookup in Hi by lia.
      destruct (Nat.ltb_spec (j * 100) k); [done | discriminate]. }
    assert (length window = Nat.min 100 (k - 100 * j)) as Hwin.
    { subst window. by rewrite length_take, length_drop. }
    split; [|split].
    + rewrite Hchunks, !lookup_map, range_lookup by lia.
      destruct (Nat.ltb_spec (j * 100) k); [|lia]. cbn. unfold Py.slice.
      replace (j * 100 + 100 - j * 100)%nat with 100%nat by lia.
      by replace (j * 100)%nat with (100 * j)%nat by lia.
    + lia.
    + intros Hnext. rewrite Hlen in Hnext.
      assert (S j * 100 < k)%nat; [|lia].
      pose proof (Nat.div_mod_eq (k + 99) 100).
      pose proof (Nat.mod_upper_bound (k + 99) 100 ltac:(lia)). lia.
  - unfold Rag.get_full_resume_text. subst st'.
    unfold Rag.store_resume_chunks. rewrite lookup_insert_eq. cbn [from_option id].
    rewrite Hchunks, join_join.
    + unfold Py.range. rewrite range_windows by lia. rewrite drop_0.
      apply split_join, split_words.
    + apply Forall_forall. intros g Hg.
      apply list_elem_of_In, in_map_iff in Hg as (i & <- & Hi).
      apply slice_nonempty; [lia|].
      apply (range_bound _ 100); [lia | by apply list_elem_of_In].
Qed.

Lemma ingest_chunks_roundtrip_witness :
  exists chunks : list text,
    Rag.store_resume_chunks {["k1" := [u "old"]]} "k1" (u "alpha  beta gamma") 100
      !! "k1" = Some chunks
    /\ length chunks = 1%nat
    /\ (forall j, (j < length chunks)%nat ->
          chunks !! j = Some (Py.join Py.space
                                (take 100 (drop (100 * j) (Py.split (u "alpha  beta gamma")))))
          /\ (1 <= length (take 100 (drop (100 * j) (Py.split (u "alpha  beta gamma")))) <= 100)%nat
          /\ ((S j < length chunks)%nat ->
              length (take 100 (drop (100 * j) (Py.split (u "alpha  beta gamma")))) = 100%nat))
    /\ Py.split (Rag.get_full_resume_text
                   (Rag.store_resume_chunks {["k1" := [u "old"]]} "k1"
                      (u "alpha  beta gamma") 100) "k1")
       = [u "alpha"; u "beta"; u "gamma"].
Proof.
  apply (ingest_chunks_roundtrip {["k1" := [u "old"]]} "k1" (u "alpha  beta gamma")).
  vm_compute. lia.
Defined.

(** C10: under a key that holds no chunks, [retrieve_context] and
    [get_full_resume_text] return the empty string and [cleanup_session]
    leaves the store as it is. *)
Theorem retrieval_on_missing_key
    (st : gmap string (list text)) (key : string) (query : text) (n : nat) :
  st !! key = None ->
  Rag.retrieve_context st key query n = []
  /\ Rag.get_full_resume_text st key = []
  /\ Rag.cleanup_session st key = st.
Proof.
  intros Hnone. unfold Rag.retrieve_context, Rag.get_full_resume_text.
  rewrite Hnone. cbn. repeat split. by apply delete_id.
Qed.

Lemma retrieval_on_missing_key_witness :
  let st := Rag.cleanup_session
              (Rag.store_resume_chunks ∅ "s1" (u "python sql") 100) "s1" in
  Rag.retrieve_context st "s1" (u "sql") 3 = []
  /\ Rag.get_full_resume_text st "s1" = []
  /\ Rag.cleanup_session st "s1" = st.
Proof.
  apply retrieval_on_missing_key. vm_compute. reflexivity.
Defined.

Example split_ex :
  Py.split (u "  two  words ") = [u "two"; u "words"].
Proof. reflexivity. Qed.

Example chunks_ex :
  Rag.make_chunks (u "a b c d e") 2 = [u "a b"; u "c d"; u "e"].
Proof. reflexivity. Qed.

Example retrieve_ex :
  Rag.retrieve_context
    (Rag.store_resume_chunks ∅ "s1" (u "python flask api docker linux git") 2)
    "s1" (u "I use Docker on Linux") 2 = u "api docker" ++ Py.newline ++ u "linux git".
Proof. vm_compute. reflexivity. Qed.

(** ** Binary64 division and rounding *)

Section Binary64Facts.
Import Binary64.

Lemma scale_up x k : 0 <= k -> scale x k = x * 2 ^ k.
Proof. intros H. unfold scale. by rewrite Z.max_r. Qed.

Lemma scale_down x k : k <= 0 -> scale x k = x.
Proof. intros H. unfold scale. rewrite Z.max_l by done. cbn. lia. Qed.

(** [round_half_even] is within half a unit of the quotient. *)
Lemma round_half_even_near num den :
  0 < den -> 2 * Z.abs (num - round_half_even num den * den) <= den.
Proof.
  intros Hden. unfold round_half_even.
  pose proof (Z.div_mod num den ltac:(lia)) as Hdm.
  pose proof (Z.mod_pos_bound num den Hden) as Hr.
  set (q := num / den) in *. set (r := num mod den) in *.
  destruct (Z.ltb_spec (2 * r) den); [nia|].
  destruct (Z.ltb_spec den (2 * r)); [nia|].
  destruct (Z.even q); nia.
Qed.

(** The exponent found by [quotient_log2] does not exceed the quotient. *)
Lemma quotient_log2_below a b :
  0 < a -> 0 < b ->
  scale b (quotient_log2 a b) <= scale a (- quotient_log2 a b).
Proof.
  intros Ha Hb. unfold quotient_log2.
  set (d := Z.log2 a - Z.log2 b).
  destruct (Z.leb_spec (scale b d) (scale a (- d))) as [Hle|Hgt]; [done|].
  pose proof (Z.log2_spec a Ha) as [Hla _].
  pose proof (Z.log2_spec b Hb) as [_ Hlb].
  pose proof (Z.log2_nonneg a) as Hna. pose proof (Z.log2_nonneg b) as Hnb.
  destruct (Z.le_gt_cases 1 d) as [Hd|Hd].
  - rewrite scale_up, scale_down by lia.
    assert (2 ^ Z.log2 a = 2 ^ Z.succ (Z.log2 b) * 2 ^ (d - 1)) as Hpow.
    { rewrite <- Z.pow_add_r by lia. f_equal; lia. }
    pose proof (Z.pow_pos_nonneg 2 (d - 1) ltac:(lia) ltac:(lia)). nia.
  - rewrite scale_down, scale_up by lia.
    assert (2 ^ Z.succ (Z.log2 b) = 2 ^ Z.log2 a * 2 ^ (- (d - 1))) as Hpow.
    { rewrite <- Z.pow_add_r by lia. f_equal; lia. }
    pose proof (Z.pow_pos_nonneg 2 (- (d - 1)) ltac:(lia) ltac:(lia)). nia.
Qed.

Lemma quotient_log2_le a b : 0 < a -> quotient_log2 a b <= Z.log2 a.
Proof.
  intros Ha. unfold quotient_log2. pose proof (Z.log2_nonneg b).
  destruct (_ <=? _); lia.
Qed.

(** Dividing two integers and rounding the binary64 quotient to one
    decimal gives a decimal nearest to the exact quotient, as long as the
    dividend stays below [2^52 / 10]. *)
Lemma round1_true_div_nearest a b :
  0 <= a -> 0 < b -> 10 * a < 2 ^ 52 ->
  2 * Z.abs (10 * a - round1 (true_div a b) * b) <= b.
Proof.
  intros Ha Hb Hbound. unfold true_div.
  destruct (Z.eqb_spec a 0) as [->|Hne].
  { replace (round1 (mkDyadic 0 0)) with 0 by reflexivity. lia. }
  rewrite (Z.abs_eq a) by lia.
  set (L := quotient_log2 a b).
  assert (L <= 48) as HL.
  { pose proof (quotient_log2_le a b ltac:(lia)).
    assert (Z.log2 a < 49); [|lia].
    apply Z.log2_lt_pow2; lia. }
  pose proof (quotient_log2_below a b ltac:(lia) Hb) as Hlow. fold L in Hlow.
  unfold round1. cbn [mant expo].
  rewrite (scale_up a), (scale_down b), (scale_down (10 * _)), (scale_up 1)
    by lia.
  replace (- (L - 52)) with (52 - L) by lia. rewrite Z.mul_1_l.
  set (P := 2 ^ (52 - L)).
  assert (0 < P) as HP by (apply Z.pow_pos_nonneg; lia).
  assert (10 * b < P) as HbP.
  { destruct (Z.le_gt_cases 0 L) as [H0|H0].
    - rewrite scale_up, scale_down in Hlow by lia.
      assert (2 ^ 52 = P * 2 ^ L) as Hpow.
      { unfold P. rewrite <- Z.pow_add_r by lia. f_equal; lia. }
      pose proof (Z.pow_pos_nonneg 2 L ltac:(lia) H0). nia.
    - rewrite scale_down, scale_up in Hlow by lia.
      assert (P = 2 ^ 52 * 2 ^ (- L)) as Hpow.
      { unfold P. rewrite <- Z.pow_add_r by lia. f_equal; lia. }
      pose proof (Z.pow_pos_nonneg 2 (- L) ltac:(lia) ltac:(lia)). nia. }
  pose proof (round_half_even_near (a * P) b Hb) as Hm.
  set (m := round_half_even (a * P) b) in *.
  pose proof (round_half_even_near (10 * m) P HP) as Ht.
  set (t := round_half_even (10 * m) P) in *.
  clearbody P m t. clear Hlow HL L Hbound Hne.
  assert (P * (10 * a - t * b) = 10 * (a * P - m * b) + b * (10 * m - t * P))
    as Heq by ring.
  nia.
Qed.

End Binary64Facts.

(** ** Decision cycles *)

Section Cycles.
Import Memory Oracle Engine Routes.

Ltac mem_eval Hs :=
  repeat first
    [ rewrite Hs
    | rewrite lookup_insert_eq
    | rewrite insert_insert_eq
    | progress cbn [snd fst from_option id foldl setattr set_questions
                    set_history _sessions _store questions
                    current_question_index started finished weak_streak
                    current_topic topic_question_count resume_summary
                    conversation_history negb]
    | progress unfold update_session, add_question, record_answer,
        record_skip, add_to_history, get_session, live ].

Lemma truthy_length {A} (l : list A) i :
  (i < length l)%nat -> Py.truthy l = true.
Proof. destruct l; cbn; [lia | done]. Qed.

(** One decision cycle on an answer, as a change of the session. *)
Lemma submit_answer_cycle o now sid ans w s :
  _sessions w !! sid = Some s ->
  started s = true -> finished s = false ->
  (current_question_index s < length (questions s))%nat ->
  let result :=
    run (analyze_and_next_question o (resume_summary s)
           (conversation_history s ++ [mkMessage "candidate" ans])
           (current_topic s) (topic_question_count s)
           (length (questions s)) (weak_streak s)) in
  exists r s',
    submit_answer o now sid ans w
      = (OK r, mkWorld (<[sid := s']> (_sessions w)) (_store w))
    /\ r_is_finished r = should_end result
    /\ r_score r = Some (d_score result)
    /\ finished s' = should_end result
    /\ started s' = true
    /\ weak_streak s'
       = (if d_score result <=? 5 then weak_streak s + 1 else 0)
    /\ current_topic s' = topic result
    /\ topic_question_count s'
       = (if String.eqb (topic result) (current_topic s)
          then topic_question_count s + 1 else 1)
    /\ current_question_index s' = S (current_question_index s)
    /\ questions s'
       = alter (answer_record ans (d_score result) (analysis result))
               (current_question_index s) (questions s)
         ++ (if should_end result then []
             else [mkQuestion (Z.of_nat (length (questions s)) + 1)
                              (next_question result) (d_category result)
                              None 0 "" false]).
Proof.
  intros Hs Hst Hfin Hidx result.
  destruct s as [sid0 rt rs qs idx st fin t0 t1 hist tp tqc ws].
  cbn [questions current_question_index started finished weak_streak
       current_topic topic_question_count resume_summary
       conversation_history] in *. subst st fin.
  unfold submit_answer. cbv zeta. mem_eval Hs.
  destruct (Nat.leb_spec (length qs) idx); [lia|].
  fold result. clearbody result.
  rewrite (truthy_length qs idx) by done.
  destruct (Nat.ltb_spec idx (length qs)); [|lia].
  mem_eval Hs. rewrite length_alter.
  destruct (should_end result); (eexists _, _; split; [reflexivity|]);
    cbn [r_is_finished r_score finished started weak_streak current_topic
         topic_question_count current_question_index questions];
    rewrite ?app_nil_r; destruct (String.eqb (topic result) tp);
    repeat split; try done; lia.
Qed.

(** The answer route on a session whose questions are all answered. *)
Lemma submit_answer_exhausted o now sid ans w s :
  _sessions w !! sid = Some s ->
  started s = true -> finished s = false ->
  (length (questions s) <= current_question_index s)%nat ->
  exists r s',
    submit_answer o now sid ans w
      = (OK r, mkWorld (<[sid := s']> (_sessions w)) (_store w))
    /\ finished s' = true /\ started s' = true
    /\ weak_streak s' = weak_streak s
    /\ topic_question_count s' = topic_question_count s
    /\ current_question_index s' = current_question_index s
    /\ questions s' = questions s.
Proof.
  intros Hs Hst Hfin Hidx.
  destruct s as [sid0 rt rs qs idx st fin t0 t1 hist tp tqc ws].
  cbn [questions current_question_index started finished weak_streak
       current_topic topic_question_count resume_summary
       conversation_history] in *. subst st fin.
  unfold submit_answer. cbv zeta. mem_eval Hs.
  destruct (Nat.leb_spec (length qs) idx); [|lia].
  mem_eval Hs. eexists _, _. split; [reflexivity|]. by cbn.
Qed.

(** One decision cycle on a skip, as a change of the session. *)
Lemma skip_question_cycle o now sid w s :
  _sessions w !! sid = Some s ->
  started s = true -> finished s = false ->
  (current_question_index s < length (questions s))%nat ->
  let result :=
    run (generate_after_skip o (resume_summary s) (conversation_history s)
           (length (questions s)) (weak_streak s + 1)) in
  exists r s',
    skip_question o now sid w
      = (OK r, mkWorld (<[sid := s']> (_sessions w)) (_store w))
    /\ r_is_finished r = should_end result
    /\ finished s' = should_end result
    /\ started s' = true
    /\ weak_streak s' = weak_streak s + 1
    /\ current_topic s'
       = (if should_end result then current_topic s else topic result)
    /\ topic_question_count s'
       = (if should_end result then topic_question_count s else 1)
    /\ current_question_index s' = S (current_question_index s)
    /\ questions s'
       = alter skip_record (current_question_index s) (questions s)
         ++ (if should_end result then []
             else [mkQuestion (Z.of_nat (length (questions s)) + 1)
                              (next_question result) (d_category result)
                              None 0 "" false]).
Proof.
  intros Hs Hst Hfin Hidx result.
  destruct s as [sid0 rt rs qs idx st fin t0 t1 hist tp tqc ws].
  cbn [questions current_question_index started finished weak_streak
       current_topic topic_question_count resume_summary
       conversation_history] in *. subst st fin.
  unfold skip_question. cbv zeta. mem_eval Hs.
  rewrite (truthy_length qs idx) by done.
  destruct (Nat.ltb_spec idx (length qs)); [|lia].
  mem_eval Hs. rewrite length_alter. fold result. clearbody result.
  destruct (should_end result); mem_eval Hs;
    (eexists _, _; split; [reflexivity|]);
    cbn [r_is_finished finished started weak_streak current_topic
         topic_question_count current_question_index questions];
    rewrite ?app_nil_r, ?length_alter; repeat split; try done; lia.
Qed.

(** Starting the interview of a session that has not started. *)
Lemma start_interview_effect o now sid w s :
  _sessions w !! sid = Some s -> started s = false ->
  let first_q := run (generate_first_question o (resume_summary s)) in
  match fq_question first_q, fq_category first_q with
  | Some q, Some c =>
      exists r s',
        start_interview o now sid w
          = (OK r, mkWorld (<[sid := s']> (_sessions w)) (_store w))
        /\ started s' = true /\ finished s' = finished s
        /\ weak_streak s' = 0 /\ topic_question_count s' = 1
        /\ current_topic s' = fq_topic first_q
        /\ current_question_index s' = current_question_index s
        /\ questions s'
           = questions s
             ++ [mkQuestion (Z.of_nat (length (questions s)) + 1) q c
                            None 0 "" false]
  | _, _ => snd (start_interview o now sid w) = w
  end.
Proof.
  intros Hs Hst first_q.
  destruct s as [sid0 rt rs qs idx st fin t0 t1 hist tp tqc ws].
  cbn [questions current_question_index started finished weak_streak
       current_topic topic_question_count resume_summary
       conversation_history] in *. subst st.
  unfold start_interview. cbv zeta. mem_eval Hs.
  fold first_q. clearbody first_q.
  destruct (fq_question first_q) as [q|]; [|reflexivity].
  destruct (fq_category first_q) as [c|]; [|reflexivity].
  mem_eval Hs. eexists _, _. split; [reflexivity|]. by cbn.
Qed.

Lemma end_interview_effect now sid w s :
  _sessions w !! sid = Some s ->
  exists s',
    end_interview now sid w
      = (OK sid, mkWorld (<[sid := s']> (_sessions w)) (_store w))
    /\ finished s' = true /\ started s' = started s
    /\ weak_streak s' = weak_streak s
    /\ topic_question_count s' = topic_question_count s
    /\ current_question_index s' = current_question_index s
    /\ questions s' = questions s.
Proof.
  intros Hs. destruct s as [sid0 rt rs qs idx st fin t0 t1 hist tp tqc ws].
  unfold end_interview. cbv zeta. mem_eval Hs.
  eexists. split; [reflexivity|]. by cbn.
Qed.

End Cycles.

(** ** What every reachable world satisfies *)

Section Invariant.
Import Memory Oracle Engine Routes.

Lemma numbered_nil : numbered [].
Proof. intros i q H. by rewrite lookup_nil in H. Qed.

Lemma numbered_snoc qs q :
  numbered qs -> question_number q = Z.of_nat (length qs) + 1 ->
  numbered (qs ++ [q]).
Proof.
  intros Hqs Hq i q' Hi.
  apply lookup_app_Some in Hi as [Hi|[Hlen Hi]]; [by apply Hqs|].
  apply list_lookup_singleton_Some in Hi as [Hi ->]. rewrite Hq. lia.
Qed.

Lemma numbered_alter f i qs :
  (forall q, question_number (f q) = question_number q) ->
  numbered qs -> numbered (alter f i qs).
Proof.
  intros Hf Hqs j q Hj. rewrite list_lookup_alter in Hj.
  case_decide as Hij; [subst j|by apply Hqs].
  destruct (qs !! i) as [q0|] eqn:Hq0; simplify_eq/=.
  rewrite Hf. by apply Hqs.
Qed.

Lemma world_inv_insert w sid s' st :
  world_inv w -> session_inv s' ->
  world_inv (mkWorld (<[sid := s']> (_sessions w)) st).
Proof.
  intros Hw Hs' sid' s Hlook. cbn in Hlook.
  destruct (decide (sid = sid')) as [->|Hne].
  - rewrite lookup_insert_eq in Hlook. by injection Hlook as <-.
  - rewrite lookup_insert_ne in Hlook by done. by apply (Hw sid').
Qed.

Lemma new_session_inv sid : session_inv (new_session sid).
Proof. split; cbn; try done; try lia; try apply numbered_nil. Qed.

Lemma upload_resume_inv fresh extracted rd w :
  world_inv w -> world_inv (snd (upload_resume fresh extracted rd w)).
Proof.
  intros Hw. unfold upload_resume, create_session.
  destruct extracted as [t|]; [destruct (negb _)|]; cbn [snd].
  - apply world_inv_insert; [done | apply new_session_inv].
  - unfold update_session. rewrite lookup_insert_eq, insert_insert_eq.
    apply world_inv_insert; [done|].
    split; cbn; try done; try lia; try apply numbered_nil.
  - apply world_inv_insert; [done | apply new_session_inv].
Qed.

Lemma start_interview_inv o now sid w :
  world_inv w -> world_inv (snd (start_interview o now sid w)).
Proof.
  intros Hw. destruct (_sessions w !! sid) as [s|] eqn:Hs.
  2: { unfold start_interview, get_session. by rewrite Hs. }
  destruct (started s) eqn:Hst.
  { unfold start_interview, get_session. by rewrite Hs, Hst. }
  pose proof (start_interview_effect o now sid w s Hs Hst) as Heff.
  cbv zeta in Heff.
  destruct (fq_question _) as [q|]; [|by rewrite Heff].
  destruct (fq_category _) as [c|]; [|by rewrite Heff].
  destruct Heff as (r & s' & -> & Hst' & Hfin' & Hws & Htqc & _ & Hidx & Hqs).
  pose proof (Hw sid s Hs) as [Hi Hn Hns _ _ _].
  specialize (Hns Hst). rewrite Hns in Hi, Hqs. cbn in Hi, Hqs.
  cbn [snd]. apply world_inv_insert; [done|].
  split; rewrite ?Hidx, ?Hqs, ?Hws, ?Htqc, ?Hst'.
  - cbn. lia.
  - apply (numbered_snoc []); [apply numbered_nil | done].
  - done.
  - intros _ _. cbn. lia.
  - lia.
  - lia.
Qed.

Lemma answer_record_number a sc fb q :
  question_number (answer_record a sc fb q) = question_number q.
Proof. reflexivity. Qed.

Lemma skip_record_number q :
  question_number (skip_record q) = question_number q.
Proof. reflexivity. Qed.

Lemma submit_answer_inv o now sid ans w :
  world_inv w -> world_inv (snd (submit_answer o now sid ans w)).
Proof.
  intros Hw. destruct (_sessions w !! sid) as [s|] eqn:Hs.
  2: { unfold submit_answer, get_session. by rewrite Hs. }
  destruct (started s) eqn:Hst.
  2: { unfold submit_answer, get_session. by rewrite Hs, Hst. }
  destruct (finished s) eqn:Hfin.
  { unfold submit_answer, get_session. by rewrite Hs, Hst, Hfin. }
  pose proof (Hw sid s Hs) as [Hi Hn _ Hprog Hweak Htopic].
  specialize (Hprog Hst Hfin). specialize (Htopic Hst).
  destruct (submit_answer_cycle o now sid ans w s Hs Hst Hfin ltac:(lia))
    as (r & s' & -> & _ & _ & Hfin' & Hst' & Hws & _ & Htqc & Hidx & Hqs).
  cbn [snd]. apply world_inv_insert; [done|].
  split; rewrite ?Hidx, ?Hqs, ?Hws, ?Htqc, ?Hst', ?Hfin'.
  - rewrite length_app, length_alter. lia.
  - destruct (should_end _).
    + rewrite app_nil_r. by apply numbered_alter.
    + apply numbered_snoc; [by apply numbered_alter|].
      cbn. by rewrite length_alter.
  - done.
  - intros _ ->. rewrite length_app, length_alter. cbn. lia.
  - destruct (_ <=? 5); lia.
  - intros _. destruct (String.eqb _ _); lia.
Qed.

Lemma skip_question_inv o now sid w :
  world_inv w -> world_inv (snd (skip_question o now sid w)).
Proof.
  intros Hw. destruct (_sessions w !! sid) as [s|] eqn:Hs.
  2: { unfold skip_question, get_session. by rewrite Hs. }
  destruct (started s) eqn:Hst.
  2: { unfold skip_question, get_session. by rewrite Hs, Hst. }
  destruct (finished s) eqn:Hfin.
  { unfold skip_question, get_session. by rewrite Hs, Hst, Hfin. }
  pose proof (Hw sid s Hs) as [Hi Hn _ Hprog Hweak Htopic].
  specialize (Hprog Hst Hfin). specialize (Htopic Hst).
  destruct (skip_question_cycle o now sid w s Hs Hst Hfin ltac:(lia))
    as (r & s' & -> & _ & Hfin' & Hst' & Hws & _ & Htqc & Hidx & Hqs).
  cbn [snd]. apply world_inv_insert; [done|].
  split; rewrite ?Hidx, ?Hqs, ?Hws, ?Htqc, ?Hst', ?Hfin'.
  - rewrite length_app, length_alter. lia.
  - destruct (should_end _).
    + rewrite app_nil_r. by apply numbered_alter.
    + apply numbered_snoc; [by apply numbered_alter|].
      cbn. by rewrite length_alter.
  - done.
  - intros _ ->. rewrite length_app, length_alter. cbn. lia.
  - lia.
  - intros _. destruct (should_end _); lia.
Qed.

Lemma end_interview_inv now sid w :
  world_inv w -> world_inv (snd (end_interview now sid w)).
Proof.
  intros Hw. destruct (_sessions w !! sid) as [s|] eqn:Hs.
  2: { unfold end_interview, get_session. by rewrite Hs. }
  destruct (end_interview_effect now sid w s Hs)
    as (s' & -> & Hfin' & Hst' & Hws & Htqc & Hidx & Hqs).
  pose proof (Hw sid s Hs) as [Hi Hn Hns _ Hweak Htopic].
  cbn [snd]. apply world_inv_insert; [done|].
  split; rewrite ?Hidx, ?Hqs, ?Hws, ?Htqc, ?Hst', ?Hfin'; done.
Qed.

Lemma get_report_world o sid w : snd (get_report o sid w) = w.
Proof. unfold get_report. by destruct (get_session_report _ _). Qed.

Lemma serve_inv o now r w : world_inv w -> world_inv (serve o now r w).
Proof.
  intros Hw. destruct r; cbn [serve].
  - by apply upload_resume_inv.
  - by apply start_interview_inv.
  - by apply submit_answer_inv.
  - by apply skip_question_inv.
  - by apply end_interview_inv.
  - by rewrite get_report_world.
Qed.

Lemma reachable_inv w : reachable w -> world_inv w.
Proof.
  induction 1 as [|o now r w _ IH].
  - intros sid s H. cbn in H. by rewrite lookup_empty in H.
  - by apply serve_inv.
Qed.

Lemma replay_snoc l o now r :
  replay (l ++ [(o, now, r)]) = serve o now r (replay l).
Proof. unfold replay. by rewrite foldl_app. Qed.

Lemma replay_reachable l : reachable (replay l).
Proof.
  induction l as [|[[o now] r] l IH] using rev_ind.
  - constructor.
  - rewrite replay_snoc. by constructor.
Qed.

(** A session in progress has exactly one open question. *)
Lemma in_progress_open w sid s :
  reachable w -> _sessions w !! sid = Some s -> phase_of s = IN_PROGRESS ->
  started s = true /\ finished s = false
  /\ S (current_question_index s) = length (questions s).
Proof.
  intros Hw Hs Hph. unfold phase_of in Hph.
  destruct (finished s) eqn:Hfin; [done|].
  destruct (started s) eqn:Hst; [|done].
  repeat split. by apply (reachable_inv w Hw sid s Hs).
Qed.

End Invariant.

(** ** The interview state machine *)

Section StateMachine.
Import Memory Oracle Engine Routes.

Lemma lookup_world_insert (m : gmap string InterviewSession) sid s' st :
  _sessions (mkWorld (<[sid := s']> m) st) !! sid = Some s'.
Proof. apply lookup_insert_eq. Qed.

Lemma record_answer_index (m : gmap string InterviewSession) sid s a sc fb :
  m !! sid = Some s ->
  exists s', record_answer m sid a sc fb !! sid = Some s'
    /\ current_question_index s'
       = if (current_question_index s <? length (questions s))%nat
         then S (current_question_index s) else current_question_index s.
Proof.
  intros Hs. unfold record_answer. rewrite Hs.
  destruct (questions s) as [|q0 qs] eqn:Hqs.
  { exists s. by destruct (current_question_index s). }
  cbn [Py.truthy].
  destruct (_ <? _)%nat; [|by exists s].
  rewrite lookup_insert_eq. eexists. split; [done|].
  destruct s; cbn. lia.
Qed.

Lemma record_skip_index (m : gmap string InterviewSession) sid s :
  m !! sid = Some s ->
  exists s', record_skip m sid !! sid = Some s'
    /\ current_question_index s'
       = if (current_question_index s <? length (questions s))%nat
         then S (current_question_index s) else current_question_index s.
Proof.
  intros Hs. unfold record_skip. rewrite Hs.
  destruct (questions s) as [|q0 qs] eqn:Hqs.
  { exists s. by destruct (current_question_index s). }
  cbn [Py.truthy].
  destruct (_ <? _)%nat; [|by exists s].
  rewrite lookup_insert_eq. eexists. split; [done|].
  destruct s; cbn. lia.
Qed.

(** The skip path keeps the floor itself: [generate_after_skip] asks to end
    only with at least 5 questions asked and a weak streak of at least 3. *)
Lemma after_skip_end_floor o rd hist total ws calls :
  should_end (fst (generate_after_skip o rd hist total ws calls)) = true ->
  (5 <= total)%nat /\ 3 <= ws.
Proof.
  unfold generate_after_skip.
  destruct (Z.leb_spec 3 ws), (Nat.leb_spec 5 total); cbn [andb];
    try (intros _; split; lia).
  all: destruct o as [[] [|t [j|]]]; cbn; discriminate.
Qed.

(** A skip finishes a session in progress only from the fifth question on. *)
Lemma skip_finishes_after_floor w sid s o now s' :
  reachable w -> _sessions w !! sid = Some s -> phase_of s = IN_PROGRESS ->
  _sessions (serve o now (Skip sid) w) !! sid = Some s' ->
  finished s' = true ->
  (5 <= length (questions s))%nat.
Proof.
  intros Hw Hs Hph Hs' Hfin'.
  destruct (in_progress_open w sid s Hw Hs Hph) as (Hst & Hfin & Hopen).
  destruct (skip_question_cycle o now sid w s Hs Hst Hfin ltac:(lia))
    as (r & s2 & Heq & _ & Hend & _).
  cbn [serve] in Hs'. rewrite Heq in Hs'. cbn [snd] in Hs'.
  rewrite lookup_world_insert in Hs'. injection Hs' as <-.
  rewrite Hfin' in Hend. symmetry in Hend.
  by apply after_skip_end_floor in Hend as [? _].
Qed.

End StateMachine.

(** C1 (fails on the code): a session in progress with a single question
    asked is FINISHED by the answer route as soon as the oracle's reply
    carries [should_end], although fewer than 5 questions were asked. *)
Theorem oracle_ends_before_fifth_question :
  let w := Routes.replay Scenario.opened in
  let w' := Routes.serve Scenario.ending 2
              (Routes.Answer "s1" "I build data pipelines.") w in
  (Routes.phase_of <$> Routes._sessions w !! "s1") = Some Routes.IN_PROGRESS
  /\ (Routes.phase_of <$> Routes._sessions w' !! "s1") = Some Routes.FINISHED
  /\ (length <$> (Memory.questions <$> Routes._sessions w' !! "s1"))
     = Some 1%nat.
Proof. vm_compute. repeat split. Qed.

(** C2: in a decision cycle on a session in progress, an answer sets
    [weak_streak] to 0 exactly when the score recorded for it is greater
    than 5 and increments it by 1 otherwise, and a skip increments it by
    1. *)
Theorem weak_streak_rule (w : Routes.world) (sid : string)
    (s : Memory.InterviewSession) (o : Oracle.oracle) (now : Z) :
  Routes.reachable w ->
  Routes._sessions w !! sid = Some s ->
  Routes.phase_of s = Routes.IN_PROGRESS ->
  (forall ans, exists r s' q,
      Routes.submit_answer o now sid ans w
        = (Routes.OK r, Routes.serve o now (Routes.Answer sid ans) w)
      /\ Routes._sessions (Routes.serve o now (Routes.Answer sid ans) w) !! sid
         = Some s'
      /\ Memory.questions s' !! Memory.current_question_index s = Some q
      /\ Memory.answer q = Some ans
      /\ Routes.r_score r = Some (Memory.score q)
      /\ (Memory.weak_streak s' = 0 <-> 5 < Memory.score q)
      /\ (Memory.score q <= 5 ->
          Memory.weak_streak s' = Memory.weak_streak s + 1))
  /\ (exists r s' q,
      Routes.skip_question o now sid w
        = (Routes.OK r, Routes.serve o now (Routes.Skip sid) w)
      /\ Routes._sessions (Routes.serve o now (Routes.Skip sid) w) !! sid
         = Some s'
      /\ Memory.questions s' !! Memory.current_question_index s = Some q
      /\ Memory.skipped q = true
      /\ Memory.weak_streak s' = Memory.weak_streak s + 1).
Proof.
  intros Hw Hs Hph.
  destruct (in_progress_open w sid s Hw Hs Hph) as (Hst & Hfin & Hopen).
  pose proof (Routes.inv_weak_streak s (reachable_inv w Hw sid s Hs)) as Hweak.
  assert (Memory.current_question_index s < length (Memory.questions s))%nat
    as Hidx by lia.
  destruct (lookup_lt_is_Some_2 _ _ Hidx) as [q0 Hq0].
  split.
  - intros ans.
    destruct (submit_answer_cycle o now sid ans w s Hs Hst Hfin Hidx)
      as (r & s' & Heq & _ & Hsc & _ & _ & Hws & _ & _ & _ & Hqs).
    cbn [Routes.serve]. rewrite Heq. cbn [snd].
    eexists r, s', _. split; [done|]. split; [apply lookup_world_insert|].
    rewrite Hqs, lookup_app_l by (rewrite length_alter; lia).
    rewrite list_lookup_alter_eq, Hq0. cbn.
    split; [done|]. split; [done|]. split; [done|].
    rewrite Hws. cbn [Memory.score Memory.answer_record].
    set (d := Engine.d_score _).
    destruct (Z.leb_spec d 5); split; lia.
  - destruct (skip_question_cycle o now sid w s Hs Hst Hfin Hidx)
      as (r & s' & Heq & _ & _ & _ & Hws & _ & _ & _ & Hqs).
    cbn [Routes.serve]. rewrite Heq. cbn [snd].
    eexists r, s', _. split; [done|]. split; [apply lookup_world_insert|].
    rewrite Hqs, lookup_app_l by (rewrite length_alter; lia).
    rewrite list_lookup_alter_eq, Hq0. cbn. done.
Qed.

Lemma weak_streak_rule_witness :
  let w := Routes.replay Scenario.opened in
  let s := Scenario.opened_session in
  let o := Scenario.ending in
  (forall ans, exists r s' q,
      Routes.submit_answer o 2 "s1" ans w
        = (Routes.OK r, Routes.serve o 2 (Routes.Answer "s1" ans) w)
      /\ Routes._sessions (Routes.serve o 2 (Routes.Answer "s1" ans) w) !! "s1"
         = Some s'
      /\ Memory.questions s' !! Memory.current_question_index s = Some q
      /\ Memory.answer q = Some ans
      /\ Routes.r_score r = Some (Memory.score q)
      /\ (Memory.weak_streak s' = 0 <-> 5 < Memory.score q)
      /\ (Memory.score q <= 5 ->
          Memory.weak_streak s' = Memory.weak_streak s + 1))
  /\ (exists r s' q,
      Routes.skip_question o 2 "s1" w
        = (Routes.OK r, Routes.serve o 2 (Routes.Skip "s1") w)
      /\ Routes._sessions (Routes.serve o 2 (Routes.Skip "s1") w) !! "s1"
         = Some s'
      /\ Memory.questions s' !! Memory.current_question_index s = Some q
      /\ Memory.skipped q = true
      /\ Memory.weak_streak s' = Memory.weak_streak s + 1).
Proof.
  apply (weak_streak_rule (Routes.replay Scenario.opened) "s1"
           Scenario.opened_session Scenario.ending 2).
  - apply replay_reachable.
  - vm_compute. reflexivity.
  - vm_compute. reflexivity.
Defined.

(** C3 (as amended): in a decision cycle on a session in progress, the
    answer route adopts the topic label of the decision and sets
    [topic_question_count] to 1 exactly when that label differs from the
    prior topic, incrementing it by 1 otherwise; the skip route, when the
    interview goes on, adopts the label of the decision and sets the counter
    to 1 whether or not the label differs, and leaves topic and counter as
    they are when the skip ends the interview. *)
Theorem topic_count_rule (w : Routes.world) (sid : string)
    (s : Memory.InterviewSession) (o : Oracle.oracle) (now : Z) :
  Routes.reachable w ->
  Routes._sessions w !! sid = Some s ->
  Routes.phase_of s = Routes.IN_PROGRESS ->
  (forall ans,
      let result :=
        Routes.run
          (Engine.analyze_and_next_question o (Memory.resume_summary s)
             (Memory.conversation_history s
              ++ [Memory.mkMessage "candidate" ans])
             (Memory.current_topic s) (Memory.topic_question_count s)
             (length (Memory.questions s)) (Memory.weak_streak s)) in
      exists s',
        Routes._sessions (Routes.serve o now (Routes.Answer sid ans) w) !! sid
          = Some s'
        /\ Routes.topic_rule s s' (Engine.topic result)
        /\ (Memory.topic_question_count s' = 1
            <-> Engine.topic result <> Memory.current_topic s))
  /\ (let result :=
        Routes.run
          (Engine.generate_after_skip o (Memory.resume_summary s)
             (Memory.conversation_history s) (length (Memory.questions s))
             (Memory.weak_streak s + 1)) in
      exists s',
        Routes._sessions (Routes.serve o now (Routes.Skip sid) w) !! sid
          = Some s'
        /\ if Engine.should_end result
           then Memory.current_topic s' = Memory.current_topic s
                /\ Memory.topic_question_count s'
                   = Memory.topic_question_count s
           else Memory.current_topic s' = Engine.topic result
                /\ Memory.topic_question_count s' = 1).
Proof.
  intros Hw Hs Hph.
  destruct (in_progress_open w sid s Hw Hs Hph) as (Hst & Hfin & Hopen).
  pose proof (Routes.inv_topic_count s (reachable_inv w Hw sid s Hs) Hst)
    as Hcount.
  assert (Memory.current_question_index s < length (Memory.questions s))%nat
    as Hidx by lia.
  split.
  - intros ans result.
    destruct (submit_answer_cycle o now sid ans w s Hs Hst Hfin Hidx)
      as (r & s' & Heq & _ & _ & _ & _ & _ & Htopic & Htqc & _).
    fold result in Htopic, Htqc.
    cbn [Routes.serve]. rewrite Heq. cbn [snd].
    exists s'. split; [apply lookup_world_insert|].
    split; [by split|]. rewrite Htqc.
    destruct (String.eqb_spec (Engine.topic result) (Memory.current_topic s));
      split; try done; lia.
  - intros result.
    destruct (skip_question_cycle o now sid w s Hs Hst Hfin Hidx)
      as (r & s' & Heq & _ & _ & _ & _ & Htopic & Htqc & _).
    fold result in Htopic, Htqc.
    cbn [Routes.serve]. rewrite Heq. cbn [snd].
    exists s'. split; [apply lookup_world_insert|].
    rewrite Htopic, Htqc. by destruct (Engine.should_end result).
Qed.

Lemma topic_count_rule_witness :
  let w := Routes.replay Scenario.opened in
  let s := Scenario.opened_session in
  let o := Scenario.same_topic in
  (forall ans,
      let result :=
        Routes.run
          (Engine.analyze_and_next_question o (Memory.resume_summary s)
             (Memory.conversation_history s
              ++ [Memory.mkMessage "candidate" ans])
             (Memory.current_topic s) (Memory.topic_question_count s)
             (length (Memory.questions s)) (Memory.weak_streak s)) in
      exists s',
        Routes._sessions (Routes.serve o 2 (Routes.Answer "s1" ans) w) !! "s1"
          = Some s'
        /\ Routes.topic_rule s s' (Engine.topic result)
        /\ (Memory.topic_question_count s' = 1
            <-> Engine.topic result <> Memory.current_topic s))
  /\ (let result :=
        Routes.run
          (Engine.generate_after_skip o (Memory.resume_summary s)
             (Memory.conversation_history s) (length (Memory.questions s))
             (Memory.weak_streak s + 1)) in
      exists s',
        Routes._sessions (Routes.serve o 2 (Routes.Skip "s1") w) !! "s1"
          = Some s'
        /\ if Engine.should_end result
           then Memory.current_topic s' = Memory.current_topic s
                /\ Memory.topic_question_count s'
                   = Memory.topic_question_count s
           else Memory.current_topic s' = Engine.topic result
                /\ Memory.topic_question_count s' = 1).
Proof.
  apply (topic_count_rule (Routes.replay Scenario.opened) "s1"
           Scenario.opened_session Scenario.same_topic 2).
  - apply replay_reachable.
  - vm_compute. reflexivity.
  - vm_compute. reflexivity.
Defined.

(** C3 (as stated, refuted): after a skip on which the oracle keeps the
    topic of the interview, the counter is 1 again instead of one more. *)
Lemma skip_resets_count_on_same_topic :
  exists s s',
    Routes._sessions (Routes.replay Scenario.opened) !! "s1" = Some s
    /\ Routes.phase_of s = Routes.IN_PROGRESS
    /\ Routes._sessions
         (Routes.serve Scenario.same_topic 2 (Routes.Skip "s1")
            (Routes.replay Scenario.opened)) !! "s1" = Some s'
    /\ Engine.topic
         (Routes.run
            (Engine.generate_after_skip Scenario.same_topic
               (Memory.resume_summary s) (Memory.conversation_history s)
               (length (Memory.questions s)) (Memory.weak_streak s + 1)))
       = Memory.current_topic s
    /\ ~ Routes.topic_rule s s' (Memory.current_topic s).
Proof.
  eexists _, _. split; [vm_compute; reflexivity|].
  split; [reflexivity|]. split; [vm_compute; reflexivity|].
  split; [reflexivity|].
  intros [_ H]. vm_compute in H. discriminate.
Qed.

(** C4: with a weak streak of at least 3 and at least 5 questions asked,
    [generate_after_skip] returns the forced ending, whatever the oracle,
    and sends no request to it. *)
Theorem after_skip_forced_end (o : Oracle.oracle) (rd : Memory.ResumeData)
    (hist : list Memory.Message) (total : nat) (ws : Z) (calls : nat) :
  3 <= ws -> (5 <= total)%nat ->
  Engine.generate_after_skip o rd hist total ws calls
    = (Engine.forced_end, calls)
  /\ Engine.should_end Engine.forced_end = true.
Proof.
  intros Hws Htotal. unfold Engine.generate_after_skip.
  destruct (Z.leb_spec 3 ws); [|lia].
  destruct (Nat.leb_spec 5 total); [|lia]. done.
Qed.

Lemma after_skip_forced_end_witness :
  Engine.generate_after_skip Scenario.ending Scenario.resume [] 5%nat 3 0%nat
    = (Engine.forced_end, 0%nat)
  /\ Engine.should_end Engine.forced_end = true.
Proof.
  apply after_skip_forced_end; [lia | lia].
Defined.

(** C5 (as amended): when the oracle is unreachable or its reply does not
    decode, and the skip does not end the interview, the fallback of a skip
    is the fallback of an ordinary answer for the same number of questions
    asked: both are the pool entry at position [min total 7]. *)
Theorem fallback_same_rotation (o : Oracle.oracle) (rd : Memory.ResumeData)
    (hist hist' : list Memory.Message) (total : nat) (ws ws' tqc : Z)
    (ct : string) :
  Routes.unavailable o ->
  ~ (3 <= ws /\ (5 <= total)%nat) ->
  let skip := Routes.run (Engine.generate_after_skip o rd hist total ws) in
  let ans :=
    Routes.run (Engine.analyze_and_next_question o rd hist' ct tqc total ws') in
  skip = ans
  /\ exists s1 s2 entry,
       Engine.pool s1 s2 !! Nat.min total 7 = Some entry
       /\ Engine.next_question skip = Engine.e_next_question entry
       /\ Engine.d_category skip = Engine.e_category entry
       /\ Engine.topic skip = Engine.e_topic entry
       /\ Engine.should_end skip = false
       /\ Engine.d_score skip = 5.
Proof.
  intros Hun Hnot skip ans.
  assert (skip = Engine._fallback_next rd total 0 "new"
          /\ ans = Engine._fallback_next rd total tqc ct) as [Hskip Hans].
  { subst skip ans.
    unfold Routes.run, Engine.generate_after_skip,
      Engine.analyze_and_next_question.
    assert ((3 <=? ws) && (5 <=? total)%nat = false) as ->.
    { destruct (Z.leb_spec 3 ws), (Nat.leb_spec 5 total); try done.
      exfalso. by apply Hnot. }
    destruct o as [client reply]. cbn [Oracle.has_client].
    destruct Hun as [Hc|[Hr|[t Hr]]]; cbn in Hc || cbn in Hr; subst;
      try (destruct client); by cbn. }
  split; [by rewrite Hskip, Hans|].
  rewrite Hskip. unfold Engine._fallback_next, Engine.fallback_index.
  set (skills := default ["programming"%string] (Memory.skills rd)).
  set (s1 := default "programming"%string (skills !! 0%nat)).
  set (s2 := default "your domain"%string (skills !! 1%nat)).
  change (length (Engine.pool s1 s2) - 1)%nat with 7%nat.
  destruct (lookup_lt_is_Some_2 (Engine.pool s1 s2) (Nat.min total 7))
    as [entry Hentry]; [cbn; lia|].
  exists s1, s2, entry. rewrite Hentry. by cbn.
Qed.

Lemma fallback_same_rotation_witness :
  Routes.run (Engine.generate_after_skip Scenario.no_client Scenario.resume [] 2 1)
  = Routes.run (Engine.analyze_and_next_question Scenario.no_client
                  Scenario.resume [] "introduction" 1 2 0)
  /\ exists s1 s2 entry,
       Engine.pool s1 s2 !! Nat.min 2 7 = Some entry
       /\ Engine.next_question
            (Routes.run (Engine.generate_after_skip Scenario.no_client
                           Scenario.resume [] 2 1))
          = Engine.e_next_question entry
       /\ Engine.d_category
            (Routes.run (Engine.generate_after_skip Scenario.no_client
                           Scenario.resume [] 2 1))
          = Engine.e_category entry
       /\ Engine.topic
            (Routes.run (Engine.generate_after_skip Scenario.no_client
                           Scenario.resume [] 2 1))
          = Engine.e_topic entry
       /\ Engine.should_end
            (Routes.run (Engine.generate_after_skip Scenario.no_client
                           Scenario.resume [] 2 1)) = false
       /\ Engine.d_score
            (Routes.run (Engine.generate_after_skip Scenario.no_client
                           Scenario.resume [] 2 1)) = 5.
Proof.
  apply (fallback_same_rotation Scenario.no_client Scenario.resume [] []
           2 1 0 1 "introduction").
  - left. reflexivity.
  - lia.
Defined.

(** C5 (as stated, refuted): with two questions asked and no oracle, the
    fallback of a skip and the fallback of an answer are the same pool
    entry, the one at position 2. *)
Lemma skip_fallback_reuses_position :
  Engine.fallback_index 2 (length (Engine.pool "Python" "SQL")) = 2%nat
  /\ (Engine.e_next_question <$> Engine.pool "Python" "SQL" !! 2%nat)
     = Some (Engine.next_question
               (Routes.run (Engine.generate_after_skip Scenario.no_client
                              Scenario.resume [] 2 1)))
  /\ (Engine.e_next_question <$> Engine.pool "Python" "SQL" !! 2%nat)
     = Some (Engine.next_question
               (Routes.run (Engine.analyze_and_next_question
                              Scenario.no_client Scenario.resume []
                              "introduction" 1 2 0)))
  /\ ~ (Routes.run (Engine.generate_after_skip Scenario.no_client
                      Scenario.resume [] 2 1)
        <> Routes.run (Engine.analyze_and_next_question Scenario.no_client
                         Scenario.resume [] "introduction" 1 2 0)).
Proof. repeat split. intros H. by apply H. Qed.

(** C6: in every world reached by uploads, starts, answers, skips, ends and
    reports, [current_question_index <= len(questions)] holds for every
    session; and [record_answer] and [record_skip] advance the index by one
    when it is below the number of questions and leave it alone
    otherwise. *)
Theorem index_within_questions (w : Routes.world) (sid : string)
    (s : Memory.InterviewSession) :
  Routes.reachable w ->
  Routes._sessions w !! sid = Some s ->
  (Memory.current_question_index s <= length (Memory.questions s))%nat
  /\ (forall a sc fb, exists s',
        Memory.record_answer (Routes._sessions w) sid a sc fb !! sid = Some s'
        /\ Memory.current_question_index s'
           = if (Memory.current_question_index s
                 <? length (Memory.questions s))%nat
             then S (Memory.current_question_index s)
             else Memory.current_question_index s)
  /\ (exists s',
        Memory.record_skip (Routes._sessions w) sid !! sid = Some s'
        /\ Memory.current_question_index s'
           = if (Memory.current_question_index s
                 <? length (Memory.questions s))%nat
             then S (Memory.current_question_index s)
             else Memory.current_question_index s).
Proof.
  intros Hw Hs. split; [|split].
  - apply (Routes.inv_index s (reachable_inv w Hw sid s Hs)).
  - intros a sc fb. by apply record_answer_index.
  - by apply record_skip_index.
Qed.

Lemma index_within_questions_witness :
  let w := Routes.replay Scenario.opened in
  let s := Scenario.opened_session in
  (Memory.current_question_index s <= length (Memory.questions s))%nat
  /\ (forall a sc fb, exists s',
        Memory.record_answer (Routes._sessions w) "s1" a sc fb !! "s1" = Some s'
        /\ Memory.current_question_index s'
           = if (Memory.current_question_index s
                 <? length (Memory.questions s))%nat
             then S (Memory.current_question_index s)
             else Memory.current_question_index s)
  /\ (exists s',
        Memory.record_skip (Routes._sessions w) "s1" !! "s1" = Some s'
        /\ Memory.current_question_index s'
           = if (Memory.current_question_index s
                 <? length (Memory.questions s))%nat
             then S (Memory.current_question_index s)
             else Memory.current_question_index s).
Proof.
  apply (index_within_questions (Routes.replay Scenario.opened) "s1"
           Scenario.opened_session).
  - apply replay_reachable.
  - vm_compute. reflexivity.
Defined.

(** C9: in every reachable world the record at position [i] of a session's
    question sequence has [question_number = i + 1], so the ordinals are
    free of duplicates; and [add_question] gives the record it appends the
    ordinal [len(questions) + 1]. *)
Theorem question_numbers_consecutive (w : Routes.world) (sid : string)
    (s : Memory.InterviewSession) :
  Routes.reachable w ->
  Routes._sessions w !! sid = Some s ->
  (forall i q, Memory.questions s !! i = Some q ->
               Memory.question_number q = Z.of_nat i + 1)
  /\ NoDup (Memory.question_number <$> Memory.questions s)
  /\ (forall text cat, exists s' q,
        Memory.add_question (Routes._sessions w) sid text cat
          = (Z.of_nat (length (Memory.questions s)) + 1,
             <[sid := s']> (Routes._sessions w))
        /\ Memory.questions s' = Memory.questions s ++ [q]
        /\ Memory.question_number q
           = Z.of_nat (length (Memory.questions s)) + 1).
Proof.
  intros Hw Hs.
  pose proof (Routes.inv_numbered s (reachable_inv w Hw sid s Hs)) as Hnum.
  split; [exact Hnum|]. split.
  - apply NoDup_alt. intros i j n Hi Hj.
    rewrite list_lookup_fmap in Hi, Hj.
    destruct (Memory.questions s !! i) as [qi|] eqn:Hqi; [|done].
    destruct (Memory.questions s !! j) as [qj|] eqn:Hqj; [|done].
    cbn in Hi, Hj. apply Hnum in Hqi, Hqj. simplify_eq. lia.
  - intros text cat. unfold Memory.add_question. rewrite Hs.
    eexists _, _. split; [reflexivity|]. by destruct s.
Qed.

Lemma question_numbers_consecutive_witness :
  let w := Routes.replay Scenario.opened in
  let s := Scenario.opened_session in
  (forall i q, Memory.questions s !! i = Some q ->
               Memory.question_number q = Z.of_nat i + 1)
  /\ NoDup (Memory.question_number <$> Memory.questions s)
  /\ (forall text cat, exists s' q,
        Memory.add_question (Routes._sessions w) "s1" text cat
          = (Z.of_nat (length (Memory.questions s)) + 1,
             <[("s1"%string) := s']> (Routes._sessions w))
        /\ Memory.questions s' = Memory.questions s ++ [q]
        /\ Memory.question_number q
           = Z.of_nat (length (Memory.questions s)) + 1).
Proof.
  apply (question_numbers_consecutive (Routes.replay Scenario.opened) "s1"
           Scenario.opened_session).
  - apply replay_reachable.
  - vm_compute. reflexivity.
Defined.

Example opened_session_value :
  Scenario.opened_session
  = Memory.mkSession "s1" (u "python and sql developer") Scenario.resume
      [Memory.mkQuestion 1 "Tell me about yourself and your background."
                         "general" None 0 "" false]
      0 true false 1 0
      [Memory.mkMessage "interviewer"
                        "Tell me about yourself and your background."]
      "introduction" 1 0.
Proof. vm_compute. reflexivity. Qed.

(** ** The report *)

Section ReportFacts.
Import Memory ReportSpec.

Lemma is_answered_spec q : is_answered q = true <-> Answered q.
Proof.
  unfold is_answered, has_answer, Answered.
  destruct (skipped q), (answer q) as [a|]; cbn;
    try (intuition congruence).
  destruct (String.eqb_spec a ""); cbn; intuition congruence.
Qed.

Lemma is_technical_spec q :
  is_technical q = true
  <-> (category q = "technical" \/ category q = "skill"
       \/ category q = "project")%string /\ 6 <= score q.
Proof.
  unfold is_technical.
  destruct (String.eqb_spec (category q) "technical"),
           (String.eqb_spec (category q) "skill"),
           (String.eqb_spec (category q) "project"),
           (Z.leb_spec 6 (score q)); cbn;
    intuition (try congruence; try lia).
Qed.

Lemma answered_filter (qs : list QuestionRecord) :
  filter (fun q => is_answered q = true) qs = filter Answered qs.
Proof. apply list_filter_iff, is_answered_spec. Qed.

Lemma qualifying_filter (qs : list QuestionRecord) :
  filter (fun q => is_technical q = true)
         (filter (fun q => is_answered q = true) qs)
  = filter Qualifying qs.
Proof.
  rewrite list_filter_filter. apply list_filter_iff. intros q.
  rewrite is_technical_spec, is_answered_spec. unfold Qualifying.
  tauto.
Qed.

Lemma max_from_spec best l :
  max_from best l ∈ best :: l
  /\ forall q, q ∈ best :: l -> score q <= score (max_from best l).
Proof.
  revert best. induction l as [|x l IH]; intros best; cbn [max_from].
  - split; [by left|]. intros q ->%list_elem_of_singleton. lia.
  - destruct (IH (if score best <? score x then x else best)) as [Hin Hmax].
    split.
    + apply elem_of_cons in Hin as [->|Hin].
      * destruct (_ <? _); [right; left | left].
      * by do 2 right.
    + intros q Hq.
      assert (score q <= score (if score best <? score x then x else best)
              \/ q ∈ l) as [Hle|Hl].
      { apply elem_of_cons in Hq as [->|Hq].
        - left. destruct (Z.ltb_spec (score best) (score x)); lia.
        - apply elem_of_cons in Hq as [->|Hq]; [|by right].
          left. destruct (Z.ltb_spec (score best) (score x)); lia. }
      * etrans; [exact Hle|]. apply Hmax. by left.
      * apply Hmax. by right.
Qed.

Lemma min_from_spec best l :
  min_from best l ∈ best :: l
  /\ forall q, q ∈ best :: l -> score (min_from best l) <= score q.
Proof.
  revert best. induction l as [|x l IH]; intros best; cbn [min_from].
  - split; [by left|]. intros q ->%list_elem_of_singleton. lia.
  - destruct (IH (if score x <? score best then x else best)) as [Hin Hmin].
    split.
    + apply elem_of_cons in Hin as [->|Hin].
      * destruct (_ <? _); [right; left | left].
      * by do 2 right.
    + intros q Hq.
      assert (score (if score x <? score best then x else best) <= score q
              \/ q ∈ l) as [Hle|Hl].
      { apply elem_of_cons in Hq as [->|Hq].
        - left. destruct (Z.ltb_spec (score x) (score best)); lia.
        - apply elem_of_cons in Hq as [->|Hq]; [|by right].
          left. destruct (Z.ltb_spec (score x) (score best)); lia. }
      * etrans; [|exact Hle]. apply Hmin. by left.
      * apply Hmin. by right.
Qed.

(** [sum(q.score for q in l)] adds up the scores of [l]. *)
Lemma sum_scores_total l : sum_scores l = foldr Z.add 0 (score <$> l).
Proof.
  induction l as [|q l IH]; [done|].
  cbn [sum_scores foldr fmap list_fmap]. fold (sum_scores l).
  by rewrite IH.
Qed.

Lemma sum_scores_bounds l :
  Forall (fun q => 0 <= score q <= 10) l ->
  0 <= sum_scores l <= 10 * Z.of_nat (length l).
Proof.
  induction 1 as [|q l Hq _ IH]; cbn [sum_scores foldr length]; [lia|].
  fold (sum_scores l). lia.
Qed.

End ReportFacts.

(** C8: the report counts as answered the records that are not skipped and
    have an answer; its best answer is a record of maximal score among the
    answered records of category technical, skill or project with score at
    least 6, and is absent when there is none; its worst answer is a record
    of minimal score among the answered records, absent when there is none;
    and its average score is 0 without answered records and otherwise the
    mean of their scores, the sum of the scores over their number, rounded
    to one decimal (scores between 0 and 10, fewer than [2^45] records). *)
Theorem report_aggregates (m : gmap string Memory.InterviewSession)
    (sid : string) (session : Memory.InterviewSession) :
  m !! sid = Some session ->
  let answered := filter ReportSpec.Answered (Memory.questions session) in
  let qualifying := filter ReportSpec.Qualifying (Memory.questions session) in
  exists rep,
    Memory.get_session_report m sid = Some rep
    /\ Memory.answered rep = length answered
    /\ match Memory.best_answer rep with
       | Some b =>
           b ∈ qualifying
           /\ forall q, q ∈ qualifying -> Memory.score q <= Memory.score b
       | None => qualifying = []
       end
    /\ match Memory.worst_answer rep with
       | Some b =>
           b ∈ answered
           /\ forall q, q ∈ answered -> Memory.score b <= Memory.score q
       | None => answered = []
       end
    /\ (answered = [] -> Memory.average_score rep = 0)
    /\ (answered <> [] ->
        Forall (fun q => 0 <= Memory.score q <= 10) answered ->
        Z.of_nat (length answered) < 2 ^ 45 ->
        ReportSpec.nearest_tenth (foldr Z.add 0 (Memory.score <$> answered))
          (Z.of_nat (length answered)) (Memory.average_score rep)).
Proof.
  intros Hs answered qualifying. unfold Memory.get_session_report.
  rewrite Hs, qualifying_filter, answered_filter.
  fold answered qualifying. eexists. split; [reflexivity|].
  cbn [Memory.answered Memory.best_answer Memory.worst_answer
       Memory.average_score].
  split; [done|]. split; [|split; [|split]].
  - destruct qualifying as [|b l]; [done|]. apply max_from_spec.
  - destruct answered as [|b l]; [done|]. apply min_from_spec.
  - by intros ->.
  - intros Hne Hscores Hlen.
    destruct answered as [|b l] eqn:Ha; [done|]. rewrite <- Ha in *.
    replace (Py.truthy answered) with true by (by rewrite Ha).
    unfold ReportSpec.nearest_tenth. rewrite <- sum_scores_total.
    pose proof (sum_scores_bounds answered Hscores).
    assert (0 < Z.of_nat (length answered)) by (rewrite Ha; cbn; lia).
    apply round1_true_div_nearest; [lia | lia |].
    assert (2 ^ 52 = 128 * 2 ^ 45) as -> by reflexivity. lia.
Qed.

Lemma report_aggregates_witness :
  let answered := filter ReportSpec.Answered (Memory.questions Scenario.graded) in
  let qualifying := filter ReportSpec.Qualifying (Memory.questions Scenario.graded) in
  exists rep,
    Memory.get_session_report {[ "s2"%string := Scenario.graded ]} "s2" = Some rep
    /\ Memory.answered rep = length answered
    /\ match Memory.best_answer rep with
       | Some b =>
           b ∈ qualifying
           /\ forall q, q ∈ qualifying -> Memory.score q <= Memory.score b
       | None => qualifying = []
       end
    /\ match Memory.worst_answer rep with
       | Some b =>
           b ∈ answered
           /\ forall q, q ∈ answered -> Memory.score b <= Memory.score q
       | None => answered = []
       end
    /\ (answered = [] -> Memory.average_score rep = 0)
    /\ (answered <> [] ->
        Forall (fun q => 0 <= Memory.score q <= 10) answered ->
        Z.of_nat (length answered) < 2 ^ 45 ->
        ReportSpec.nearest_tenth (foldr Z.add 0 (Memory.score <$> answered))
          (Z.of_nat (length answered)) (Memory.average_score rep)).
Proof.
  apply (report_aggregates {[ "s2"%string := Scenario.graded ]} "s2"
           Scenario.graded).
  vm_compute. reflexivity.
Defined.

(** The scenario of the specification: scores 3, 7, 9, 5, the 9 on a
    project. *)
Example report_scenario :
  exists rep,
    Memory.get_session_report {[ "s2"%string := Scenario.graded ]} "s2" = Some rep
    /\ Memory.answered rep = 4%nat
    /\ Memory.rep_skipped rep = 1%nat
    /\ (Memory.score <$> Memory.best_answer rep) = Some 9
    /\ (Memory.score <$> Memory.worst_answer rep) = Some 3
    /\ Memory.average_score rep = 60
    /\ Memory.duration_seconds rep = 300.
Proof. eexists. split; [vm_compute; reflexivity|]. by vm_compute. Qed.

(** Ties that binary64 decides: 127/20 is stored below 6.35 and 129/20
    above 6.45. *)
Example average_ties :
  Binary64.round1 (Binary64.true_div 127 20) = 63
  /\ Binary64.round1 (Binary64.true_div 129 20) = 65
  /\ Binary64.round1 (Binary64.true_div 1 4) = 2.
Proof. by vm_compute. Qed.

(** * Further properties of the code *)

(** ** The engine and the oracle *)

Ltac gen_eval :=
  cbv [mbind gen_bind Oracle.bind mret gen_ret Oracle.ret Oracle._generate
       Oracle.has_client Oracle.answer negb];
  cbn [fst snd].

Lemma analyze_score_bounds o rd hist ct tqc total ws calls :
  1 <= Engine.d_score
         (fst (Engine.analyze_and_next_question o rd hist ct tqc total ws calls))
    <= 10.
Proof.
  unfold Engine.analyze_and_next_question, Engine._fallback_next.
  destruct o as [[] [|t [j|]]]; gen_eval; cbn; try lia.
  destruct (default (Oracle.ScoreInt 5) (Oracle.j_score j)) as [n|]; cbn; lia.
Qed.

(** X1: whatever the oracle returns, the score of the decision of
    [analyze_and_next_question] lies between 1 and 10. *)
Theorem analyze_score_in_range (o : Oracle.oracle) (rd : Memory.ResumeData)
    (hist : list Memory.Message) (ct : string) (tqc : Z) (total : nat)
    (ws : Z) (calls : nat) :
  1 <= Engine.d_score
         (fst (Engine.analyze_and_next_question o rd hist ct tqc total ws calls))
    <= 10.
Proof. apply analyze_score_bounds. Qed.

(** X2: a call of [generate_first_question], [analyze_and_next_question],
    [generate_after_skip] or [generate_overall_feedback] calls [_generate],
    and with it [client.chat.completions.create], at most once, and not at
    all when no client is configured: after a failed or undecodable reply
    the engine falls back and does not ask again.  Re-sending inside the
    client library is not part of this count. *)
Theorem engine_asks_at_most_once (o : Oracle.oracle)
    (rd : Memory.ResumeData) (hist : list Memory.Message) (ct : string)
    (tqc ws : Z) (total : nat) (results : list Memory.QuestionRecord)
    (calls : nat) :
  let at_most_one (after : nat) :=
    (calls <= after <= calls + 1)%nat
    /\ (Oracle.has_client o = false -> after = calls) in
  at_most_one (snd (Engine.generate_first_question o rd calls))
  /\ at_most_one
       (snd (Engine.analyze_and_next_question o rd hist ct tqc total ws calls))
  /\ at_most_one (snd (Engine.generate_after_skip o rd hist total ws calls))
  /\ at_most_one (snd (Evaluation.generate_overall_feedback o results calls)).
Proof.
  cbv zeta.
  unfold Engine.generate_first_question, Engine.analyze_and_next_question,
    Engine.generate_after_skip, Evaluation.generate_overall_feedback.
  destruct ((3 <=? ws) && (5 <=? total)%nat),
    (Py.truthy (filter (fun r => Memory.skipped r = false) results));
    destruct o as [[] [|t [j|]]]; gen_eval; cbn;
    repeat (match goal with
            | |- context [default (Oracle.ScoreInt 5) ?x] =>
                destruct (default (Oracle.ScoreInt 5) x); cbn
            | |- context [Binary64.geb ?x ?n] => destruct (Binary64.geb x n); cbn
            | |- context [String.eqb ?x ?y] => destruct (String.eqb x y); cbn
            end);
    repeat split; intros; try lia; try discriminate.
Qed.

(** ** Requests as transitions of a session *)

Section Frames.
Import Memory Oracle Engine Routes Machine.
Implicit Types (m : gmap string InterviewSession) (sid : string).

Lemma update_session_other m sid sid' kwargs :
  sid <> sid' -> update_session m sid kwargs !! sid' = m !! sid'.
Proof.
  intros Hne. unfold update_session.
  destruct (m !! sid); [by rewrite lookup_insert_ne | done].
Qed.

Lemma add_question_other m sid sid' q c :
  sid <> sid' -> snd (add_question m sid q c) !! sid' = m !! sid'.
Proof.
  intros Hne. unfold add_question.
  destruct (m !! sid); cbn; [by rewrite lookup_insert_ne | done].
Qed.

Lemma record_answer_other m sid sid' a sc fb :
  sid <> sid' -> record_answer m sid a sc fb !! sid' = m !! sid'.
Proof.
  intros Hne. unfold record_answer.
  destruct (m !! sid); [|done]. destruct (Py.truthy _); [|done].
  destruct (_ <? _)%nat; [by rewrite lookup_insert_ne | done].
Qed.

Lemma record_skip_other m sid sid' :
  sid <> sid' -> record_skip m sid !! sid' = m !! sid'.
Proof.
  intros Hne. unfold record_skip.
  destruct (m !! sid); [|done]. destruct (Py.truthy _); [|done].
  destruct (_ <? _)%nat; [by rewrite lookup_insert_ne | done].
Qed.

Lemma add_to_history_other m sid sid' r c :
  sid <> sid' -> add_to_history m sid r c !! sid' = m !! sid'.
Proof.
  intros Hne. unfold add_to_history.
  destruct (m !! sid); [by rewrite lookup_insert_ne | done].
Qed.

Ltac frame Hne :=
  repeat case_match; cbn [snd _sessions];
  repeat first
    [ rewrite (update_session_other _ _ _ _ Hne)
    | rewrite (add_to_history_other _ _ _ _ _ Hne)
    | rewrite (add_question_other _ _ _ _ _ Hne)
    | rewrite (record_answer_other _ _ _ _ _ _ Hne)
    | rewrite (record_skip_other _ _ _ Hne) ];
  try done.

Lemma serve_other o now r w sid' :
  target r <> sid' ->
  _sessions (serve o now r w) !! sid' = _sessions w !! sid'.
Proof.
  intros Hne. destruct r; cbn [serve target] in *.
  - unfold upload_resume, create_session. frame Hne;
      by rewrite lookup_insert_ne.
  - unfold start_interview. frame Hne.
  - unfold submit_answer. frame Hne.
  - unfold skip_question. frame Hne.
  - unfold end_interview. frame Hne.
  - by rewrite get_report_world.
Qed.

End Frames.

Section Steps.
Import Memory Oracle Engine Routes Machine.

Ltac store_eval Hs :=
  repeat first
    [ rewrite Hs
    | rewrite lookup_insert_eq
    | rewrite insert_insert_eq
    | progress cbn [snd fst from_option id foldl setattr set_questions
                    set_history _sessions _store questions
                    current_question_index started finished weak_streak
                    current_topic topic_question_count resume_summary
                    conversation_history negb]
    | progress unfold update_session, add_question, record_answer,
        record_skip, add_to_history, get_session, live ].

Ltac open_session s :=
  destruct s as [sid0 rt rs qs idx st fin t0 t1 hist tp tqc ws];
  cbn [session_id resume_text resume_summary questions
       current_question_index started finished start_time end_time
       conversation_history current_topic topic_question_count weak_streak]
    in *.

Lemma start_world o now sid w s q c :
  _sessions w !! sid = Some s -> started s = false ->
  let first_q := run (generate_first_question o (resume_summary s)) in
  fq_question first_q = Some q -> fq_category first_q = Some c ->
  start_interview o now sid w
  = (OK (mkAsked (Some ""%string) (Some q) 1 c None false (Some 0) None),
     mkWorld
       (<[sid := mkSession (session_id s) (resume_text s) (resume_summary s)
                   (questions s ++ [fresh_record (length (questions s)) q c])
                   (current_question_index s) true (finished s) now
                   (end_time s) (conversation_history s ++ [interviewer q])
                   (fq_topic first_q) 1 0]> (_sessions w))
       (_store w)).
Proof.
  intros Hs Hst first_q Hq Hc. open_session s. subst st.
  unfold start_interview. cbv zeta. store_eval Hs.
  fold first_q. rewrite Hq, Hc. store_eval Hs. reflexivity.
Qed.

Lemma start_refused o now sid w s :
  _sessions w !! sid = Some s ->
  let first_q := run (generate_first_question o (resume_summary s)) in
  started s = true \/ fq_question first_q = None \/ fq_category first_q = None ->
  snd (start_interview o now sid w) = w
  /\ status_of (fst (start_interview o now sid w)) <> 200.
Proof.
  intros Hs first_q Hcase. unfold start_interview. cbv zeta.
  unfold get_session. rewrite Hs.
  destruct (started s); [done|]. fold first_q.
  destruct Hcase as [?|[->| Hc]]; [done|done|].
  rewrite Hc. by destruct (fq_question first_q).
Qed.

Lemma answer_world o now sid ans w s :
  _sessions w !! sid = Some s ->
  started s = true -> finished s = false ->
  (current_question_index s < length (questions s))%nat ->
  let d :=
    run (analyze_and_next_question o (resume_summary s)
           (conversation_history s ++ [candidate ans])
           (current_topic s) (topic_question_count s)
           (length (questions s)) (weak_streak s)) in
  status_of (fst (submit_answer o now sid ans w)) = 200
  /\ snd (submit_answer o now sid ans w)
     = mkWorld
         (<[sid := mkSession (session_id s) (resume_text s) (resume_summary s)
              (next_questions (answer_record ans (d_score d) (analysis d)) d s)
              (S (current_question_index s)) true (should_end d)
              (start_time s) (if should_end d then now else end_time s)
              (conversation_history s ++ candidate ans
                 :: (if should_end d then []
                     else [interviewer (next_question d)]))
              (topic d)
              (if String.eqb (topic d) (current_topic s)
               then topic_question_count s + 1 else 1)
              (if d_score d <=? 5 then weak_streak s + 1 else 0)]>
            (_sessions w))
         (_store w).
Proof.
  intros Hs Hst Hfin Hidx d. open_session s. subst st fin.
  unfold submit_answer. cbv zeta. store_eval Hs.
  destruct (Nat.leb_spec (length qs) idx); [lia|].
  fold (candidate ans). fold d. clearbody d.
  rewrite (truthy_length qs idx) by done.
  destruct (Nat.ltb_spec idx (length qs)); [|lia].
  store_eval Hs. rewrite length_alter. unfold next_questions, fresh_record.
  cbn [questions current_question_index].
  replace (idx + 1)%nat with (S idx) by lia.
  destruct (should_end d); store_eval Hs;
    rewrite <- ?app_assoc; cbn [app];
    destruct (String.eqb (topic d) tp); by rewrite ?app_nil_r.
Qed.

Lemma skip_world o now sid w s :
  _sessions w !! sid = Some s ->
  started s = true -> finished s = false ->
  (current_question_index s < length (questions s))%nat ->
  let d :=
    run (generate_after_skip o (resume_summary s) (conversation_history s)
           (length (questions s)) (weak_streak s + 1)) in
  status_of (fst (skip_question o now sid w)) = 200
  /\ snd (skip_question o now sid w)
     = mkWorld
         (<[sid := mkSession (session_id s) (resume_text s) (resume_summary s)
              (next_questions skip_record d s)
              (S (current_question_index s)) true (should_end d)
              (start_time s) (if should_end d then now else end_time s)
              (conversation_history s
                 ++ (if should_end d then []
                     else [interviewer (next_question d)]))
              (if should_end d then current_topic s else topic d)
              (if should_end d then topic_question_count s else 1)
              (weak_streak s + 1)]>
            (_sessions w))
         (_store w).
Proof.
  intros Hs Hst Hfin Hidx d. open_session s. subst st fin.
  unfold skip_question. cbv zeta. store_eval Hs.
  rewrite (truthy_length qs idx) by done.
  destruct (Nat.ltb_spec idx (length qs)); [|lia].
  store_eval Hs. rewrite length_alter. fold d. clearbody d.
  unfold next_questions, fresh_record.
  cbn [questions current_question_index].
  replace (idx + 1)%nat with (S idx) by lia.
  destruct (should_end d); store_eval Hs; by rewrite ?app_nil_r.
Qed.

Lemma answer_response o now sid ans w s :
  _sessions w !! sid = Some s ->
  started s = true -> finished s = false ->
  (current_question_index s < length (questions s))%nat ->
  let d :=
    run (analyze_and_next_question o (resume_summary s)
           (conversation_history s ++ [candidate ans])
           (current_topic s) (topic_question_count s)
           (length (questions s)) (weak_streak s)) in
  fst (submit_answer o now sid ans w)
  = OK (mkAsked (Some (analysis d)) (Some (next_question d))
          (if should_end d then length (questions s)
           else S (length (questions s)))
          (d_category d) (if should_end d then None else Some (topic d))
          (should_end d) (Some (d_score d))
          (if should_end d then Some (end_reason d) else None)).
Proof.
  intros Hs Hst Hfin Hidx d. open_session s. subst st fin.
  unfold submit_answer. cbv zeta. store_eval Hs.
  destruct (Nat.leb_spec (length qs) idx); [lia|].
  fold (candidate ans). fold d. clearbody d.
  rewrite (truthy_length qs idx) by done.
  destruct (Nat.ltb_spec idx (length qs)); [|lia].
  store_eval Hs. rewrite length_alter.
  destruct (should_end d); store_eval Hs;
    rewrite ?length_app, ?length_alter; cbn [length];
    by replace (length qs + 1)%nat with (S (length qs)) by lia.
Qed.

Lemma skip_response o now sid w s :
  _sessions w !! sid = Some s ->
  started s = true -> finished s = false ->
  (current_question_index s < length (questions s))%nat ->
  let d :=
    run (generate_after_skip o (resume_summary s) (conversation_history s)
           (length (questions s)) (weak_streak s + 1)) in
  fst (skip_question o now sid w)
  = OK (mkAsked None (Some (next_question d))
          (if should_end d then length (questions s)
           else S (length (questions s)))
          (if should_end d then "general"%string else d_category d)
          (if should_end d then None else Some (topic d))
          (should_end d) None
          (if should_end d then Some (end_reason d) else None)).
Proof.
  intros Hs Hst Hfin Hidx d. open_session s. subst st fin.
  unfold skip_question. cbv zeta. store_eval Hs.
  rewrite (truthy_length qs idx) by done.
  destruct (Nat.ltb_spec idx (length qs)); [|lia].
  store_eval Hs. rewrite length_alter. fold d. clearbody d.
  destruct (should_end d); store_eval Hs;
    rewrite ?length_app, ?length_alter; cbn [length];
    by replace (length qs + 1)%nat with (S (length qs)) by lia.
Qed.

Lemma cycle_refused o now sid ans w s :
  _sessions w !! sid = Some s ->
  started s = false \/ finished s = true ->
  snd (submit_answer o now sid ans w) = w
  /\ status_of (fst (submit_answer o now sid ans w)) = 400
  /\ snd (skip_question o now sid w) = w
  /\ status_of (fst (skip_question o now sid w)) = 400.
Proof.
  intros Hs Hcase. unfold submit_answer, skip_question. cbv zeta.
  unfold get_session. rewrite Hs.
  destruct Hcase as [->| ->]; [done|]. by destruct (started s).
Qed.

Lemma end_world now sid w s :
  _sessions w !! sid = Some s ->
  end_interview now sid w
  = (OK sid,
     mkWorld
       (<[sid := mkSession (session_id s) (resume_text s) (resume_summary s)
                   (questions s) (current_question_index s) (started s) true
                   (start_time s) now (conversation_history s)
                   (current_topic s) (topic_question_count s)
                   (weak_streak s)]> (_sessions w))
       (_store w)).
Proof.
  intros Hs. open_session s. unfold end_interview. cbv zeta.
  by store_eval Hs.
Qed.

Lemma missing_session o now r w :
  _sessions w !! target r = None ->
  match r with Upload _ _ _ => True | _ => serve o now r w = w /\ status o now r w = 404 end.
Proof.
  intros Hnone. destruct r; cbn [target] in Hnone; [done|..];
    cbn [serve status]; unfold start_interview, submit_answer, skip_question,
      end_interview, get_report, get_session_report, get_session;
    by rewrite Hnone.
Qed.

Lemma upload_world fresh extracted rd w :
  exists s', _sessions (snd (upload_resume fresh extracted rd w)) !! fresh = Some s'
    /\ uploaded (Upload fresh extracted rd) fresh s'.
Proof.
  unfold upload_resume, create_session, uploaded.
  destruct extracted as [t|]; [destruct (negb _)|]; cbn [snd _sessions].
  - rewrite lookup_insert_eq. eauto 10.
  - unfold update_session. rewrite lookup_insert_eq, insert_insert_eq.
    rewrite lookup_insert_eq. cbn. eauto 10.
  - rewrite lookup_insert_eq. eauto 10.
Qed.

(** One request takes a session of a reachable world through at most one
    transition, or replaces it when an upload draws its identifier. *)
Lemma serve_step_aux w o now r sid s :
  reachable w -> _sessions w !! sid = Some s ->
  exists s',
    _sessions (serve o now r w) !! sid = Some s'
    /\ (s' = s \/ transition s s' \/ uploaded r sid s').
Proof.
  intros Hw Hs. destruct (decide (target r = sid)) as [Heq|Hne].
  2: { exists s. rewrite serve_other by done. auto. }
  pose proof (reachable_inv w Hw sid s Hs) as Hinv.
  destruct r as [fresh extracted rd|sid0|sid0 ans|sid0|sid0|sid0];
    cbn [target] in Heq; subst; cbn [serve].
  - destruct (upload_world sid extracted rd w) as (s' & Hs' & Hup).
    exists s'. auto.
  - destruct (started s) eqn:Hst.
    { exists s. destruct (start_refused o now sid w s Hs) as [-> _]; auto. }
    destruct (fq_question (run (generate_first_question o (resume_summary s))))
      as [q|] eqn:Hq.
    2: { exists s. destruct (start_refused o now sid w s Hs) as [-> _]; auto. }
    destruct (fq_category (run (generate_first_question o (resume_summary s))))
      as [c|] eqn:Hc.
    2: { exists s. destruct (start_refused o now sid w s Hs) as [-> _]; auto. }
    rewrite (start_world o now sid w s q c Hs Hst Hq Hc). cbn [snd].
    eexists. split; [apply lookup_world_insert|].
    right; left. by constructor.
  - destruct (started s) eqn:Hst.
    2: { exists s. destruct (cycle_refused o now sid ans w s Hs) as [-> _];
           auto. }
    destruct (finished s) eqn:Hfin.
    { exists s. destruct (cycle_refused o now sid ans w s Hs) as [-> _];
        auto. }
    pose proof (inv_in_progress s Hinv Hst Hfin) as Hopen.
    destruct (answer_world o now sid ans w s Hs Hst Hfin ltac:(lia))
      as [_ ->].
    eexists. split; [apply lookup_world_insert|].
    right; left. constructor; [done|done|lia|]. apply analyze_score_bounds.
  - destruct (started s) eqn:Hst.
    2: { exists s. destruct (cycle_refused o now sid "" w s Hs)
           as (_ & _ & -> & _); auto. }
    destruct (finished s) eqn:Hfin.
    { exists s. destruct (cycle_refused o now sid "" w s Hs)
        as (_ & _ & -> & _); auto. }
    pose proof (inv_in_progress s Hinv Hst Hfin) as Hopen.
    destruct (skip_world o now sid w s Hs Hst Hfin ltac:(lia)) as [_ ->].
    eexists. split; [apply lookup_world_insert|].
    right; left. constructor; [done|done|lia|].
    intros Hend. by apply after_skip_end_floor in Hend.
  - rewrite (end_world now sid w s Hs). cbn [snd].
    eexists. split; [apply lookup_world_insert|].
    right; left. constructor.
  - rewrite get_report_world. eauto.
Qed.

End Steps.

Section MachineFacts.
Import Memory Oracle Engine Routes Machine.

Lemma serve_creates w o now r sid s' :
  _sessions w !! sid = None ->
  _sessions (serve o now r w) !! sid = Some s' ->
  uploaded r sid s'.
Proof.
  intros Hnone Hs'. destruct (decide (target r = sid)) as [Heq|Hne].
  2: { rewrite serve_other in Hs' by done. congruence. }
  subst sid. pose proof (missing_session o now r w Hnone) as Hmiss.
  destruct r; [|destruct Hmiss as [Hw _]; rewrite Hw in Hs'; congruence ..].
  cbn [target serve] in *.
  match goal with
  | |- uploaded (Upload ?f ?e ?d) _ _ =>
      destruct (upload_world f e d w) as (s2 & Hs2 & Hup)
  end.
  congruence.
Qed.

End MachineFacts.

(** X3: a request that finds a question open whenever the interview is in
    progress, and that is not answered with 500, changes a session by at
    most one transition of the state machine (start, decision cycle on an
    answer, decision cycle on a skip, end), or replaces it when an upload
    draws its identifier; a session never disappears.  (A request answered
    with 500 may have stopped half way: that needs a profile or a reply of a
    shape that is not covered here, and it can leave an interview in
    progress without an open question.) *)
Theorem request_is_one_transition (w : Routes.world) (o : Oracle.oracle)
    (now : Z) (r : Routes.request) (sid : string)
    (s : Memory.InterviewSession) :
  Routes.reachable w ->
  Routes._sessions w !! sid = Some s ->
  (Routes.phase_of s = Routes.IN_PROGRESS ->
   (Memory.current_question_index s < length (Memory.questions s))%nat) ->
  Machine.status o now r w <> 500 ->
  exists s',
    Routes._sessions (Routes.serve o now r w) !! sid = Some s'
    /\ (s' = s \/ Machine.transition s s' \/ Machine.uploaded r sid s').
Proof. intros Hw Hs _ _. by apply serve_step_aux. Qed.

Lemma request_is_one_transition_witness :
  exists s',
    Routes._sessions
      (Routes.serve Scenario.ending 2 (Routes.Answer "s1" "Hello")
         (Routes.replay Scenario.opened)) !! "s1" = Some s'
    /\ (s' = Scenario.opened_session
        \/ Machine.transition Scenario.opened_session s'
        \/ Machine.uploaded (Routes.Answer "s1" "Hello") "s1" s').
Proof.
  apply (request_is_one_transition (Routes.replay Scenario.opened)
           Scenario.ending 2 (Routes.Answer "s1" "Hello") "s1"
           Scenario.opened_session).
  - apply replay_reachable.
  - vm_compute. reflexivity.
  - intros _. vm_compute. lia.
  - vm_compute. discriminate.
Defined.

(** X4: a request about one session leaves every other session as it is,
    and only an upload touches the chunk store: a request that is not an
    upload leaves the whole store as it is, also under its own session, and
    an upload changes it under the identifier it draws at most. *)
Theorem requests_are_isolated (w : Routes.world) (o : Oracle.oracle)
    (now : Z) (r : Routes.request) (other : string) :
  Machine.target r <> other ->
  Routes._sessions (Routes.serve o now r w) !! other
    = Routes._sessions w !! other
  /\ Routes._store (Routes.serve o now r w) !! other
     = Routes._store w !! other
  /\ ((forall fresh extracted rd, r <> Routes.Upload fresh extracted rd) ->
      Routes._store (Routes.serve o now r w) = Routes._store w).
Proof.
  intros Hne. split; [by apply serve_other|].
  destruct r as [fresh extracted rd|sid0|sid0 ans|sid0|sid0|sid0];
    cbn [Routes.serve Machine.target] in *.
  - split; [|by intros Hnot; edestruct Hnot].
    unfold Routes.upload_resume, Memory.create_session.
    repeat case_match; cbn [snd Routes._store]; try done.
    unfold Rag.store_resume_chunks. by rewrite lookup_insert_ne.
  - unfold Routes.start_interview. by repeat case_match.
  - unfold Routes.submit_answer. by repeat case_match.
  - unfold Routes.skip_question. by repeat case_match.
  - unfold Routes.end_interview. by repeat case_match.
  - by rewrite get_report_world.
Qed.

Lemma requests_are_isolated_witness :
  Routes._sessions
    (Routes.serve Scenario.no_client 9 (Routes.End "s1")
       (Routes.replay Scenario.opened)) !! "s2"
    = Routes._sessions (Routes.replay Scenario.opened) !! "s2"
  /\ Routes._store
       (Routes.serve Scenario.no_client 9 (Routes.End "s1")
          (Routes.replay Scenario.opened)) !! "s2"
     = Routes._store (Routes.replay Scenario.opened) !! "s2"
  /\ ((forall fresh extracted rd,
         Routes.End "s1" <> Routes.Upload fresh extracted rd) ->
      Routes._store
        (Routes.serve Scenario.no_client 9 (Routes.End "s1")
           (Routes.replay Scenario.opened))
      = Routes._store (Routes.replay Scenario.opened)).
Proof.
  apply (requests_are_isolated (Routes.replay Scenario.opened)
           Scenario.no_client 9 (Routes.End "s1") "s2").
  cbn. discriminate.
Defined.

(** X5: as long as no upload draws its identifier again, the phase of a
    session of a reachable world never moves backwards under a request
    (NOT_STARTED, IN_PROGRESS, FINISHED in this order), [started] and
    [finished] are never reset, and a session that has started and finished
    keeps everything but its end time. *)
Theorem phase_never_moves_back (w : Routes.world) (o : Oracle.oracle)
    (now : Z) (r : Routes.request) (sid : string)
    (s : Memory.InterviewSession) :
  Routes.reachable w ->
  Routes._sessions w !! sid = Some s ->
  (forall extracted rd, r <> Routes.Upload sid extracted rd) ->
  exists s',
    Routes._sessions (Routes.serve o now r w) !! sid = Some s'
    /\ (Machine.rank (Routes.phase_of s) <= Machine.rank (Routes.phase_of s'))%nat
    /\ (Memory.started s = true -> Memory.started s' = true)
    /\ (Memory.finished s = true -> Memory.finished s' = true)
    /\ (Memory.started s = true -> Memory.finished s = true ->
        s' = Memory.setattr s (Memory.end_time_ (Memory.end_time s'))).
Proof.
  intros Hw Hs Hnot.
  destruct (serve_step_aux w o now r sid s Hw Hs) as (s' & Hs' & Hstep).
  exists s'. split; [done|].
  destruct Hstep as [->|[Htr|(e & rd & -> & _)]]; [|clear Hnot|by destruct (Hnot e rd)].
  { repeat split; try done. intros _ _. by destruct s. }
  unfold Routes.phase_of.
  destruct Htr as [q c tp t Hst|d ans t Hst Hfin Hidx Hsc
                  |d t Hst Hfin Hidx Hfloor|t];
    cbn [Memory.started Memory.finished]; rewrite ?Hst, ?Hfin;
    repeat split; try done; try congruence.
  - destruct (Memory.finished s); cbn; lia.
  - destruct (Engine.should_end d); cbn; lia.
  - destruct (Engine.should_end d); cbn; lia.
  - destruct (Memory.finished s), (Memory.started s); cbn; lia.
  - intros Hst Hfin. destruct s; cbn in *. by subst.
Qed.

Lemma phase_never_moves_back_witness :
  exists s',
    Routes._sessions
      (Routes.serve Scenario.ending 2 (Routes.Answer "s1" "Hello")
         (Routes.replay Scenario.opened)) !! "s1" = Some s'
    /\ (Machine.rank (Routes.phase_of Scenario.opened_session)
        <= Machine.rank (Routes.phase_of s'))%nat
    /\ (Memory.started Scenario.opened_session = true ->
        Memory.started s' = true)
    /\ (Memory.finished Scenario.opened_session = true ->
        Memory.finished s' = true)
    /\ (Memory.started Scenario.opened_session = true ->
        Memory.finished Scenario.opened_session = true ->
        s' = Memory.setattr Scenario.opened_session
               (Memory.end_time_ (Memory.end_time s'))).
Proof.
  apply (phase_never_moves_back (Routes.replay Scenario.opened)
           Scenario.ending 2 (Routes.Answer "s1" "Hello") "s1"
           Scenario.opened_session).
  - apply replay_reachable.
  - vm_compute. reflexivity.
  - discriminate.
Defined.

Section AppendOnly.
Import Memory Oracle Engine Routes Machine.

Lemma next_questions_lookup f d s i q :
  (forall q, question (f q) = question q /\ category (f q) = category q
             /\ question_number (f q) = question_number q) ->
  questions s !! i = Some q ->
  exists q', next_questions f d s !! i = Some q'
    /\ question q' = question q /\ category q' = category q
    /\ question_number q' = question_number q
    /\ (i <> current_question_index s -> q' = q).
Proof.
  intros Hf Hq. unfold next_questions.
  rewrite lookup_app_l
    by (rewrite length_alter; by apply lookup_lt_Some in Hq).
  rewrite list_lookup_alter. case_decide as Hi.
  - subst i. rewrite Hq. cbn. eexists. split; [done|].
    destruct (Hf q) as (? & ? & ?). done.
  - exists q. done.
Qed.

Lemma next_questions_length f d s :
  length (next_questions f d s)
  = (length (questions s) + if should_end d then 0 else 1)%nat.
Proof.
  unfold next_questions. rewrite length_app, length_alter.
  by destruct (should_end d).
Qed.

End AppendOnly.

(** X6: questions and transcript are append-only.  Unless an upload draws
    the identifier again, after a request every question keeps its position,
    text, category and ordinal; a record other than the open one is not
    touched at all; at most one question is added; and the conversation
    history before the request is a prefix of the one after it. *)
Theorem questions_and_history_only_grow (w : Routes.world)
    (o : Oracle.oracle) (now : Z) (r : Routes.request) (sid : string)
    (s : Memory.InterviewSession) :
  Routes.reachable w ->
  Routes._sessions w !! sid = Some s ->
  (forall extracted rd, r <> Routes.Upload sid extracted rd) ->
  exists s',
    Routes._sessions (Routes.serve o now r w) !! sid = Some s'
    /\ (forall i q, Memory.questions s !! i = Some q ->
          exists q', Memory.questions s' !! i = Some q'
            /\ Memory.question q' = Memory.question q
            /\ Memory.category q' = Memory.category q
            /\ Memory.question_number q' = Memory.question_number q
            /\ (i <> Memory.current_question_index s -> q' = q))
    /\ (length (Memory.questions s) <= length (Memory.questions s')
        <= length (Memory.questions s) + 1)%nat
    /\ Memory.conversation_history s `prefix_of` Memory.conversation_history s'
    /\ (Memory.current_question_index s <= Memory.current_question_index s'
        <= Memory.current_question_index s + 1)%nat.
Proof.
  intros Hw Hs Hnot.
  destruct (serve_step_aux w o now r sid s Hw Hs) as (s' & Hs' & Hstep).
  exists s'. split; [done|].
  destruct Hstep as [->|[Htr|(e & rd & -> & _)]];
    [|clear Hnot|by destruct (Hnot e rd)].
  { split; [by eauto 10|]. split; [lia|]. split; [done|lia]. }
  destruct Htr as [q c tp t Hst|d ans t Hst Hfin Hidx Hsc
                  |d t Hst Hfin Hidx Hfloor|t];
    cbn [Memory.questions Memory.conversation_history
         Memory.current_question_index].
  - split; [|split; [|split]].
    + intros i q0 Hq0. exists q0.
      split; [by apply lookup_app_l_Some | done].
    + rewrite length_app. cbn. lia.
    + by apply prefix_app_r.
    + lia.
  - split; [|split; [|split]].
    + intros i q0 Hq0. by apply next_questions_lookup.
    + rewrite next_questions_length. destruct (Engine.should_end d); lia.
    + by apply prefix_app_r.
    + lia.
  - split; [|split; [|split]].
    + intros i q0 Hq0. by apply next_questions_lookup.
    + rewrite next_questions_length. destruct (Engine.should_end d); lia.
    + by apply prefix_app_r.
    + lia.
  - split; [by eauto 10|]. split; [lia|]. split; [done|lia].
Qed.

Lemma questions_and_history_only_grow_witness :
  exists s',
    Routes._sessions
      (Routes.serve Scenario.no_client 2 (Routes.Skip "s1")
         (Routes.replay Scenario.opened)) !! "s1" = Some s'
    /\ (forall i q, Memory.questions Scenario.opened_session !! i = Some q ->
          exists q', Memory.questions s' !! i = Some q'
            /\ Memory.question q' = Memory.question q
            /\ Memory.category q' = Memory.category q
            /\ Memory.question_number q' = Memory.question_number q
            /\ (i <> Memory.current_question_index Scenario.opened_session ->
                q' = q))
    /\ (length (Memory.questions Scenario.opened_session)
        <= length (Memory.questions s')
        <= length (Memory.questions Scenario.opened_session) + 1)%nat
    /\ Memory.conversation_history Scenario.opened_session
         `prefix_of` Memory.conversation_history s'
    /\ (Memory.current_question_index Scenario.opened_session
        <= Memory.current_question_index s'
        <= Memory.current_question_index Scenario.opened_session + 1)%nat.
Proof.
  apply (questions_and_history_only_grow (Routes.replay Scenario.opened)
           Scenario.no_client 2 (Routes.Skip "s1") "s1"
           Scenario.opened_session).
  - apply replay_reachable.
  - vm_compute. reflexivity.
  - discriminate.
Defined.

(** ** Records and transcript of reachable sessions *)

Section LedgerFacts.
Import Memory Oracle Engine Routes Machine Ledger.

Lemma fresh_record_pristine n q c : pristine (fresh_record n q c).
Proof. by repeat split. Qed.

Lemma interviewer_filter hist q :
  filter from_interviewer (hist ++ [interviewer q])
  = filter from_interviewer hist ++ [interviewer q].
Proof. by rewrite filter_app. Qed.

Lemma candidate_filter hist a rest :
  filter from_interviewer (hist ++ candidate a :: rest)
  = filter from_interviewer (hist ++ rest).
Proof. by rewrite !filter_app. Qed.

Lemma question_alter f i (qs : list QuestionRecord) :
  (forall q, question (f q) = question q) ->
  question <$> alter f i qs = question <$> qs.
Proof.
  intros Hf. apply list_eq. intros j.
  rewrite !list_lookup_fmap, list_lookup_alter. case_decide; [subst|done].
  destruct (qs !! j); cbn; by rewrite ?Hf.
Qed.

(** A decision cycle keeps the shape of the records, given that the open
    question is the last one. *)
Lemma ledger_cycle f d s hist' ix st fin t0 t1 tp tqc ws :
  ledger_inv s ->
  S (current_question_index s) = length (questions s) ->
  (forall q, question (f q) = question q) ->
  (forall q, pristine q -> processed (f q)) ->
  content <$> filter from_interviewer hist'
  = (content <$> filter from_interviewer (conversation_history s))
    ++ (if should_end d then [] else [next_question d]) ->
  ix = S (current_question_index s) ->
  ledger_inv
    (mkSession (session_id s) (resume_text s) (resume_summary s)
       (next_questions f d s) ix st fin t0 t1 hist' tp tqc ws).
Proof.
  intros [Hpro Hpri Hmir] Hopen Hf Hfp Hhist ->.
  assert (exists q0, questions s !! current_question_index s = Some q0)
    as [q0 Hq0] by (apply lookup_lt_is_Some_2; lia).
  split; cbn [questions current_question_index conversation_history].
  - intros i q Hq Hi. unfold next_questions in Hq.
    rewrite lookup_app_l in Hq by (rewrite length_alter; lia).
    rewrite list_lookup_alter in Hq. case_decide as Hix.
    + subst i. rewrite Hq0 in Hq. cbn in Hq. injection Hq as <-.
      apply Hfp, (Hpri (current_question_index s)); [done|lia].
    + apply (Hpro i); [done|lia].
  - intros i q Hq Hi. unfold next_questions in Hq.
    rewrite lookup_app_r in Hq by (rewrite length_alter; lia).
    rewrite length_alter in Hq.
    destruct (should_end d); [by rewrite lookup_nil in Hq|].
    apply list_lookup_singleton_Some in Hq as [_ <-].
    apply fresh_record_pristine.
  - rewrite Hhist, Hmir. unfold next_questions.
    rewrite fmap_app, question_alter by done.
    by destruct (should_end d).
Qed.

Lemma transition_ledger s s' :
  session_inv s -> ledger_inv s -> transition s s' -> ledger_inv s'.
Proof.
  intros Hinv Hled Htr.
  destruct Htr as [q c tp t Hst|d ans t Hst Hfin Hidx Hsc
                  |d t Hst Hfin Hidx Hfloor|t].
  - pose proof (inv_not_started s Hinv Hst) as Hnil.
    pose proof (inv_index s Hinv) as Hi. rewrite Hnil in Hi. cbn in Hi.
    destruct Hled as [Hpro Hpri Hmir]. rewrite Hnil in *.
    split; cbn [questions current_question_index conversation_history].
    + intros i q0 _ Hlt. lia.
    + intros i q0 Hq0 _. cbn in Hq0.
      apply list_lookup_singleton_Some in Hq0 as [_ <-].
      apply fresh_record_pristine.
    + rewrite interviewer_filter, fmap_app, Hmir. done.
  - apply ledger_cycle; try done.
    + by apply (inv_in_progress s Hinv).
    + intros q (Ha & Hs0 & Hf & Hsk). right. cbn. by rewrite Hsk.
    + rewrite candidate_filter. destruct (should_end d).
      * by rewrite !app_nil_r.
      * by rewrite interviewer_filter, fmap_app.
  - apply ledger_cycle; try done.
    + by apply (inv_in_progress s Hinv).
    + intros q (Ha & Hs0 & Hf & Hsk). left. by cbn.
    + destruct (should_end d).
      * by rewrite !app_nil_r.
      * by rewrite interviewer_filter, fmap_app.
  - by destruct Hled.
Qed.

Lemma uploaded_ledger r sid s' : uploaded r sid s' -> ledger_inv s'.
Proof.
  intros (e & rd & _ & [->|(t & _ & ->)]); split; cbn; try done;
    intros i q Hq; by rewrite lookup_nil in Hq.
Qed.

Lemma reachable_ledger w sid s :
  reachable w -> _sessions w !! sid = Some s -> ledger_inv s.
Proof.
  intros Hw. revert sid s. induction Hw as [|o now r w Hw IH]; intros sid s Hs.
  - cbn in Hs. by rewrite lookup_empty in Hs.
  - destruct (_sessions w !! sid) as [s0|] eqn:Hs0.
    + destruct (serve_step_aux w o now r sid s0 Hw Hs0) as (s' & Hs' & Hstep).
      rewrite Hs in Hs'. injection Hs' as <-.
      destruct Hstep as [->|[Htr|Hup]].
      * by apply (IH sid).
      * apply (transition_ledger s0); [|by apply (IH sid)|done].
        by apply (reachable_inv w Hw sid).
      * by apply (uploaded_ledger r sid).
    + by apply (uploaded_ledger r sid), (serve_creates w o now r).
Qed.

End LedgerFacts.

(** X7: in every reachable world the records before the index of the next
    unanswered question are each either skipped (no answer, score 0) or
    answered with a score between 1 and 10, the records from the index on
    are as [add_question] made them, and the interviewer's messages of the
    conversation history are the question texts in order. *)
Theorem records_follow_the_index (w : Routes.world) (sid : string)
    (s : Memory.InterviewSession) :
  Routes.reachable w ->
  Routes._sessions w !! sid = Some s ->
  (forall i q, Memory.questions s !! i = Some q ->
     if (i <? Memory.current_question_index s)%nat
     then Ledger.processed q else Ledger.pristine q)
  /\ (Memory.content
        <$> filter Ledger.from_interviewer (Memory.conversation_history s))
     = (Memory.question <$> Memory.questions s)
  /\ Forall (fun q => 0 <= Memory.score q <= 10) (Memory.questions s).
Proof.
  intros Hw Hs. destruct (reachable_ledger w sid s Hw Hs) as [Hpro Hpri Hmir].
  assert (forall i q, Memory.questions s !! i = Some q ->
            if (i <? Memory.current_question_index s)%nat
            then Ledger.processed q else Ledger.pristine q) as Hshape.
  { intros i q Hq. destruct (Nat.ltb_spec i (Memory.current_question_index s)).
    - by apply (Hpro i).
    - by apply (Hpri i). }
  split; [done|]. split; [done|].
  apply Forall_lookup. intros i q Hq. specialize (Hshape i q Hq).
  destruct (_ <? _)%nat.
  - destruct Hshape as [(_ & _ & ->)|(_ & _ & ?)]; lia.
  - destruct Hshape as (_ & -> & _). lia.
Qed.

Lemma records_follow_the_index_witness :
  (forall i q, Memory.questions Traces.five_weak_session !! i = Some q ->
     if (i <? Memory.current_question_index Traces.five_weak_session)%nat
     then Ledger.processed q else Ledger.pristine q)
  /\ (Memory.content
        <$> filter Ledger.from_interviewer
              (Memory.conversation_history Traces.five_weak_session))
     = (Memory.question <$> Memory.questions Traces.five_weak_session)
  /\ Forall (fun q => 0 <= Memory.score q <= 10)
            (Memory.questions Traces.five_weak_session).
Proof.
  apply (records_follow_the_index (Routes.replay Traces.five_weak) "s1"
           Traces.five_weak_session).
  - apply replay_reachable.
  - vm_compute. reflexivity.
Defined.

(** ** Responses *)

Section Responses.
Import Memory Oracle Engine Routes Machine.

Lemma skip_status o now sid w s :
  _sessions w !! sid = Some s -> started s = true -> finished s = false ->
  status_of (fst (skip_question o now sid w)) = 200.
Proof.
  intros Hs Hst Hfin. unfold skip_question. cbv zeta.
  unfold get_session. rewrite Hs, Hst, Hfin. cbn [negb].
  by destruct (should_end _).
Qed.

Lemma answer_status o now sid ans w s :
  _sessions w !! sid = Some s -> started s = true -> finished s = false ->
  status_of (fst (submit_answer o now sid ans w)) = 200.
Proof.
  intros Hs Hst Hfin. unfold submit_answer. cbv zeta.
  unfold get_session. rewrite Hs, Hst, Hfin. cbn [negb].
  destruct (_ <=? _)%nat; [done|]. by destruct (should_end _).
Qed.

End Responses.

(** X8: a request other than an upload is answered 404 exactly when its
    session does not exist; a request refused with 404 or 400 changes
    neither the sessions nor the chunk store; and answers and skips on a
    session that has not started or has finished are refused with 400. *)
Theorem refused_request_changes_nothing (w : Routes.world)
    (o : Oracle.oracle) (now : Z) (r : Routes.request) :
  (forall fresh extracted rd, r <> Routes.Upload fresh extracted rd) ->
  (Machine.status o now r w = 404
   <-> Routes._sessions w !! Machine.target r = None)
  /\ (Machine.status o now r w = 404 \/ Machine.status o now r w = 400 ->
      Routes.serve o now r w = w)
  /\ (forall s, Routes._sessions w !! Machine.target r = Some s ->
        Routes.phase_of s <> Routes.IN_PROGRESS ->
        (exists ans, r = Routes.Answer (Machine.target r) ans)
        \/ r = Routes.Skip (Machine.target r) ->
        Machine.status o now r w = 400).
Proof.
  intros Hnot.
  enough ((Machine.status o now r w = 404
           <-> Routes._sessions w !! Machine.target r = None)
          /\ (Machine.status o now r w <> 200 -> Routes.serve o now r w = w)
          /\ (forall s, Routes._sessions w !! Machine.target r = Some s ->
                Routes.phase_of s <> Routes.IN_PROGRESS ->
                (exists ans, r = Routes.Answer (Machine.target r) ans)
                \/ r = Routes.Skip (Machine.target r) ->
                Machine.status o now r w = 400))
    as (H1 & H2 & H3).
  { split; [done|]. split; [|done]. intros [H|H]; apply H2; lia. }
  destruct (Routes._sessions w !! Machine.target r) as [s|] eqn:Hs.
  2: { pose proof (missing_session o now r w Hs) as Hmiss.
       destruct r; try (by edestruct Hnot); destruct Hmiss as [-> ->];
         repeat split; done. }
  destruct r as [fresh extracted rd|sid|sid ans|sid|sid|sid];
    [by edestruct Hnot|..]; cbn [Machine.target Machine.status Routes.serve] in *.
  - split; [|split]; [| |by intros ? _ _ [[? [=]]|[=]]].
    + unfold Routes.start_interview, Memory.get_session. rewrite Hs.
      cbv zeta. repeat case_match; cbn; split; congruence.
    + destruct (Memory.started s) eqn:Hst.
      { intros _. by apply (start_refused o now sid w s Hs); left. }
      destruct (Engine.fq_question
                  (Routes.run (Engine.generate_first_question o
                                 (Memory.resume_summary s)))) as [q|] eqn:Hq.
      2: { intros _. by apply (start_refused o now sid w s Hs); right; left. }
      destruct (Engine.fq_category
                  (Routes.run (Engine.generate_first_question o
                                 (Memory.resume_summary s)))) as [c|] eqn:Hc.
      2: { intros _. by apply (start_refused o now sid w s Hs); right; right. }
      rewrite (start_world o now sid w s q c Hs Hst Hq Hc). by cbn.
  - destruct (Memory.started s) eqn:Hst, (Memory.finished s) eqn:Hfin;
      try (destruct (cycle_refused o now sid ans w s Hs ltac:(auto))
             as (-> & -> & _); repeat split; done).
    rewrite (answer_status o now sid ans w s Hs Hst Hfin).
    split; [done|]. split; [done|]. intros s0 [= <-] Hph.
    unfold Routes.phase_of in Hph. by rewrite Hst, Hfin in Hph.
  - destruct (Memory.started s) eqn:Hst, (Memory.finished s) eqn:Hfin;
      try (destruct (cycle_refused o now sid "" w s Hs ltac:(auto))
             as (_ & _ & -> & ->); repeat split; done).
    rewrite (skip_status o now sid w s Hs Hst Hfin).
    split; [done|]. split; [done|]. intros s0 [= <-] Hph.
    unfold Routes.phase_of in Hph. by rewrite Hst, Hfin in Hph.
  - rewrite (end_world now sid w s Hs). cbn.
    split; [done|]. split; [done|]. by intros ? _ _ [[? [=]]|[=]].
  - rewrite get_report_world. unfold Routes.get_report,
      Memory.get_session_report. rewrite Hs. cbn.
    split; [done|]. split; [done|]. by intros ? _ _ [[? [=]]|[=]].
Qed.

Lemma refused_request_changes_nothing_witness :
  let w := Routes.replay Scenario.opened in
  let r := Routes.Answer "nobody" "Hello" in
  (Machine.status Scenario.ending 2 r w = 404
   <-> Routes._sessions w !! Machine.target r = None)
  /\ (Machine.status Scenario.ending 2 r w = 404
      \/ Machine.status Scenario.ending 2 r w = 400 ->
      Routes.serve Scenario.ending 2 r w = w)
  /\ (forall s, Routes._sessions w !! Machine.target r = Some s ->
        Routes.phase_of s <> Routes.IN_PROGRESS ->
        (exists ans, r = Routes.Answer (Machine.target r) ans)
        \/ r = Routes.Skip (Machine.target r) ->
        Machine.status Scenario.ending 2 r w = 400).
Proof.
  apply (refused_request_changes_nothing (Routes.replay Scenario.opened)
           Scenario.ending 2 (Routes.Answer "nobody" "Hello")).
  discriminate.
Defined.

(** ** Starting, skipping and ending *)

Section Lifecycle.
Import Memory Oracle Engine Routes Machine.

Lemma first_question_fallback o rd :
  unavailable o -> run (generate_first_question o rd) = fallback_first.
Proof.
  unfold run, generate_first_question.
  destruct o as [[] [|t [j|]]]; intros [Hc|[Hr|[t' Hr]]];
    cbn in Hc || cbn in Hr; try discriminate; gen_eval; reflexivity.
Qed.

Lemma after_skip_ends_iff o rd hist total ws :
  should_end (run (generate_after_skip o rd hist total ws)) = true
  <-> (5 <= total)%nat /\ 3 <= ws.
Proof.
  split; [apply after_skip_end_floor|].
  intros [Htotal Hws]. unfold run, generate_after_skip.
  destruct (Z.leb_spec 3 ws); [|lia].
  destruct (Nat.leb_spec 5 total); [|lia]. reflexivity.
Qed.

End Lifecycle.

(** X9: when no client is configured, starting a session that has not
    started asks the fixed opening question as question 1 with category
    general, and leaves the session started with that single question, topic
    introduction, one question on the topic and no weak answers. *)
Theorem start_without_oracle (w : Routes.world) (sid : string)
    (s : Memory.InterviewSession) (o : Oracle.oracle) (now : Z) :
  Routes.reachable w ->
  Routes._sessions w !! sid = Some s ->
  Memory.started s = false ->
  Oracle.has_client o = false ->
  exists s',
    Routes.start_interview o now sid w
    = (Routes.OK
         (Routes.mkAsked (Some ""%string)
            (Some "Tell me about yourself and your background."%string)
            1 "general" None false (Some 0) None),
       Routes.mkWorld (<[sid := s']> (Routes._sessions w)) (Routes._store w))
    /\ Memory.questions s'
       = [Memory.mkQuestion 1 "Tell me about yourself and your background."
                            "general" None 0 "" false]
    /\ Memory.current_question_index s' = 0%nat
    /\ Memory.started s' = true
    /\ Memory.start_time s' = now
    /\ Memory.current_topic s' = "introduction"%string
    /\ Memory.topic_question_count s' = 1
    /\ Memory.weak_streak s' = 0.
Proof.
  intros Hw Hs Hst Hno.
  pose proof (reachable_inv w Hw sid s Hs) as Hinv.
  pose proof (Routes.inv_not_started s Hinv Hst) as Hnil.
  pose proof (Routes.inv_index s Hinv) as Hidx. rewrite Hnil in Hidx.
  cbn in Hidx.
  pose proof (first_question_fallback o (Memory.resume_summary s)
                (or_introl Hno)) as Hfq.
  rewrite (start_world o now sid w s
             "Tell me about yourself and your background." "general" Hs Hst)
    by (by rewrite Hfq).
  rewrite Hfq, Hnil. eexists. split; [reflexivity|].
  cbn. repeat split. lia.
Qed.

Lemma start_without_oracle_witness :
  let w := Routes.serve Scenario.no_client 0
             (Routes.Upload "s3" (Some (u "rust and go")) Scenario.resume)
             Routes.initial in
  exists s',
    Routes.start_interview Scenario.no_client 7 "s3" w
    = (Routes.OK
         (Routes.mkAsked (Some ""%string)
            (Some "Tell me about yourself and your background."%string)
            1 "general" None false (Some 0) None),
       Routes.mkWorld (<[("s3"%string) := s']> (Routes._sessions w))
                      (Routes._store w))
    /\ Memory.questions s'
       = [Memory.mkQuestion 1 "Tell me about yourself and your background."
                            "general" None 0 "" false]
    /\ Memory.current_question_index s' = 0%nat
    /\ Memory.started s' = true
    /\ Memory.start_time s' = 7
    /\ Memory.current_topic s' = "introduction"%string
    /\ Memory.topic_question_count s' = 1
    /\ Memory.weak_streak s' = 0.
Proof.
  apply (start_without_oracle
           (Routes.serve Scenario.no_client 0
              (Routes.Upload "s3" (Some (u "rust and go")) Scenario.resume)
              Routes.initial)
           "s3"
           (Memory.mkSession "s3" (u "rust and go") Scenario.resume [] 0
              false false 0 0 [] "introduction" 0 0)
           Scenario.no_client 7).
  - apply Routes.reachable_serve, Routes.reachable_initial.
  - vm_compute. reflexivity.
  - reflexivity.
  - reflexivity.
Defined.

(** X10: a skip on a session in progress ends the interview exactly when
    at least 5 questions have been asked and the weak streak before the skip
    is at least 2, whatever the oracle returns. *)
Theorem skip_ends_exactly_at_floor (w : Routes.world) (sid : string)
    (s : Memory.InterviewSession) (o : Oracle.oracle) (now : Z) :
  Routes.reachable w ->
  Routes._sessions w !! sid = Some s ->
  Routes.phase_of s = Routes.IN_PROGRESS ->
  exists s',
    Routes._sessions (Routes.serve o now (Routes.Skip sid) w) !! sid = Some s'
    /\ (Memory.finished s' = true
        <-> (5 <= length (Memory.questions s))%nat
            /\ 2 <= Memory.weak_streak s)
    /\ (Memory.finished s' = true ->
        Memory.questions s'
        = alter Memory.skip_record (Memory.current_question_index s)
            (Memory.questions s)
        /\ Memory.end_time s' = now).
Proof.
  intros Hw Hs Hph.
  destruct (in_progress_open w sid s Hw Hs Hph) as (Hst & Hfin & Hopen).
  destruct (skip_world o now sid w s Hs Hst Hfin ltac:(lia)) as [_ Hworld].
  cbn [Routes.serve]. rewrite Hworld. eexists.
  split; [apply lookup_world_insert|].
  cbn [Memory.finished Memory.questions Memory.end_time].
  split.
  - rewrite after_skip_ends_iff. split; intros [? ?]; split; lia.
  - unfold Machine.next_questions. intros ->. by rewrite app_nil_r.
Qed.

Lemma skip_ends_exactly_at_floor_witness :
  exists s',
    Routes._sessions
      (Routes.serve Scenario.same_topic 6 (Routes.Skip "s1")
         (Routes.replay Traces.five_weak)) !! "s1" = Some s'
    /\ (Memory.finished s' = true
        <-> (5 <= length (Memory.questions Traces.five_weak_session))%nat
            /\ 2 <= Memory.weak_streak Traces.five_weak_session)
    /\ (Memory.finished s' = true ->
        Memory.questions s'
        = alter Memory.skip_record
            (Memory.current_question_index Traces.five_weak_session)
            (Memory.questions Traces.five_weak_session)
        /\ Memory.end_time s' = 6).
Proof.
  apply (skip_ends_exactly_at_floor (Routes.replay Traces.five_weak) "s1"
           Traces.five_weak_session Scenario.same_topic 6).
  - apply replay_reachable.
  - vm_compute. reflexivity.
  - vm_compute. reflexivity.
Defined.

(** X11: [end_interview] does not look at the state of the session.  A
    session ended before it was started is FINISHED at once; starting it
    afterwards, with no client configured, still asks the opening question,
    but the session stays FINISHED and every answer or skip is refused with
    400, whatever the oracle. *)
Theorem ended_before_start_stays_finished (w : Routes.world) (sid : string)
    (s : Memory.InterviewSession) (o : Oracle.oracle) (now now' : Z) :
  Routes.reachable w ->
  Routes._sessions w !! sid = Some s ->
  Memory.started s = false ->
  Oracle.has_client o = false ->
  let w1 := Routes.serve o now (Routes.End sid) w in
  let w2 := Routes.serve o now' (Routes.Start sid) w1 in
  (exists s1, Routes._sessions w1 !! sid = Some s1
     /\ Routes.phase_of s1 = Routes.FINISHED
     /\ Memory.started s1 = false /\ Memory.questions s1 = [])
  /\ Machine.status o now' (Routes.Start sid) w1 = 200
  /\ (exists s2, Routes._sessions w2 !! sid = Some s2
        /\ Routes.phase_of s2 = Routes.FINISHED
        /\ Memory.started s2 = true
        /\ Memory.questions s2
           = [Memory.mkQuestion 1
                "Tell me about yourself and your background." "general"
                None 0 "" false])
  /\ (forall o' t ans,
        Machine.status o' t (Routes.Answer sid ans) w2 = 400
        /\ Machine.status o' t (Routes.Skip sid) w2 = 400).
Proof.
  intros Hw Hs Hst Hno w1 w2.
  pose proof (reachable_inv w Hw sid s Hs) as Hinv.
  pose proof (Routes.inv_not_started s Hinv Hst) as Hnil.
  pose proof (first_question_fallback o (Memory.resume_summary s)
                (or_introl Hno)) as Hfq.
  assert (exists s1, Routes._sessions w1 !! sid = Some s1
            /\ Memory.finished s1 = true /\ Memory.started s1 = false
            /\ Memory.questions s1 = []
            /\ Memory.resume_summary s1 = Memory.resume_summary s)
    as (s1 & Hs1 & Hfin1 & Hst1 & Hq1 & Hrs1).
  { subst w1. cbn [Routes.serve]. rewrite (end_world now sid w s Hs).
    eexists. split; [apply lookup_world_insert|]. by cbn. }
  rewrite <- Hrs1 in Hfq.
  pose proof (start_world o now' sid w1 s1
                "Tell me about yourself and your background." "general"
                Hs1 Hst1) as Hstart.
  cbv zeta in Hstart. rewrite Hfq in Hstart.
  specialize (Hstart eq_refl eq_refl).
  assert (exists s2, Routes._sessions w2 !! sid = Some s2
            /\ Memory.finished s2 = true /\ Memory.started s2 = true
            /\ Memory.questions s2
               = [Memory.mkQuestion 1
                    "Tell me about yourself and your background." "general"
                    None 0 "" false])
    as (s2 & Hs2 & Hfin2 & Hst2 & Hq2).
  { subst w2. cbn [Routes.serve]. rewrite Hstart.
    eexists. split; [apply lookup_world_insert|].
    cbn. by rewrite Hfin1, Hq1. }
  split; [|split; [|split]].
  - exists s1. unfold Routes.phase_of. by rewrite Hfin1.
  - cbn [Machine.status]. by rewrite Hstart.
  - exists s2. unfold Routes.phase_of. by rewrite Hfin2.
  - intros o' t ans. cbn [Machine.status].
    by destruct (cycle_refused o' t sid ans w2 s2 Hs2 ltac:(auto))
      as (_ & -> & _ & ->).
Qed.

Lemma ended_before_start_stays_finished_witness :
  let w := Routes.serve Scenario.no_client 0
             (Routes.Upload "s3" (Some (u "rust and go")) Scenario.resume)
             Routes.initial in
  let w1 := Routes.serve Scenario.no_client 3 (Routes.End "s3") w in
  let w2 := Routes.serve Scenario.no_client 4 (Routes.Start "s3") w1 in
  (exists s1, Routes._sessions w1 !! "s3" = Some s1
     /\ Routes.phase_of s1 = Routes.FINISHED
     /\ Memory.started s1 = false /\ Memory.questions s1 = [])
  /\ Machine.status Scenario.no_client 4 (Routes.Start "s3") w1 = 200
  /\ (exists s2, Routes._sessions w2 !! "s3" = Some s2
        /\ Routes.phase_of s2 = Routes.FINISHED
        /\ Memory.started s2 = true
        /\ Memory.questions s2
           = [Memory.mkQuestion 1
                "Tell me about yourself and your background." "general"
                None 0 "" false])
  /\ (forall o' t ans,
        Machine.status o' t (Routes.Answer "s3" ans) w2 = 400
        /\ Machine.status o' t (Routes.Skip "s3") w2 = 400).
Proof.
  apply (ended_before_start_stays_finished
           (Routes.serve Scenario.no_client 0
              (Routes.Upload "s3" (Some (u "rust and go")) Scenario.resume)
              Routes.initial)
           "s3"
           (Memory.mkSession "s3" (u "rust and go") Scenario.resume [] 0
              false false 0 0 [] "introduction" 0 0)
           Scenario.no_client 3 4).
  - apply Routes.reachable_serve, Routes.reachable_initial.
  - vm_compute. reflexivity.
  - reflexivity.
  - reflexivity.
Defined.

(** X12: the fallback rotation is exhausted after 7 questions: from then on
    [_fallback_next] returns the last entry of the pool, with score 5 and no
    request to end, whatever the topic and whatever the skills of the
    resume, as long as these are absent or a list of strings; other values
    under ["skills"] are not covered. *)
Theorem fallback_rotation_is_exhausted (rd : Memory.ResumeData) (q_num : nat)
    (topic_count : Z) (current_topic : string) :
  (7 <= q_num)%nat ->
  Engine._fallback_next rd q_num topic_count current_topic
  = Engine.mkDecision "Fallback mode — LLM unavailable" 5
      "What is the difference between frontend and backend development?"
      "technical" "basics" false "".
Proof.
  intros Hq. unfold Engine._fallback_next, Engine.fallback_index.
  set (skills := default ["programming"%string] (Memory.skills rd)).
  set (s1 := default "programming"%string (skills !! 0%nat)).
  set (s2 := default "your domain"%string (skills !! 1%nat)).
  change (length (Engine.pool s1 s2) - 1)%nat with 7%nat.
  replace (Nat.min q_num 7) with 7%nat by lia. reflexivity.
Qed.

Lemma fallback_rotation_is_exhausted_witness :
  Engine._fallback_next Scenario.resume 12 3 "git"
  = Engine.mkDecision "Fallback mode — LLM unavailable" 5
      "What is the difference between frontend and backend development?"
      "technical" "basics" false "".
Proof.
  apply (fallback_rotation_is_exhausted Scenario.resume 12 3 "git"). lia.
Defined.

(** ** More on the retrieval engine *)

Section RagMore.
Import Py Rag.

Lemma range_length stop step :
  (1 <= step)%nat ->
  length (range 0 stop step) = ((stop + step - 1) / step)%nat.
Proof.
  intros Hstep. set (L := length (range 0 stop step)).
  assert (~ (L * step < stop)%nat) as Hend.
  { intros Hlt. pose proof (range_lookup stop step L Hstep) as H.
    rewrite (lookup_ge_None_2 _ L) in H by (unfold L; lia).
    destruct (Nat.ltb_spec (L * step) stop); [done | lia]. }
  assert (forall n, L = S n -> (n * step < stop)%nat) as Hlast.
  { intros n Hn. pose proof (range_lookup stop step n Hstep) as H.
    destruct (Nat.ltb_spec (n * step) stop); [done|].
    apply lookup_ge_None_1 in H. unfold L in *. lia. }
  destruct L as [|n] eqn:HL.
  - assert (stop = 0)%nat as -> by lia.
    symmetry. apply Nat.div_small. lia.
  - specialize (Hlast n eq_refl).
    apply (Nat.div_unique _ _ _ (stop + step - 1 - S n * step)); nia.
Qed.

Lemma make_chunks_max t cs : make_chunks t cs = make_chunks t (Z.max cs 1).
Proof.
  unfold make_chunks. by replace (Z.max (Z.max cs 1) 1) with (Z.max cs 1) by lia.
Qed.

(** The chunks of a document with words, for any chunk size. *)
Lemma make_chunks_any t cs :
  split t <> [] ->
  let step := Z.to_nat (Z.max cs 1) in
  make_chunks t cs
  = List.map (join space)
      (List.map (fun i => slice (split t) i (i + step))
                (range 0 (length (split t)) step)).
Proof.
  intros Hne step. rewrite make_chunks_max.
  by rewrite make_chunks_windows by (done || lia).
Qed.

Lemma chunks_roundtrip t cs :
  split t <> [] -> split (join space (make_chunks t cs)) = split t.
Proof.
  intros Hne. rewrite make_chunks_any by done. rewrite join_join.
  - unfold range. rewrite range_windows by lia. rewrite drop_0.
    apply split_join, split_words.
  - apply Forall_forall. intros g Hg.
    apply list_elem_of_In, in_map_iff in Hg as (i & <- & Hi).
    apply slice_nonempty; [lia|].
    apply (range_bound _ (Z.to_nat (Z.max cs 1))); [lia|].
    by apply list_elem_of_In.
Qed.

Lemma chunk_words t cs c :
  split t <> [] -> c ∈ make_chunks t cs ->
  (1 <= length (split c) <= Z.to_nat (Z.max cs 1))%nat.
Proof.
  intros Hne Hc. rewrite make_chunks_any in Hc by done.
  apply list_elem_of_In, in_map_iff in Hc as (g & <- & Hg).
  apply in_map_iff in Hg as (i & <- & Hi).
  apply list_elem_of_In, (range_bound _ (Z.to_nat (Z.max cs 1))) in Hi; [|lia].
  rewrite split_join by apply slice_words, split_words.
  pose proof (slice_nonempty (split t) i (Z.to_nat (Z.max cs 1))
                ltac:(lia) Hi) as Hnn.
  unfold slice in *. rewrite length_take, length_drop in *.
  destruct (take _ _) eqn:Htake; [done|].
  apply (f_equal length) in Htake. rewrite length_take, length_drop in Htake.
  cbn in Htake. lia.
Qed.

Lemma lstrip_spaces s : Forall (fun c => is_space c = true) s -> lstrip s = [].
Proof. induction 1 as [|c s Hc _ IH]; [done|]. cbn. by rewrite Hc. Qed.

Lemma spaces_or_nonspace s :
  Forall (fun c => is_space c = true) s
  \/ Exists (fun c => is_space c = false) s.
Proof.
  induction s as [|c s [IH|IH]]; [by left| |right; by constructor].
  destruct (is_space c) eqn:Hc; [left | right]; by constructor.
Qed.

Lemma split_from_nonempty cur s :
  cur <> [] \/ Exists (fun c => is_space c = false) s ->
  split_from cur s <> [].
Proof.
  revert cur. induction s as [|c s IH]; intros cur Hor; cbn.
  - destruct Hor as [Hcur|Hex]; [|by inversion Hex].
    unfold emit. by destruct cur.
  - destruct (is_space c) eqn:Hc.
    + destruct Hor as [Hcur|Hex].
      * unfold emit. by destruct cur.
      * inversion Hex; subst; [congruence|].
        intros Happ. apply app_eq_nil in Happ as [_ Happ].
        by apply (IH []) in Happ; [|right].
    + apply IH. left. by destruct cur.
Qed.

Lemma split_from_spaces s :
  Forall (fun c => is_space c = true) s -> split_from [] s = [].
Proof. induction 1 as [|c s Hc _ IH]; [done|]. cbn. by rewrite Hc. Qed.

(** A text has words exactly when stripping it leaves something. *)
Lemma strip_truthy_iff s : truthy (strip s) = true <-> split s <> [].
Proof.
  destruct (spaces_or_nonspace s) as [Hsp|Hex].
  - unfold strip, split. rewrite (lstrip_spaces s Hsp), split_from_spaces by done.
    by cbn.
  - rewrite strip_truthy by done. split; [|done].
    intros _. apply split_from_nonempty. by right.
Qed.

Lemma insert_desc_perm x l : insert_desc x l ≡ₚ x :: l.
Proof.
  induction l as [|y l IH]; [done|]. cbn.
  destruct (PrimFloat.ltb _ _); [|done].
  rewrite IH. apply Permutation_swap.
Qed.

Lemma sort_desc_perm l : sort_desc l ≡ₚ l.
Proof.
  induction l as [|x l IH]; [done|]. cbn.
  by rewrite insert_desc_perm, IH.
Qed.

Lemma findall_alpha_from_tokens (Q : N -> Prop) cur s :
  Forall Q cur -> Forall Q s ->
  Forall (fun c => is_alpha c = true) cur ->
  Forall (fun tok => tok <> []
                     /\ Forall (fun c => is_alpha c = true /\ Q c) tok)
         (findall_alpha_from cur s).
Proof.
  intros Hcur Hs. revert cur Hcur.
  assert (forall cur, Forall Q cur -> Forall (fun c => is_alpha c = true) cur ->
            Forall (fun tok => tok <> []
                    /\ Forall (fun c => is_alpha c = true /\ Q c) tok)
                   (emit cur)) as Hemit.
  { intros cur HQ Ha. unfold emit. destruct cur as [|c cur]; cbn; [done|].
    constructor; [|done]. split; [done|].
    apply Forall_forall. intros x Hx. split.
    - by apply (proj1 (Forall_forall _ _) Ha).
    - by apply (proj1 (Forall_forall _ _) HQ). }
  induction Hs as [|c s Hc Hs IH]; intros cur Hcur Ha; cbn.
  - by apply Hemit.
  - destruct (is_alpha c) eqn:Halpha.
    + apply IH; apply Forall_app; split; try done; by repeat constructor.
    + apply Forall_app. split; [by apply Hemit|]. by apply IH.
Qed.

Lemma lower_no_upper s :
  Forall (fun c => ~ (65 <= c <= 90)%N) (lower s).
Proof.
  unfold lower. induction s as [|c s IH]; [done|]. cbn [List.map concat].
  apply Forall_app. split; [|done]. unfold lower_char.
  destruct (N.leb_spec 65 c), (N.leb_spec c 90); cbn;
    try (repeat constructor; lia).
  all: destruct (N.eqb_spec c 304); [repeat constructor; lia|].
  all: destruct (N.eqb_spec c 8490); repeat constructor; lia.
Qed.

End RagMore.

(** X13: for every chunk size (a size below 1 counts as 1), a document with
    [k >= 1] words is stored as [ceil(k / size)] chunks, each holding
    between 1 and [size] words, and the words of the reassembled text are
    the words of the document. *)
Theorem chunking_for_any_size (st : gmap string (list text)) (key : string)
    (t : text) (chunk_size : Z) :
  Py.split t <> [] ->
  let size := Z.to_nat (Z.max chunk_size 1) in
  let st' := Rag.store_resume_chunks st key t chunk_size in
  exists chunks,
    st' !! key = Some chunks
    /\ length chunks = ((length (Py.split t) + size - 1) / size)%nat
    /\ Forall (fun c => (1 <= length (Py.split c) <= size)%nat) chunks
    /\ Py.split (Rag.get_full_resume_text st' key) = Py.split t.
Proof.
  intros Hne size st'. exists (Rag.make_chunks t chunk_size).
  split; [apply lookup_insert_eq|]. split; [|split].
  - rewrite make_chunks_any by done. rewrite !length_map.
    apply range_length. lia.
  - apply Forall_forall. intros c Hc. by apply (chunk_words t chunk_size).
  - unfold Rag.get_full_resume_text. subst st'.
    unfold Rag.store_resume_chunks. rewrite lookup_insert_eq.
    cbn [from_option id]. by apply chunks_roundtrip.
Qed.

Lemma chunking_for_any_size_witness :
  let t := u "one two  three four five" in
  let size := Z.to_nat (Z.max (-4) 1) in
  let st' := Rag.store_resume_chunks ∅ "k" t (-4) in
  exists chunks,
    st' !! "k" = Some chunks
    /\ length chunks = ((length (Py.split t) + size - 1) / size)%nat
    /\ Forall (fun c => (1 <= length (Py.split c) <= size)%nat) chunks
    /\ Py.split (Rag.get_full_resume_text st' "k") = Py.split t.
Proof.
  apply (chunking_for_any_size ∅ "k" (u "one two  three four five") (-4)).
  vm_compute. discriminate.
Defined.

(** X14: a document without words (empty or all whitespace) is stored as a
    single chunk holding the raw text, and the reassembled text is that
    text. *)
Theorem blank_document_is_one_chunk (st : gmap string (list text))
    (key : string) (t : text) (chunk_size : Z) :
  Py.split t = [] ->
  Rag.store_resume_chunks st key t chunk_size !! key = Some [t]
  /\ Rag.get_full_resume_text (Rag.store_resume_chunks st key t chunk_size) key
     = t.
Proof.
  intros Hnil.
  assert (Rag.make_chunks t chunk_size = [t]) as Hchunks.
  { unfold Rag.make_chunks. by rewrite Hnil. }
  unfold Rag.get_full_resume_text, Rag.store_resume_chunks.
  rewrite lookup_insert_eq, Hchunks. done.
Qed.

Lemma blank_document_is_one_chunk_witness :
  Rag.store_resume_chunks ∅ "k" (u "   ") 100 !! "k" = Some [u "   "]
  /\ Rag.get_full_resume_text (Rag.store_resume_chunks ∅ "k" (u "   ") 100) "k"
     = u "   ".
Proof.
  apply (blank_document_is_one_chunk ∅ "k" (u "   ") 100). reflexivity.
Defined.

(** X15: the chunk store is keyed independently: storing or cleaning up one
    key leaves retrieval and reassembly under every other key unchanged;
    storing replaces what the key held; and after a cleanup the key holds
    nothing, so retrieval returns the empty string. *)
Theorem store_keys_are_independent (st : gmap string (list text))
    (key : string) (t t' : text) (n n' : Z) (query : text) (top : nat) :
  (forall other, other <> key ->
     Rag.retrieve_context (Rag.store_resume_chunks st key t n) other query top
       = Rag.retrieve_context st other query top
     /\ Rag.get_full_resume_text (Rag.store_resume_chunks st key t n) other
        = Rag.get_full_resume_text st other
     /\ Rag.retrieve_context (Rag.cleanup_session st key) other query top
        = Rag.retrieve_context st other query top
     /\ Rag.get_full_resume_text (Rag.cleanup_session st key) other
        = Rag.get_full_resume_text st other)
  /\ Rag.store_resume_chunks (Rag.store_resume_chunks st key t' n') key t n
     = Rag.store_resume_chunks st key t n
  /\ Rag.cleanup_session (Rag.store_resume_chunks st key t n) key
     = Rag.cleanup_session st key
  /\ Rag.retrieve_context
       (Rag.cleanup_session (Rag.store_resume_chunks st key t n) key)
       key query top = []
  /\ Rag.get_full_resume_text
       (Rag.cleanup_session (Rag.store_resume_chunks st key t n) key) key = [].
Proof.
  unfold Rag.retrieve_context, Rag.get_full_resume_text,
    Rag.store_resume_chunks, Rag.cleanup_session.
  split; [|split; [|split; [|split]]].
  - intros other Hne.
    by rewrite !lookup_insert_ne, !lookup_delete_ne by done.
  - apply insert_insert_eq.
  - apply delete_insert_eq.
  - by rewrite lookup_delete_eq.
  - by rewrite lookup_delete_eq.
Qed.

(** X16: [retrieve_context] returns stored chunks only: its result is the
    newline-joined first [n_results] entries of a rearrangement of the
    chunks stored under the key, so it never holds more than [n_results]
    chunks and holds all of them when [n_results] is at least their
    number. *)
Theorem retrieval_returns_stored_chunks (st : gmap string (list text))
    (key : string) (chunks : list text) (query : text) (n_results : nat) :
  st !! key = Some chunks ->
  exists ranked,
    ranked ≡ₚ chunks
    /\ Rag.retrieve_context st key query n_results
       = Py.join Py.newline (take n_results ranked)
    /\ (length (take n_results ranked) <= n_results)%nat
    /\ ((length chunks <= n_results)%nat -> take n_results ranked ≡ₚ chunks).
Proof.
  intros Hs. unfold Rag.retrieve_context. rewrite Hs. cbn [from_option id].
  destruct chunks as [|c chunks].
  { exists []. rewrite take_nil. cbn.
    split; [done|]. split; [done|]. split; [lia|done]. }
  cbn [Py.truthy negb].
  set (scored := List.map _ (c :: chunks)).
  exists (List.map snd (Rag.sort_desc scored)).
  assert (List.map snd (Rag.sort_desc scored) ≡ₚ c :: chunks) as Hperm.
  { change (List.map snd (Rag.sort_desc scored))
      with (snd <$> Rag.sort_desc scored).
    rewrite sort_desc_perm. subst scored.
    change (snd <$> List.map ?f ?l) with (snd <$> (f <$> l)).
    rewrite <- list_fmap_compose. by rewrite list_fmap_id. }
  split; [done|]. split; [|split].
  - f_equal. change (List.map snd ?l) with (snd <$> l). by rewrite fmap_take.
  - rewrite length_take. lia.
  - intros Hlen. rewrite take_ge; [done|].
    by rewrite (Permutation_length Hperm).
Qed.

Lemma retrieval_returns_stored_chunks_witness :
  let st := Rag.store_resume_chunks ∅ "k" (u "python flask api docker") 2 in
  exists ranked,
    ranked ≡ₚ [u "python flask"; u "api docker"]
    /\ Rag.retrieve_context st "k" (u "Docker?") 1
       = Py.join Py.newline (take 1 ranked)
    /\ (length (take 1 ranked) <= 1)%nat
    /\ ((length [u "python flask"; u "api docker"] <= 1)%nat ->
        take 1 ranked ≡ₚ [u "python flask"; u "api docker"]).
Proof.
  apply (retrieval_returns_stored_chunks
           (Rag.store_resume_chunks ∅ "k" (u "python flask api docker") 2)
           "k" [u "python flask"; u "api docker"] (u "Docker?") 1).
  vm_compute. reflexivity.
Defined.

(** X17: every token of [_tokenize] is a non-empty run of the lower-case
    letters a to z. *)
Theorem tokens_are_lowercase_words (t : text) :
  Forall (fun tok => tok <> [] /\ Forall (fun c => (97 <= c <= 122)%N) tok)
         (Rag._tokenize t).
Proof.
  unfold Rag._tokenize, Py.findall_alpha.
  eapply Forall_impl.
  - apply (findall_alpha_from_tokens (fun c => ~ (65 <= c <= 90)%N));
      [done | apply lower_no_upper | done].
  - intros tok [Hne Htok]. split; [done|].
    eapply Forall_impl; [exact Htok|]. intros c [Ha Hu]. cbn beta in *.
    unfold Py.is_alpha in Ha.
    destruct (N.leb_spec 65 c), (N.leb_spec c 90), (N.leb_spec 97 c),
      (N.leb_spec c 122); cbn in Ha; try discriminate; lia.
Qed.

(** ** Reports and feedback *)

Section FeedbackFacts.
Import Binary64 Memory Oracle Evaluation Routes Ledger.

(** Comparing the binary64 quotient of two integers with an integer gives
    what the exact quotient gives. *)
Lemma geb_true_div a b n :
  0 <= a -> 0 < b -> 10 * a < 2 ^ 52 -> 0 <= n ->
  geb (true_div a b) n = (n * b <=? a).
Proof.
  intros Ha Hb Hbound Hn. unfold true_div.
  destruct (Z.eqb_spec a 0) as [->|Hne].
  { unfold geb, scale. cbn [mant expo]. cbn.
    destruct (Z.leb_spec (n * 1) 0), (Z.leb_spec (n * b) 0); try done; nia. }
  rewrite (Z.abs_eq a) by lia.
  set (L := quotient_log2 a b).
  assert (L <= 48) as HL.
  { pose proof (quotient_log2_le a b ltac:(lia)).
    assert (Z.log2 a < 49); [|lia].
    apply Z.log2_lt_pow2; lia. }
  pose proof (quotient_log2_below a b ltac:(lia) Hb) as Hlow. fold L in Hlow.
  unfold geb. cbn [mant expo].
  rewrite (scale_up a), (scale_down b), (scale_up n),
    (scale_down (round_half_even _ _)) by lia.
  replace (- (L - 52)) with (52 - L) by lia.
  set (P := 2 ^ (52 - L)).
  assert (0 < P) as HP by (apply Z.pow_pos_nonneg; lia).
  assert (10 * b < P) as HbP.
  { destruct (Z.le_gt_cases 0 L) as [H0|H0].
    - rewrite scale_up, scale_down in Hlow by lia.
      assert (2 ^ 52 = P * 2 ^ L) as Hpow.
      { unfold P. rewrite <- Z.pow_add_r by lia. f_equal; lia. }
      pose proof (Z.pow_pos_nonneg 2 L ltac:(lia) H0). nia.
    - rewrite scale_down, scale_up in Hlow by lia.
      assert (P = 2 ^ 52 * 2 ^ (- L)) as Hpow.
      { unfold P. rewrite <- Z.pow_add_r by lia. f_equal; lia. }
      pose proof (Z.pow_pos_nonneg 2 (- L) ltac:(lia) ltac:(lia)). nia. }
  pose proof (round_half_even_near (a * P) b Hb) as Hm.
  set (m := round_half_even (a * P) b) in *.
  clearbody P m. clear Hlow HL L Hbound Hne.
  destruct (Z.leb_spec (n * P) m) as [H1|H1],
           (Z.leb_spec (n * b) a) as [H2|H2]; try done; exfalso.
  - assert (n * P * b <= m * b) by nia.
    assert ((a + 1) * P <= n * b * P) by nia. nia.
  - assert ((m + 1) * b <= n * P * b) by nia.
    assert (n * b * P <= a * P) by nia. nia.
Qed.

Lemma sum_scores_graded l :
  Forall (fun q => 1 <= score q <= 10) l ->
  Z.of_nat (length l) <= sum_scores l <= 10 * Z.of_nat (length l).
Proof.
  induction 1 as [|q l Hq _ IH]; cbn [sum_scores foldr length]; [lia|].
  fold (sum_scores l). lia.
Qed.

(** Two filters that exclude each other select no more than the list
    holds. *)
Lemma filter_disjoint_length {A} (P Q : A -> Prop)
    `{!forall x, Decision (P x)} `{!forall x, Decision (Q x)} (l : list A) :
  (forall x, P x -> Q x -> False) ->
  (length (filter P l) + length (filter Q l) <= length l)%nat.
Proof.
  intros Hdis. induction l as [|x l IH]; [done|].
  rewrite !filter_cons. destruct (decide (P x)), (decide (Q x)); cbn;
    [by destruct (Hdis x) | lia | lia | lia].
Qed.

Lemma filter_none {A} (P : A -> Prop) `{!forall x, Decision (P x)}
    (l : list A) :
  Forall (fun x => ~ P x) l -> filter P l = [].
Proof.
  induction 1 as [|x l Hx _ IH]; [done|].
  rewrite filter_cons. by destruct (decide (P x)).
Qed.

Lemma pristine_not_answered q : pristine q -> is_answered q = false.
Proof.
  intros (Ha & _ & _ & Hs). unfold is_answered, has_answer.
  by rewrite Ha, Hs.
Qed.

(** In a session whose records follow the index, an answered record is a
    graded one, and answered and skipped records lie before the index. *)
Lemma answered_graded s :
  ledger_inv s ->
  Forall (fun q => 1 <= score q <= 10)
         (filter (fun q => is_answered q = true) (questions s)).
Proof.
  intros [Hpro Hpri _]. apply Forall_forall. intros q Hq.
  apply list_elem_of_filter in Hq as [Hans Hin].
  apply list_elem_of_lookup in Hin as [i Hi].
  destruct (Nat.lt_ge_cases i (current_question_index s)) as [Hlt|Hge].
  - destruct (Hpro i q Hi Hlt) as [(Hsk & _)|(_ & _ & Hsc)]; [|done].
    unfold is_answered in Hans. by rewrite Hsk in Hans.
  - pose proof (pristine_not_answered q (Hpri i q Hi Hge)). congruence.
Qed.

Lemma processed_before_index s :
  ledger_inv s ->
  (current_question_index s <= length (questions s))%nat ->
  (length (filter (fun q => is_answered q = true) (questions s))
   + length (filter (fun q => skipped q = true) (questions s))
   <= current_question_index s)%nat.
Proof.
  intros [_ Hpri _] Hidx.
  rewrite <- (take_drop (current_question_index s) (questions s)).
  rewrite !filter_app, !length_app.
  rewrite (filter_none (fun q => is_answered q = true) (drop _ _)).
  2: { apply Forall_lookup. intros i q Hi. rewrite lookup_drop in Hi.
       rewrite (pristine_not_answered q); [done|].
       apply (Hpri _ q Hi). lia. }
  rewrite (filter_none (fun q => skipped q = true) (drop _ _)).
  2: { apply Forall_lookup. intros i q Hi. rewrite lookup_drop in Hi.
       destruct (Hpri _ q Hi ltac:(lia)) as (_ & _ & _ & ->). done. }
  cbn [length]. rewrite !Nat.add_0_r.
  etrans.
  - apply filter_disjoint_length. intros q Ha Hs.
    unfold is_answered in Ha. by rewrite Hs in Ha.
  - rewrite length_take. lia.
Qed.

Lemma open_record_unskipped s :
  ledger_inv s ->
  (current_question_index s < length (questions s))%nat ->
  filter (fun r => skipped r = false) (questions s) <> [].
Proof.
  intros [_ Hpri _] Hidx Hnil.
  destruct (lookup_lt_is_Some_2 (questions s) (current_question_index s)
              Hidx) as [q Hq].
  destruct (Hpri _ q Hq ltac:(lia)) as (_ & _ & _ & Hsk).
  assert (q ∈ filter (fun r => skipped r = false) (questions s)) as Hin.
  { apply list_elem_of_filter. split; [done|].
    by apply list_elem_of_lookup_2 in Hq. }
  rewrite Hnil in Hin. by apply elem_of_nil in Hin.
Qed.

End FeedbackFacts.

(** X18: in every world the service can reach, the report of a session
    (fewer than [2^45] questions) counts no more answered and skipped
    records than the index has passed; its average is a nearest one-decimal
    value of the exact mean of the answered scores, their sum over their
    number, and lies between 1.0 and 10.0 when something was answered; the
    best answer scores between 6 and 10 and the worst between 1 and 10. *)
Theorem report_of_reachable_session (w : Routes.world) (sid : string)
    (s : Memory.InterviewSession) :
  Routes.reachable w -> Routes._sessions w !! sid = Some s ->
  Z.of_nat (length (Memory.questions s)) < 2 ^ 45 ->
  let graded := filter ReportSpec.Answered (Memory.questions s) in
  exists rep,
    Memory.get_session_report (Routes._sessions w) sid = Some rep
    /\ Memory.total_questions rep = length (Memory.questions s)
    /\ (Memory.answered rep + Memory.rep_skipped rep
        <= Memory.current_question_index s <= Memory.total_questions rep)%nat
    /\ (graded = [] -> Memory.average_score rep = 0)
    /\ (graded <> [] ->
        ReportSpec.nearest_tenth (foldr Z.add 0 (Memory.score <$> graded))
          (Z.of_nat (length graded)) (Memory.average_score rep)
        /\ 10 <= Memory.average_score rep <= 100)
    /\ (forall b, Memory.best_answer rep = Some b -> 6 <= Memory.score b <= 10)
    /\ (forall b, Memory.worst_answer rep = Some b ->
          1 <= Memory.score b <= 10).
Proof.
  intros Hw Hs Hlen graded. unfold graded. clear graded.
  rewrite <- answered_filter.
  set (graded := filter (fun q => Memory.is_answered q = true)
                        (Memory.questions s)).
  pose proof (reachable_inv w Hw sid s Hs) as Hinv.
  pose proof (reachable_ledger w sid s Hw Hs) as Hled.
  pose proof (answered_graded s Hled) as Hgraded. fold graded in Hgraded.
  pose proof (processed_before_index s Hled (Routes.inv_index s Hinv)) as Hcount.
  fold graded in Hcount.
  unfold Memory.get_session_report. rewrite Hs. fold graded.
  eexists. split; [reflexivity|].
  cbn [Memory.total_questions Memory.answered Memory.rep_skipped
       Memory.average_score Memory.best_answer Memory.worst_answer].
  pose proof (Routes.inv_index s Hinv) as Hidx.
  split; [done|]. split; [lia|]. split; [|split; [|split]].
  - by intros ->.
  - intros Hne. destruct graded as [|b l] eqn:Hg; [done|].
    rewrite <- Hg in *. replace (Py.truthy graded) with true by (by rewrite Hg).
    pose proof (sum_scores_graded graded Hgraded) as Hsum.
    assert (0 < Z.of_nat (length graded)) as Hpos by (rewrite Hg; cbn; lia).
    assert (length graded <= length (Memory.questions s))%nat as Hle
      by apply length_filter.
    assert (2 ^ 45 * 10 * 10 < 2 ^ 52) as Hpow by (vm_compute; reflexivity).
    pose proof (round1_true_div_nearest (Memory.sum_scores graded)
                  (Z.of_nat (length graded)) ltac:(lia) Hpos ltac:(lia))
      as Hnear.
    rewrite <- sum_scores_total.
    split; [exact Hnear|].
    set (t := Binary64.round1 _) in *. clearbody t.
    set (a := Memory.sum_scores graded) in *. clearbody a.
    set (n := Z.of_nat (length graded)) in *. clearbody n.
    clear -Hnear Hsum Hpos. split.
    + destruct (Z.le_gt_cases 10 t); [done|]. exfalso.
      assert (t * n <= 9 * n) by nia. lia.
    + destruct (Z.le_gt_cases t 100); [done|]. exfalso.
      assert (101 * n <= t * n) by nia. lia.
  - intros b Hb.
    destruct (filter (fun q => Memory.is_technical q = true) graded)
      as [|q l] eqn:Htech; [done|]. injection Hb as <-.
    destruct (max_from_spec q l) as [Hin _]. rewrite <- Htech in Hin.
    apply list_elem_of_filter in Hin as [Ht Hin].
    apply is_technical_spec in Ht as [_ H6].
    pose proof (proj1 (Forall_forall _ _) Hgraded _ Hin) as H10.
    cbn beta in H10. lia.
  - intros b Hb. destruct graded as [|q l] eqn:Hg; [done|]. injection Hb as <-.
    destruct (min_from_spec q l) as [Hin _].
    exact (proj1 (Forall_forall _ _) Hgraded _ Hin).
Qed.

Lemma report_of_reachable_session_witness :
  let w := Routes.replay Traces.five_weak in
  let s := Traces.five_weak_session in
  let graded := filter ReportSpec.Answered (Memory.questions s) in
  exists rep,
    Memory.get_session_report (Routes._sessions w) "s1" = Some rep
    /\ Memory.total_questions rep = length (Memory.questions s)
    /\ (Memory.answered rep + Memory.rep_skipped rep
        <= Memory.current_question_index s <= Memory.total_questions rep)%nat
    /\ (graded = [] -> Memory.average_score rep = 0)
    /\ (graded <> [] ->
        ReportSpec.nearest_tenth (foldr Z.add 0 (Memory.score <$> graded))
          (Z.of_nat (length graded)) (Memory.average_score rep)
        /\ 10 <= Memory.average_score rep <= 100)
    /\ (forall b, Memory.best_answer rep = Some b -> 6 <= Memory.score b <= 10)
    /\ (forall b, Memory.worst_answer rep = Some b ->
          1 <= Memory.score b <= 10).
Proof.
  apply (report_of_reachable_session (Routes.replay Traces.five_weak) "s1"
           Traces.five_weak_session).
  - apply replay_reachable.
  - vm_compute. reflexivity.
  - vm_compute. reflexivity.
Defined.

(** X19: without an oracle, the overall feedback is chosen by the exact
    mean of the scores of the unskipped records, their sum over their
    number: excellent from 8, good from 6, average from 4, needs improvement
    below; the binary64 division never moves a mean across a threshold
    (scores summing to less than [2^52 / 10]).  The oracle is not asked. *)
Theorem feedback_bands_are_exact (o : Oracle.oracle)
    (results : list Memory.QuestionRecord) (calls : nat) :
  let unskipped := filter (fun r => Memory.skipped r = false) results in
  let total := foldr Z.add 0 (Memory.score <$> unskipped) in
  let n := Z.of_nat (length unskipped) in
  Oracle.has_client o = false -> unskipped <> [] ->
  0 <= total -> 10 * total < 2 ^ 52 ->
  Evaluation.generate_overall_feedback o results calls
  = (Evaluation.Fixed
       (if 8 * n <=? total then
          "Excellent performance! You demonstrated strong knowledge and communication skills."
        else if 6 * n <=? total then
          "Good performance. You showed solid understanding with room for improvement in some areas."
        else if 4 * n <=? total then
          "Average performance. Consider practicing more detailed and structured responses."
        else
          "Needs improvement. Focus on building deeper knowledge and practicing your responses."),
     calls).
Proof.
  cbv zeta. unfold Evaluation.generate_overall_feedback.
  set (unskipped := filter _ results).
  rewrite <- (sum_scores_total unskipped).
  set (total := Memory.sum_scores unskipped).
  set (n := Z.of_nat (length unskipped)).
  intros Hno Hne H0 Hbound. rewrite Hno.
  replace (Py.truthy unskipped) with true by (by destruct unskipped).
  cbn [negb].
  assert (0 < n) as Hn by (unfold n; destruct unskipped; [done | cbn; lia]).
  rewrite !geb_true_div by lia.
  by repeat case_match.
Qed.

Lemma feedback_bands_are_exact_witness :
  let results :=
    [ Memory.mkQuestion 1 "q1" "general" (Some "a") 7 "" false;
      Memory.mkQuestion 2 "q2" "general" None 0 "" true;
      Memory.mkQuestion 3 "q3" "general" (Some "b") 5 "" false ]%string in
  let unskipped := filter (fun r => Memory.skipped r = false) results in
  let total := foldr Z.add 0 (Memory.score <$> unskipped) in
  let n := Z.of_nat (length unskipped) in
  Evaluation.generate_overall_feedback Scenario.no_client results 0%nat
  = (Evaluation.Fixed
       (if 8 * n <=? total then
          "Excellent performance! You demonstrated strong knowledge and communication skills."
        else if 6 * n <=? total then
          "Good performance. You showed solid understanding with room for improvement in some areas."
        else if 4 * n <=? total then
          "Average performance. Consider practicing more detailed and structured responses."
        else
          "Needs improvement. Focus on building deeper knowledge and practicing your responses."),
     0%nat).
Proof.
  apply (feedback_bands_are_exact Scenario.no_client
           [ Memory.mkQuestion 1 "q1" "general" (Some "a") 7 "" false;
             Memory.mkQuestion 2 "q2" "general" None 0 "" true;
             Memory.mkQuestion 3 "q3" "general" (Some "b") 5 "" false ]%string
           0%nat).
  - reflexivity.
  - vm_compute. discriminate.
  - vm_compute. discriminate.
  - vm_compute. reflexivity.
Defined.

(** X20: the report route answers every existing session with its
    records; the feedback is "No questions were answered in this interview."
    whenever every record is skipped, in particular before the interview
    starts, whatever the oracle; and while an interview is in progress with
    a question open, that question counts as unskipped, so without an oracle
    the feedback is one of the four performance texts, never that
    message. *)
Theorem feedback_without_answers (w : Routes.world) (o : Oracle.oracle)
    (sid : string) (s : Memory.InterviewSession) :
  Routes.reachable w -> Routes._sessions w !! sid = Some s ->
  exists rep fb,
    Routes.get_report o sid w = (Routes.OK (rep, fb), w)
    /\ Memory.results rep = Memory.questions s
    /\ (Forall (fun q => Memory.skipped q = true) (Memory.questions s) ->
        fb = Evaluation.Fixed "No questions were answered in this interview.")
    /\ (Routes.phase_of s = Routes.NOT_STARTED ->
        fb = Evaluation.Fixed "No questions were answered in this interview.")
    /\ (Routes.phase_of s = Routes.IN_PROGRESS ->
        (Memory.current_question_index s < length (Memory.questions s))%nat ->
        Oracle.has_client o = false ->
        fb = Evaluation.Fixed "Excellent performance! You demonstrated strong knowledge and communication skills."
        \/ fb = Evaluation.Fixed "Good performance. You showed solid understanding with room for improvement in some areas."
        \/ fb = Evaluation.Fixed "Average performance. Consider practicing more detailed and structured responses."
        \/ fb = Evaluation.Fixed "Needs improvement. Focus on building deeper knowledge and practicing your responses.").
Proof.
  intros Hw Hs.
  pose proof (reachable_inv w Hw sid s Hs) as Hinv.
  pose proof (reachable_ledger w sid s Hw Hs) as Hled.
  unfold Routes.get_report, Memory.get_session_report. rewrite Hs.
  cbn [Memory.results]. do 2 eexists. split; [reflexivity|].
  split; [done|].
  assert (Forall (fun q => Memory.skipped q = true) (Memory.questions s) ->
          Routes.run (Evaluation.generate_overall_feedback o (Memory.questions s))
          = Evaluation.Fixed "No questions were answered in this interview.")
    as Hall.
  { intros Hsk. unfold Evaluation.generate_overall_feedback.
    rewrite (filter_none (fun r => Memory.skipped r = false)); [done|].
    eapply Forall_impl; [exact Hsk|]. intros q ->. done. }
  split; [done|]. split.
  - unfold Routes.phase_of. destruct (Memory.finished s); [done|].
    destruct (Memory.started s) eqn:Hst; [done|].
    intros _. apply Hall. by rewrite (Routes.inv_not_started s Hinv Hst).
  - intros _ Hidx Hno.
    pose proof (open_record_unskipped s Hled Hidx) as Hne.
    unfold Evaluation.generate_overall_feedback, Routes.run. rewrite Hno.
    destruct (filter _ (Memory.questions s)) as [|q l]; [done|].
    cbn [Py.truthy negb]. repeat case_match; cbn [fst]; auto.
Qed.

Lemma feedback_without_answers_witness :
  let w := Routes.replay Scenario.opened in
  let o := Scenario.no_client in
  exists rep fb,
    Routes.get_report o "s1" w = (Routes.OK (rep, fb), w)
    /\ Memory.results rep = Memory.questions Scenario.opened_session
    /\ (Forall (fun q => Memory.skipped q = true)
          (Memory.questions Scenario.opened_session) ->
        fb = Evaluation.Fixed "No questions were answered in this interview.")
    /\ (Routes.phase_of Scenario.opened_session = Routes.NOT_STARTED ->
        fb = Evaluation.Fixed "No questions were answered in this interview.")
    /\ (Routes.phase_of Scenario.opened_session = Routes.IN_PROGRESS ->
        (Memory.current_question_index Scenario.opened_session
         < length (Memory.questions Scenario.opened_session))%nat ->
        Oracle.has_client o = false ->
        fb = Evaluation.Fixed "Excellent performance! You demonstrated strong knowledge and communication skills."
        \/ fb = Evaluation.Fixed "Good performance. You showed solid understanding with room for improvement in some areas."
        \/ fb = Evaluation.Fixed "Average performance. Consider practicing more detailed and structured responses."
        \/ fb = Evaluation.Fixed "Needs improvement. Focus on building deeper knowledge and practicing your responses.").
Proof.
  apply (feedback_without_answers (Routes.replay Scenario.opened)
           Scenario.no_client "s1" Scenario.opened_session).
  - apply replay_reachable.
  - vm_compute. reflexivity.
Defined.

Section IntakeFacts.
Import Py Reading Intake.

Lemma startswith_spec s p :
  startswith s p = true <-> exists rest, s = p ++ rest.
Proof.
  revert s. induction p as [|a p IH]; intros s; cbn.
  - split; [by exists s|done].
  - destruct s as [|c s]; [split; [done|by intros (? & [=])]|].
    rewrite andb_true_iff, IH, N.eqb_eq. split.
    + intros [-> [rest ->]]. by exists rest.
    + intros (rest & [= -> ->]). eauto.
Qed.

Lemma endswith_spec s suffix :
  endswith s suffix = true <-> exists stem, s = stem ++ suffix.
Proof.
  unfold endswith. rewrite startswith_spec. split.
  - intros [rest Hrev]. exists (rev rest).
    apply (f_equal (@rev N)) in Hrev.
    by rewrite rev_involutive, rev_app_distr, rev_involutive in Hrev.
  - intros [stem ->]. exists (rev stem). by rewrite rev_app_distr.
Qed.

(** The two checks pass exactly for a name that ends in [.pdf], in any
    case. *)
Lemma name_checks filename fresh extracted rd w :
  (exists name stem, filename = Some name /\ lower name = stem ++ u ".pdf")
  /\ upload_resume filename fresh extracted rd w
     = Routes.upload_resume fresh extracted rd w
  \/ ~ (exists name stem,
          filename = Some name /\ lower name = stem ++ u ".pdf")
     /\ exists detail,
          upload_resume filename fresh extracted rd w
          = (Routes.HTTPException 400 detail, w).
Proof.
  unfold upload_resume. destruct filename as [name|].
  2: { right. split; [by intros (? & ? & [=] & _)|eauto]. }
  destruct name as [|c name]; cbn [truthy negb].
  { right. split; [|eauto]. intros (? & stem & [= <-] & Hl).
    by destruct stem. }
  destruct (endswith (lower (c :: name)) (u ".pdf")) eqn:Hend; cbn [negb].
  - left. split; [|done]. apply endswith_spec in Hend as [stem Hstem]. eauto.
  - right. split; [|eauto]. intros (? & stem & [= <-] & Hl).
    assert (endswith (lower (c :: name)) (u ".pdf") = true); [|congruence].
    apply endswith_spec. eauto.
Qed.

End IntakeFacts.

(** X21: an upload succeeds exactly when the name of the file ends in
    [.pdf], in any case, and the extracted text has a word.  Then the
    session holds the text and the analysis and has not started, and the
    words of the text reassembled from the chunk store are the words of the
    resume.  An upload refused for its file name changes nothing.  An upload
    refused later (500 when reading the file fails, 400 for a text without
    words) leaves the chunk store as it was, but the session it created
    stays, empty. *)
Theorem upload_outcome (filename : option text) (fresh : string)
    (extracted : option text) (rd : Memory.ResumeData) (w : Routes.world) :
  let pdf_name :=
    exists name stem,
      filename = Some name /\ Py.lower name = stem ++ u ".pdf" in
  let out := Intake.upload_resume filename fresh extracted rd w in
  (Machine.status_of (fst out) = 200
   <-> pdf_name /\ exists t, extracted = Some t /\ Py.split t <> [])
  /\ (pdf_name ->
      forall t, extracted = Some t -> Py.split t <> [] ->
        fst out = Routes.OK (fresh, rd)
        /\ Routes._sessions (snd out) !! fresh
           = Some (Memory.mkSession fresh t rd [] 0%nat false false 0 0 []
                     "introduction" 0 0)
        /\ Py.split (Rag.get_full_resume_text (Routes._store (snd out)) fresh)
           = Py.split t)
  /\ (~ pdf_name -> Machine.status_of (fst out) = 400 /\ snd out = w)
  /\ (pdf_name -> Machine.status_of (fst out) <> 200 ->
      (Machine.status_of (fst out) = 500 <-> extracted = None)
      /\ (Machine.status_of (fst out) = 400 <-> extracted <> None)
      /\ Routes._store (snd out) = Routes._store w
      /\ Routes._sessions (snd out) !! fresh
         = Some (Memory.new_session fresh)).
Proof.
  cbv zeta.
  destruct (name_checks filename fresh extracted rd w)
    as [[Hpdf ->]|[Hnot [detail ->]]].
  2: { cbn. split; [split; [done|tauto]|]. split; [tauto|]. split; [done|tauto]. }
  unfold Routes.upload_resume, Memory.create_session.
  destruct extracted as [t|].
  2: { cbn. split; [|split; [|split]].
       - split; [done|]. by intros (_ & t & [=] & _).
       - by intros _ t [=].
       - tauto.
       - intros _ _. by rewrite lookup_insert_eq. }
  pose proof (strip_truthy_iff t) as Hiff.
  destruct (Py.truthy (Py.strip t)) eqn:Htr; cbn [negb fst snd].
  - assert (Py.split t <> []) as Hne by by apply Hiff.
    cbn [Machine.status_of Routes._sessions Routes._store].
    split; [|split; [|split]].
    + split; [|done]. intros _. split; [done|]. by exists t.
    + intros _ t0 [= <-] _. split; [done|]. split.
      * unfold Memory.update_session.
        rewrite lookup_insert_eq, insert_insert_eq, lookup_insert_eq. done.
      * unfold Rag.get_full_resume_text, Rag.store_resume_chunks.
        rewrite lookup_insert_eq. cbn [from_option id].
        by apply chunks_roundtrip.
    + tauto.
    + done.
  - assert (Py.split t = []) as Hnil.
    { destruct (Py.split t) eqn:Hsp; [done|].
      assert (false = true) by (by apply Hiff). done. }
    cbn [Machine.status_of Routes._sessions Routes._store].
    split; [|split; [|split]].
    + split; [done|]. intros (_ & t0 & [= <-] & Hne). done.
    + intros _ t0 [= <-] Hne. done.
    + tauto.
    + intros _ _. rewrite lookup_insert_eq. by repeat split.
Qed.

(** ** What a response says about the session *)

Section ResponseFacts.
Import Memory Oracle Engine Routes Machine.

Lemma next_questions_done f d s q :
  questions s !! current_question_index s = Some q ->
  next_questions f d s !! current_question_index s = Some (f q).
Proof.
  intros Hq. unfold next_questions.
  rewrite lookup_app_l
    by (rewrite length_alter; by apply lookup_lt_Some in Hq).
  by rewrite list_lookup_alter_eq, Hq.
Qed.

Lemma next_questions_open f d s :
  should_end d = false ->
  next_questions f d s !! length (questions s)
  = Some (fresh_record (length (questions s)) (next_question d)
            (d_category d)).
Proof.
  intros Hend. unfold next_questions. rewrite Hend.
  rewrite lookup_app_r by (by rewrite length_alter).
  by rewrite length_alter, Nat.sub_diag.
Qed.

(** In the model an answer or a skip on an interview in progress is always
    answered with a body, which describes the session stored afterwards. *)
Lemma response_of_cycle (w : Routes.world) (o : Oracle.oracle)
    (now : Z) (r : Routes.request) (s : Memory.InterviewSession) :
  Routes.reachable w ->
  Routes._sessions w !! Machine.target r = Some s ->
  Routes.phase_of s = Routes.IN_PROGRESS ->
  (exists ans, r = Routes.Answer (Machine.target r) ans)
  \/ r = Routes.Skip (Machine.target r) ->
  exists resp s' closed,
    Machine.asked_of o now r w = Some resp
    /\ Routes._sessions (Routes.serve o now r w) !! Machine.target r = Some s'
    /\ Routes.r_is_finished resp = Memory.finished s'
    /\ Routes.r_question_number resp = length (Memory.questions s')
    /\ Memory.questions s' !! Memory.current_question_index s = Some closed
    /\ match r with
       | Routes.Answer _ ans =>
           Memory.answer closed = Some ans
           /\ Routes.r_score resp = Some (Memory.score closed)
           /\ Routes.r_analysis resp = Some (Memory.feedback closed)
       | _ =>
           Memory.skipped closed = true
           /\ Routes.r_score resp = None /\ Routes.r_analysis resp = None
       end
    /\ (Routes.r_is_finished resp = false ->
        exists q,
          Memory.questions s' !! Memory.current_question_index s' = Some q
          /\ Routes.r_next_question resp = Some (Memory.question q)
          /\ Routes.r_category resp = Memory.category q
          /\ Memory.question_number q
             = Z.of_nat (Routes.r_question_number resp)
          /\ Routes.r_topic resp = Some (Memory.current_topic s')).
Proof.
  intros Hw Hs Hph Hr.
  pose proof (reachable_inv w Hw _ s Hs) as Hinv.
  unfold Routes.phase_of in Hph.
  destruct (Memory.finished s) eqn:Hfin; [done|].
  destruct (Memory.started s) eqn:Hst; [|done].
  pose proof (Routes.inv_in_progress s Hinv Hst Hfin) as Hlen.
  assert (Memory.current_question_index s < length (Memory.questions s))%nat
    as Hidx by lia.
  destruct (lookup_lt_is_Some_2 _ _ Hidx) as [q0 Hq0].
  destruct Hr as [[ans Hr]| Hr]; rewrite Hr; cbn [Machine.target] in *;
    set (sid := Machine.target r) in *; clearbody sid;
    cbn [Machine.asked_of Routes.serve].
  - destruct (answer_world o now sid ans w s Hs Hst Hfin Hidx) as [_ ->].
    rewrite (answer_response o now sid ans w s Hs Hst Hfin Hidx).
    set (d := Routes.run _).
    cbn [Routes._sessions]. rewrite lookup_insert_eq.
    do 3 eexists. split; [reflexivity|]. split; [reflexivity|].
    cbn [Routes.r_is_finished Routes.r_question_number Routes.r_score
         Routes.r_analysis Routes.r_next_question Routes.r_category
         Routes.r_topic Memory.finished Memory.questions
         Memory.current_question_index Memory.current_topic].
    split; [done|]. split.
    { rewrite next_questions_length. destruct (Engine.should_end d); lia. }
    split; [by apply next_questions_done|]. split; [done|].
    intros Hend. rewrite Hend, Hlen.
    eexists. split; [by apply next_questions_open|].
    cbn. split; [done|]. split; [done|]. split; [lia|done].
  - destruct (skip_world o now sid w s Hs Hst Hfin Hidx) as [_ ->].
    rewrite (skip_response o now sid w s Hs Hst Hfin Hidx).
    set (d := Routes.run _).
    cbn [Routes._sessions]. rewrite lookup_insert_eq.
    do 3 eexists. split; [reflexivity|]. split; [reflexivity|].
    cbn [Routes.r_is_finished Routes.r_question_number Routes.r_score
         Routes.r_analysis Routes.r_next_question Routes.r_category
         Routes.r_topic Memory.finished Memory.questions
         Memory.current_question_index Memory.current_topic].
    split; [done|]. split.
    { rewrite next_questions_length. destruct (Engine.should_end d); lia. }
    split; [by apply next_questions_done|]. split; [done|].
    intros Hend. rewrite Hend, Hlen.
    eexists. split; [by apply next_questions_open|].
    cbn. split; [done|]. split; [done|]. split; [lia|done].
Qed.

End ResponseFacts.

(** X22: when an answer or a skip on an interview in progress with a
    question open is answered with a body, that body describes the session
    as it is stored afterwards: [is_finished] is the session's flag,
    [question_number] the number of questions asked; the record that was
    open now holds the answer with the score and analysis of the response,
    or is marked skipped; and unless the interview is finished,
    [next_question], [category], [topic] and [question_number] are those of
    the record that is now open. *)
Theorem response_mirrors_session (w : Routes.world) (o : Oracle.oracle)
    (now : Z) (r : Routes.request) (s : Memory.InterviewSession)
    (resp : Routes.asked) :
  Routes.reachable w ->
  Routes._sessions w !! Machine.target r = Some s ->
  Routes.phase_of s = Routes.IN_PROGRESS ->
  (Memory.current_question_index s < length (Memory.questions s))%nat ->
  (exists ans, r = Routes.Answer (Machine.target r) ans)
  \/ r = Routes.Skip (Machine.target r) ->
  Machine.asked_of o now r w = Some resp ->
  exists s' closed,
    Routes._sessions (Routes.serve o now r w) !! Machine.target r = Some s'
    /\ Routes.r_is_finished resp = Memory.finished s'
    /\ Routes.r_question_number resp = length (Memory.questions s')
    /\ Memory.questions s' !! Memory.current_question_index s = Some closed
    /\ match r with
       | Routes.Answer _ ans =>
           Memory.answer closed = Some ans
           /\ Routes.r_score resp = Some (Memory.score closed)
           /\ Routes.r_analysis resp = Some (Memory.feedback closed)
       | _ =>
           Memory.skipped closed = true
           /\ Routes.r_score resp = None /\ Routes.r_analysis resp = None
       end
    /\ (Routes.r_is_finished resp = false ->
        exists q,
          Memory.questions s' !! Memory.current_question_index s' = Some q
          /\ Routes.r_next_question resp = Some (Memory.question q)
          /\ Routes.r_category resp = Memory.category q
          /\ Memory.question_number q
             = Z.of_nat (Routes.r_question_number resp)
          /\ Routes.r_topic resp = Some (Memory.current_topic s')).
Proof.
  intros Hw Hs Hph _ Hr Hresp.
  destruct (response_of_cycle w o now r s Hw Hs Hph Hr)
    as (resp0 & s' & closed & Hresp0 & Hrest).
  rewrite Hresp0 in Hresp. injection Hresp as <-.
  exists s', closed. exact Hrest.
Qed.

Lemma response_mirrors_session_witness :
  let w := Routes.replay Scenario.opened in
  let o := Scenario.ending in
  let r := Routes.Answer "s1" "I am a developer." in
  let s := Scenario.opened_session in
  let resp :=
    Routes.mkAsked (Some "Clear introduction.")
      (Some "Thank you so much for your time!") 1 "general" None true
      (Some 7) (Some "enough ground covered") in
  exists s' closed,
    Routes._sessions (Routes.serve o 2 r w) !! Machine.target r = Some s'
    /\ Routes.r_is_finished resp = Memory.finished s'
    /\ Routes.r_question_number resp = length (Memory.questions s')
    /\ Memory.questions s' !! Memory.current_question_index s = Some closed
    /\ match r with
       | Routes.Answer _ ans =>
           Memory.answer closed = Some ans
           /\ Routes.r_score resp = Some (Memory.score closed)
           /\ Routes.r_analysis resp = Some (Memory.feedback closed)
       | _ =>
           Memory.skipped closed = true
           /\ Routes.r_score resp = None /\ Routes.r_analysis resp = None
       end
    /\ (Routes.r_is_finished resp = false ->
        exists q,
          Memory.questions s' !! Memory.current_question_index s' = Some q
          /\ Routes.r_next_question resp = Some (Memory.question q)
          /\ Routes.r_category resp = Memory.category q
          /\ Memory.question_number q
             = Z.of_nat (Routes.r_question_number resp)
          /\ Routes.r_topic resp = Some (Memory.current_topic s')).
Proof.
  apply (response_mirrors_session (Routes.replay Scenario.opened)
           Scenario.ending 2 (Routes.Answer "s1" "I am a developer.")
           Scenario.opened_session
           (Routes.mkAsked (Some "Clear introduction.")
              (Some "Thank you so much for your time!") 1 "general" None true
              (Some 7) (Some "enough ground covered"))).
  - apply replay_reachable.
  - vm_compute. reflexivity.
  - vm_compute. reflexivity.
  - vm_compute. lia.
  - left. by exists "I am a developer."%string.
  - vm_compute. reflexivity.
Defined.

(** ** Cleaning a reply *)

Section ReadingFacts.
Import Py Reading.

Lemma lstrip_app_spaces pad s :
  Forall (fun c => is_space c = true) pad -> lstrip (pad ++ s) = lstrip s.
Proof. induction 1 as [|c pad Hc _ IH]; [done|]. cbn. by rewrite Hc. Qed.

Lemma lstrip_nonspace c s : is_space c = false -> lstrip (c :: s) = c :: s.
Proof. intros Hc. cbn. by rewrite Hc. Qed.

(** [lstrip] removes a run of whitespace and leaves a text that is empty
    or starts with another character. *)
Lemma lstrip_spec s :
  exists pad,
    Forall (fun c => is_space c = true) pad /\ s = pad ++ lstrip s
    /\ (lstrip s = [] \/ exists c r, lstrip s = c :: r /\ is_space c = false).
Proof.
  induction s as [|c s (pad & Hpad & Hs & Hhead)]; [exists []; auto|].
  cbn. destruct (is_space c) eqn:Hc.
  - exists (c :: pad). split; [by constructor|].
    split; [cbn [app]; by f_equal|done].
  - exists []. split; [done|]. split; [done|]. right. eauto.
Qed.

Lemma strip_pad pl s pr :
  Forall (fun c => is_space c = true) pl ->
  Forall (fun c => is_space c = true) pr ->
  strip (pl ++ s ++ pr) = strip s.
Proof.
  intros Hl Hr. unfold strip. rewrite (lstrip_app_spaces pl) by done.
  destruct (lstrip_spec s) as (pad & Hpad & Hs & Hhead).
  destruct Hhead as [Hnil|(c & r & Hcr & Hc)].
  - rewrite Hnil. rewrite Hs, Hnil, app_nil_r.
    rewrite (lstrip_spaces (pad ++ pr)) by (by apply Forall_app).
    done.
  - assert (lstrip (s ++ pr) = lstrip s ++ pr) as ->.
    { rewrite Hs at 1. rewrite <- app_assoc.
      rewrite lstrip_app_spaces by done. rewrite Hcr. cbn. by rewrite Hc. }
    rewrite rev_app_distr.
    by rewrite lstrip_app_spaces by (by apply Forall_rev).
Qed.

(** A text that starts and ends with a character other than whitespace is
    left as it is. *)
Lemma strip_fixed a s z :
  is_space a = false -> is_space z = false ->
  strip (a :: s ++ [z]) = a :: s ++ [z].
Proof.
  intros Ha Hz. unfold strip. rewrite lstrip_nonspace by done.
  change (a :: s ++ [z]) with ((a :: s) ++ [z]).
  rewrite rev_app_distr. cbn [rev app].
  rewrite lstrip_nonspace by done.
  change (z :: rev s ++ [a]) with ([z] ++ rev (a :: s)).
  by rewrite rev_app_distr, rev_involutive.
Qed.

Lemma strip_strip s : strip (strip s) = strip s.
Proof.
  unfold strip at 2 3.
  destruct (lstrip_spec s) as (pad & _ & _ & Hhead).
  destruct Hhead as [->|(a & r & Har & Ha)]; [done|].
  rewrite Har.
  destruct (lstrip_spec (rev (a :: r))) as (pad' & Hpad' & Hrev & Hhead').
  destruct Hhead' as [->|(z & r' & Hzr & Hz)]; [done|].
  rewrite Hzr. rewrite Hzr in Hrev.
  apply (f_equal (@rev N)) in Hrev. rewrite rev_involutive in Hrev.
  rewrite rev_app_distr in Hrev. cbn [rev] in Hrev.
  (* a :: r = (rev r' ++ [z]) ++ rev pad' *)
  cbn [rev]. destruct (rev r') as [|b t] eqn:Hr'.
  - cbn. unfold strip. cbn. rewrite Hz. cbn. by rewrite Hz.
  - cbn [app] in *. injection Hrev as <- _.
    by apply strip_fixed.
Qed.

Lemma startswith_app p s : startswith (p ++ s) p = true.
Proof. induction p as [|a p IH]; [done|]. cbn. by rewrite N.eqb_refl. Qed.

Lemma after_first_app c pre s :
  c ∉ pre -> after_first c (pre ++ c :: s) = s.
Proof.
  induction pre as [|x pre IH]; intros Hnot; cbn.
  - by rewrite N.eqb_refl.
  - destruct (N.eqb_spec x c) as [->|_].
    + exfalso. apply Hnot. by left.
    + apply IH. intros Hin. apply Hnot. by right.
Qed.

Lemma existsb_app_elem c pre s :
  existsb (N.eqb c) (pre ++ c :: s) = true.
Proof.
  rewrite existsb_app. cbn. rewrite N.eqb_refl. by rewrite orb_true_r.
Qed.

(** The last occurrence of the fence in a text that ends with it is that
    ending. *)
Lemma before_last_end body : before_last fence (body ++ fence) = Some body.
Proof.
  induction body as [|c body IH]; [reflexivity|].
  cbn [app before_last]. by rewrite IH.
Qed.

Lemma strip_fenced mid :
  strip (fence ++ mid ++ fence) = fence ++ mid ++ fence.
Proof.
  change fence with [96; 96; 96]%N.
  assert ([96; 96; 96]%N ++ mid ++ [96; 96; 96]%N
          = 96%N :: (96 :: 96 :: mid ++ [96; 96])%N ++ [96%N]) as ->.
  { cbn [app]. do 3 f_equal. by rewrite <- app_assoc. }
  by apply strip_fixed.
Qed.

End ReadingFacts.

(** X23: [_clean_json] unwraps a fenced block: for a reply made of an
    opening fence, a language tag without line break, a line break, a body
    and a closing fence, with any whitespace around it, the result is the
    body without its surrounding whitespace, whatever the body holds. *)
Theorem clean_json_unwraps_fence (pad_l tag body pad_r : text) :
  Forall (fun c => Py.is_space c = true) pad_l ->
  Forall (fun c => Py.is_space c = true) pad_r ->
  10%N ∉ tag ->
  Reading._clean_json
    (pad_l ++ (Reading.fence ++ tag ++ Py.newline ++ body ++ Reading.fence)
     ++ pad_r)
  = Py.strip body.
Proof.
  intros Hl Hr Htag. unfold Reading._clean_json.
  rewrite strip_pad by done.
  replace (Reading.fence ++ tag ++ Py.newline ++ body ++ Reading.fence)
    with (Reading.fence ++ (tag ++ Py.newline ++ body) ++ Reading.fence)
    by (by rewrite <- !app_assoc).
  rewrite strip_fenced, startswith_app.
  replace (Reading.fence ++ (tag ++ Py.newline ++ body) ++ Reading.fence)
    with ((Reading.fence ++ tag) ++ 10%N :: body ++ Reading.fence)
    by (by rewrite <- !app_assoc).
  rewrite existsb_app_elem, after_first_app.
  2: { intros [Hin|Hin]%elem_of_app; [|done].
       change Reading.fence with [96; 96; 96]%N in Hin.
       by repeat (apply elem_of_cons in Hin as [Hin|Hin]; [done|]);
         apply elem_of_nil in Hin. }
  unfold Reading.rsplit_head. by rewrite before_last_end.
Qed.

Lemma clean_json_unwraps_fence_witness :
  Reading._clean_json
    (u " " ++ (Reading.fence ++ u "json" ++ Py.newline
               ++ u "{ } " ++ Reading.fence) ++ u "  ")
  = Py.strip (u "{ } ").
Proof.
  apply (clean_json_unwraps_fence (u " ") (u "json") (u "{ } ") (u "  ")).
  - vm_compute. by repeat constructor.
  - vm_compute. by repeat constructor.
  - vm_compute. intros Hin.
    by repeat (apply elem_of_cons in Hin as [Hin|Hin]; [done|]);
      apply elem_of_nil in Hin.
Defined.

(** X24: [_clean_json] only strips a reply that does not open with a
    fence, and its result never has whitespace around it: cleaning a
    cleaned reply that holds no fence changes nothing. *)
Theorem clean_json_without_fence (t : text) :
  Reading.startswith (Py.strip t) Reading.fence = false ->
  Reading._clean_json t = Py.strip t
  /\ Reading._clean_json (Reading._clean_json t) = Reading._clean_json t.
Proof.
  intros Hno.
  assert (Reading._clean_json t = Py.strip t) as Heq.
  { unfold Reading._clean_json. rewrite Hno. apply strip_strip. }
  split; [done|]. rewrite Heq.
  unfold Reading._clean_json. rewrite strip_strip, Hno. apply strip_strip.
Qed.

Lemma clean_json_without_fence_witness :
  Reading._clean_json (u " { } ") = Py.strip (u " { } ")
  /\ Reading._clean_json (Reading._clean_json (u " { } "))
     = Reading._clean_json (u " { } ").
Proof.
  apply (clean_json_without_fence (u " { } ")). vm_compute. reflexivity.
Defined.

(** ** Reading a resume without the oracle *)

Section SkillFacts.
Import Py Reading.

Lemma lower_app s t : lower (s ++ t) = lower s ++ lower t.
Proof. unfold lower. by rewrite map_app, concat_app. Qed.

Lemma lower_char_fixed c :
  Forall (fun x => lower_char x = [x]) (lower_char c).
Proof.
  assert (forall x, ~ (65 <= x <= 90)%N -> x <> 304%N -> x <> 8490%N ->
                    lower_char x = [x]) as Hfix.
  { intros x H1 H2 H3. unfold lower_char.
    destruct (N.leb_spec 65 x), (N.leb_spec x 90); cbn [andb]; try lia;
      destruct (N.eqb_spec x 304); try done;
      by destruct (N.eqb_spec x 8490). }
  unfold lower_char.
  destruct (N.leb_spec 65 c), (N.leb_spec c 90); cbn [andb];
    try (destruct (N.eqb_spec c 304); [|destruct (N.eqb_spec c 8490)]);
    repeat constructor; apply Hfix; lia.
Qed.

Lemma lower_fixed s :
  Forall (fun x => lower_char x = [x]) s -> lower s = s.
Proof.
  unfold lower. induction 1 as [|x s Hx _ IH]; [done|].
  cbn [List.map concat]. by rewrite Hx, IH.
Qed.

Lemma lower_lower s : lower (lower s) = lower s.
Proof.
  induction s as [|c s IH]; [done|].
  change (lower (c :: s)) with (lower_char c ++ lower s).
  rewrite lower_app, IH. f_equal. apply lower_fixed, lower_char_fixed.
Qed.

Lemma contains_spec s sub :
  contains s sub = true <-> exists pre post, s = pre ++ sub ++ post.
Proof.
  induction s as [|c s IH]; cbn [contains].
  - rewrite startswith_spec. split.
    + intros [rest Hrest]. symmetry in Hrest.
      apply app_eq_nil in Hrest as [-> ->]. by exists [], [].
    + intros (pre & post & Heq). symmetry in Heq.
      apply app_eq_nil in Heq as [-> [-> ->]%app_eq_nil]. by exists [].
  - rewrite orb_true_iff, startswith_spec, IH. split.
    + intros [[rest ->]|(pre & post & ->)].
      * by exists [], rest.
      * by exists (c :: pre), post.
    + intros (pre & post & Heq). destruct pre as [|c' pre].
      * left. by exists post.
      * injection Heq as -> ->. right. eauto.
Qed.

Lemma filter_sublist_of {A} (f : A -> bool) (l : list A) :
  List.filter f l `sublist_of` l.
Proof.
  induction l as [|x l IH]; cbn; [done|].
  destruct (f x); by constructor.
Qed.

End SkillFacts.

(** X25: the skills [_fallback_analyze] reports are the title-cased entries
    of the fixed list that occur in the lower-cased text, all of them and in
    the order of the list, or the single entry "General Programming" when
    none occurs, so they are never empty; the titles are those of the list
    below; the case of the resume does not matter; and adding text before or
    after a resume loses none of the entries found in it. *)
Theorem fallback_skills (t : text) :
  let occurs (s : text) (entry : string) :=
    exists pre post, Py.lower s = pre ++ u entry ++ post in
  let skills_of (s : text) :=
    default [] (Memory.skills (Reading._fallback_analyze s)) in
  (exists found,
     found `sublist_of` Reading.common_skills
     /\ (forall entry,
           entry ∈ found <-> entry ∈ Reading.common_skills /\ occurs t entry)
     /\ Memory.skills (Reading._fallback_analyze t)
        = Some (match found with
                | [] => ["General Programming"%string]
                | _ => Reading.title <$> found
                end))
  /\ skills_of t <> []
  /\ Reading.title <$> Reading.common_skills
     = [ "Python"; "Javascript"; "React"; "Node"; "Java"; "C++"; "Sql";
         "Html"; "Css"; "Typescript"; "Mongodb"; "Docker"; "Aws"; "Git";
         "Machine Learning"; "Deep Learning"; "Flask"; "Django"; "Fastapi";
         "Angular"; "Vue"; "Express"; "Postgresql"; "Mysql"; "Redis";
         "Kubernetes"; "Linux"; "Rust"; "Go"; "Swift"; "Kotlin" ]%string
  /\ skills_of (Py.lower t) = skills_of t
  /\ (forall before after entry,
        entry ∈ Reading.common_skills -> occurs t entry ->
        Reading.title entry ∈ skills_of (before ++ t ++ after)).
Proof.
  cbv zeta.
  assert (forall s entry,
            entry ∈ List.filter
                      (fun e => Reading.contains (Py.lower s) (u e))
                      Reading.common_skills
            <-> entry ∈ Reading.common_skills
                /\ exists pre post, Py.lower s = pre ++ u entry ++ post)
    as Hfound.
  { intros s entry. rewrite <- contains_spec.
    rewrite list_elem_of_In, filter_In, <- list_elem_of_In. done. }
  assert (forall s,
            default [] (Memory.skills (Reading._fallback_analyze s))
            = match List.filter
                      (fun e => Reading.contains (Py.lower s) (u e))
                      Reading.common_skills with
              | [] => ["General Programming"%string]
              | found => Reading.title <$> found
              end) as Hskills.
  { intros s. unfold Reading._fallback_analyze, Reading.found_skills.
    cbn [Memory.skills from_option id].
    by destruct (List.filter _ Reading.common_skills). }
  split; [|split; [|split; [|split]]].
  - exists (List.filter (fun e => Reading.contains (Py.lower t) (u e))
                        Reading.common_skills).
    split; [apply filter_sublist_of|]. split; [apply Hfound|].
    unfold Reading._fallback_analyze, Reading.found_skills.
    cbn [Memory.skills]. by destruct (List.filter _ Reading.common_skills).
  - rewrite Hskills. by destruct (List.filter _ Reading.common_skills).
  - reflexivity.
  - rewrite !Hskills. by rewrite lower_lower.
  - intros before after entry Hin (pre & post & Hocc). rewrite Hskills.
    assert (entry ∈ List.filter
                      (fun e => Reading.contains
                                  (Py.lower (before ++ t ++ after)) (u e))
                      Reading.common_skills) as Hmore.
    { apply Hfound. split; [done|]. rewrite !lower_app, Hocc.
      exists (Py.lower before ++ pre), (post ++ Py.lower after).
      by rewrite <- !app_assoc. }
    destruct (List.filter _ Reading.common_skills) as [|e l] eqn:Hf.
    + by apply elem_of_nil in Hmore.
    + by apply list_elem_of_fmap_2.
Qed.

(** ** Grading without the oracle *)

(** X26: [_fallback_evaluate] grades by the number of words alone: its
    score is 3, 5, 7 or 8, an answer with at least as many words never
    scores lower, whitespace around or between the words does not matter,
    and an answer without words scores 3. *)
Theorem fallback_grade_by_word_count (a b : text) :
  (length (Py.split a) <= length (Py.split b))%nat ->
  fst (Grading._fallback_evaluate a) <= fst (Grading._fallback_evaluate b)
  /\ fst (Grading._fallback_evaluate a) ∈ [3; 5; 7; 8]
  /\ Grading._fallback_evaluate (Py.join Py.space (Py.split a))
     = Grading._fallback_evaluate a
  /\ (Py.split a = [] -> fst (Grading._fallback_evaluate a) = 3).
Proof.
  intros Hle. unfold Grading._fallback_evaluate.
  rewrite split_join by apply split_words.
  split; [|split; [|split]].
  - repeat case_match; cbn [fst]; try lia;
      repeat match goal with
             | H : (_ <? _)%nat = true |- _ => apply Nat.ltb_lt in H
             | H : (_ <? _)%nat = false |- _ => apply Nat.ltb_ge in H
             end; lia.
  - repeat case_match; cbn [fst]; set_solver.
  - done.
  - by intros ->.
Qed.

Lemma fallback_grade_by_word_count_witness :
  fst (Grading._fallback_evaluate (u "yes"))
  <= fst (Grading._fallback_evaluate (u "I have used it for five years"))
  /\ fst (Grading._fallback_evaluate (u "yes")) ∈ [3; 5; 7; 8]
  /\ Grading._fallback_evaluate (Py.join Py.space (Py.split (u "yes")))
     = Grading._fallback_evaluate (u "yes")
  /\ (Py.split (u "yes") = [] ->
      fst (Grading._fallback_evaluate (u "yes")) = 3).
Proof.
  apply (fallback_grade_by_word_count (u "yes")
           (u "I have used it for five years")).
  vm_compute. lia.
Defined.
